(** * Android RAM console: a crash-persistent ring buffer

    Shallow embedding of [drivers/staging/android/ram_console.c] and the
    properties of its ring buffer, of the recovery of the previous boot's
    log, and of its initialisation paths.

    Memory is modelled as lists of bytes (a byte is a [Z]); every access
    is bounds-checked, and an access outside the object it designates is
    the distinguished outcome [Fault].  Loops run on fuel that the caller
    derives from the loop bound; running out of it is the distinguished
    outcome [Diverge], shown never to happen. *)

From stdpp Require Import base numbers list option.
From Stdlib Require Import ZArith Lia.
From Stdlib Require String Ascii DecimalString DecimalFacts DecimalPos.

Local Open Scope Z_scope.

(** ** Outcomes of a computation *)

Inductive result (A : Type) : Type :=
  | Ok (a : A)
  | Fault
  | Diverge.
Arguments Ok {A} a.
Arguments Fault {A}.
Arguments Diverge {A}.

#[global] Instance result_ret : MRet result := fun _ a => Ok a.
#[global] Instance result_bind : MBind result := fun _ _ f m =>
  match m with
  | Ok a => f a
  | Fault => Fault
  | Diverge => Diverge
  end.

(** ** Machine integers *)

(** Width of [size_t], [ssize_t] and pointers: the file builds for both
    32-bit and 64-bit kernels. *)
Inductive abi : Type := ILP32 | LP64.

Definition size_t_bits (a : abi) : Z :=
  match a with ILP32 => 32 | LP64 => 64 end.

Definition wrap_unsigned (bits x : Z) : Z := x mod 2 ^ bits.
Definition wrap_signed (bits x : Z) : Z :=
  (x + 2 ^ (bits - 1)) mod 2 ^ bits - 2 ^ (bits - 1).

Definition u8 := wrap_unsigned 8.
Definition u32 := wrap_unsigned 32.
Definition s32 := wrap_signed 32.
Definition u64 := wrap_unsigned 64.
Definition s64 := wrap_signed 64.
Definition usize (a : abi) := wrap_unsigned (size_t_bits a).
Definition ssize (a : abi) := wrap_signed (size_t_bits a).

Definition INT_MAX : Z := 2 ^ 31 - 1.

(** ** Byte memory *)

Abbreviation bytes := (list Z).

Definition len (m : bytes) : Z := Z.of_nat (length m).

(** [n] bytes of [m] from offset [off]. *)
Definition mem_read (m : bytes) (off n : Z) : result bytes :=
  if bool_decide (0 <= off /\ 0 <= n /\ off + n <= len m)
  then Ok (take (Z.to_nat n) (drop (Z.to_nat off) m))
  else Fault.

(** [m] with the bytes [v] stored from offset [off]. *)
Definition mem_write (m : bytes) (off : Z) (v : bytes) : result bytes :=
  if bool_decide (0 <= off /\ off + len v <= len m)
  then Ok (take (Z.to_nat off) m ++ v ++ drop (Z.to_nat off + length v) m)
  else Fault.

(** [memcpy(dst + off, src, n)]. *)
Definition memcpy (dst : bytes) (off : Z) (src : bytes) (n : Z) : result bytes :=
  v ← mem_read src 0 n; mem_write dst off v.

(** ** The region and the driver's globals *)

Module Buffer.
(** [struct ram_console_buffer]: three 32-bit header words, then the
    flexible array [data[0]], which runs to the end of the mapped
    region (log data, followed by the parity table when error
    correction is compiled in). *)
Record ram_console_buffer : Type := mk {
  sig : Z;
  start : Z;
  size : Z;
  data : bytes
}.
End Buffer.
Abbreviation ram_console_buffer := Buffer.ram_console_buffer.

Definition RAM_CONSOLE_SIG : Z := 0x43474244.

(** [sizeof(struct ram_console_buffer)]. *)
Definition sizeof_buffer : Z := 12.

Definition EFAULT : Z := 14.
Definition EINVAL : Z := 22.
Definition ENXIO : Z := 6.
Definition ENOMEM : Z := 12.

(** The file's static variables.  [buf] is the object
    [ram_console_buffer] points to; [ram_console_par_buffer] is kept as
    an offset into [Buffer.data]; [registered] records the call to
    [register_console]. *)
Record ram_console : Type := mk_ram_console {
  buf : ram_console_buffer;
  ram_console_buffer_size : Z;
  ram_console_old_log : option bytes;
  ram_console_old_log_size : Z;
  ram_console_par_buffer : Z;
  ram_console_corrected_bytes : Z;
  ram_console_bad_blocks : Z;
  registered : bool
}.

Definition set_buf (st : ram_console) (b : ram_console_buffer) : ram_console :=
  mk_ram_console b (ram_console_buffer_size st) (ram_console_old_log st)
    (ram_console_old_log_size st) (ram_console_par_buffer st)
    (ram_console_corrected_bytes st) (ram_console_bad_blocks st) (registered st).

Definition set_buffer_size (st : ram_console) (n : Z) : ram_console :=
  mk_ram_console (buf st) n (ram_console_old_log st)
    (ram_console_old_log_size st) (ram_console_par_buffer st)
    (ram_console_corrected_bytes st) (ram_console_bad_blocks st) (registered st).

Definition set_old_log (st : ram_console) (l : option bytes) (n : Z) : ram_console :=
  mk_ram_console (buf st) (ram_console_buffer_size st) l n
    (ram_console_par_buffer st)
    (ram_console_corrected_bytes st) (ram_console_bad_blocks st) (registered st).

Definition set_par_buffer (st : ram_console) (p : Z) : ram_console :=
  mk_ram_console (buf st) (ram_console_buffer_size st) (ram_console_old_log st)
    (ram_console_old_log_size st) p
    (ram_console_corrected_bytes st) (ram_console_bad_blocks st) (registered st).

Definition set_counters (st : ram_console) (c b : Z) : ram_console :=
  mk_ram_console (buf st) (ram_console_buffer_size st) (ram_console_old_log st)
    (ram_console_old_log_size st) (ram_console_par_buffer st) c b (registered st).

Definition set_registered (st : ram_console) (r : bool) : ram_console :=
  mk_ram_console (buf st) (ram_console_buffer_size st) (ram_console_old_log st)
    (ram_console_old_log_size st) (ram_console_par_buffer st)
    (ram_console_corrected_bytes st) (ram_console_bad_blocks st) r.

Definition set_data (b : ram_console_buffer) (d : bytes) : ram_console_buffer :=
  Buffer.mk (Buffer.sig b) (Buffer.start b) (Buffer.size b) d.

Definition set_header (b : ram_console_buffer) (g s n : Z) : ram_console_buffer :=
  Buffer.mk g s n (Buffer.data b).

(** The header as the bytes the codec sees when [buffer] is cast to a
    byte pointer: [sizeof_buffer] bytes, little-endian words. *)
Definition le32 (x : Z) : bytes :=
  [x mod 256; (x / 2 ^ 8) mod 256; (x / 2 ^ 16) mod 256; (x / 2 ^ 24) mod 256].

Definition of_le32 (l : bytes) : Z :=
  u32 (nth 0 l 0 + 2 ^ 8 * nth 1 l 0 + 2 ^ 16 * nth 2 l 0 + 2 ^ 24 * nth 3 l 0).

Definition header_bytes (b : ram_console_buffer) : bytes :=
  le32 (Buffer.sig b) ++ le32 (Buffer.start b) ++ le32 (Buffer.size b).

Definition set_header_bytes (b : ram_console_buffer) (h : bytes) : ram_console_buffer :=
  set_header b (of_le32 (take 4 h)) (of_le32 (take 4 (drop 4 h)))
    (of_le32 (take 4 (drop 8 h))).

(** ** Configuration *)

(** [CONFIG_ANDROID_RAM_CONSOLE_ERROR_CORRECTION_DATA_SIZE] and
    [..._ECC_SIZE]: Kconfig constants, parameters here. *)
Record ecc_params : Type := mk_ecc {
  ECC_BLOCK_SIZE : Z;
  ECC_SIZE : Z
}.

(** [ecc = None] is a build without
    [CONFIG_ANDROID_RAM_CONSOLE_ERROR_CORRECTION]. *)
Record config : Type := mk_config {
  cfg_abi : abi;
  ecc : option ecc_params
}.

(** The Reed-Solomon library ([linux/rslib.h]), which this file only
    calls.  [encode_rs8 d] is the parity [encode_rs8] leaves in a zeroed
    [par] array for the data [d]; [decode_rs8 d par] is the return value
    of [decode_rs8] (the number of corrected symbols, negative when the
    block is uncorrectable) and the data as corrected in place. *)
Record rs_codec : Type := mk_codec {
  encode_rs8 : bytes -> list Z;
  decode_rs8 : bytes -> list Z -> Z * bytes;
  decode_rs8_length : forall d p, length (decode_rs8 d p).2 = length d
}.

(** The slab allocator, of which the file only calls [kmalloc]: the
    answer to a request for [n] bytes is [None] (a NULL pointer) or a
    fresh object of [n] bytes with arbitrary contents. *)
Record allocator : Type := mk_allocator {
  kmalloc : Z -> option bytes;
  kmalloc_len : forall n b, kmalloc n = Some b -> len b = n
}.

(** [struct resource] and [struct ram_console_platform_data], as far as
    the probe reads them. *)
Record resource : Type := mk_resource {
  res_start : Z;
  res_end : Z;
  res_flags : Z
}.

Record ram_console_platform_data : Type := mk_platform_data {
  mem_size : Z;
  mem_address : Z;
  mem_type : Z
}.

Definition IORESOURCE_MEM : Z := 0x200.

Definition is_Some_bool {A} (o : option A) : bool :=
  match o with Some _ => true | None => false end.

(** ** The diagnostic trailer *)

Definition ascii_bytes (s : String.string) : bytes :=
  map (fun c => Z.of_N (Ascii.N_of_ascii c)) (String.list_ascii_of_string s).

(** ["%d"]. *)
Definition decimal (z : Z) : String.string :=
  DecimalString.NilZero.string_of_int (Z.to_int z).

Definition newline : String.string :=
  String.String (Ascii.ascii_of_nat 10) String.EmptyString.

(** [sizeof(strbuf)]. *)
Definition sizeof_strbuf : Z := 80.

Module Format.
Import Stdlib.Strings.String.
Local Open Scope string_scope.

(** The two format strings of [ram_console_save_old], filled in. *)
Definition errors (corrected bad : String.string) : String.string :=
  newline ++ corrected ++ " Corrected bytes, " ++ bad
    ++ " unrecoverable blocks" ++ newline.

Definition no_errors : String.string :=
  newline ++ "No errors detected" ++ newline.
End Format.

(** The text the two [snprintf] calls of [ram_console_save_old] format. *)
Definition diag_text (corrected bad : Z) : bytes :=
  if bool_decide (corrected <> 0 \/ bad <> 0)
  then ascii_bytes (Format.errors (decimal corrected) (decimal bad))
  else ascii_bytes Format.no_errors.

(** [strbuf_len] after the clamp to [sizeof(strbuf) - 1]. *)
Definition diag_len (corrected bad : Z) : Z :=
  let n := len (diag_text corrected bad) in
  if bool_decide (n >= sizeof_strbuf) then sizeof_strbuf - 1 else n.

(** The [strbuf_len] bytes of [strbuf] that are copied out. *)
Definition diag_line (corrected bad : Z) : bytes :=
  take (Z.to_nat (diag_len corrected bad)) (diag_text corrected bad).

(** ** The driver *)

Section Driver.
Context (cfg : config) (rs : rs_codec).

(** [DIV_ROUND_UP(n, d)] on [size_t]. *)
Definition DIV_ROUND_UP (n d : Z) : Z :=
  usize (cfg_abi cfg) (n + d - 1) / d.

(** [ram_console_encode_rs8]: the [ECC_SIZE] parity bytes of [d], each
    the low byte of a 16-bit parity symbol. *)
Definition ram_console_encode_rs8 (e : ecc_params) (d : bytes) : bytes :=
  map (fun i => u8 (nth i (encode_rs8 rs d) 0)) (seq 0 (Z.to_nat (ECC_SIZE e))).

(** [ram_console_decode_rs8]: the decoder's return value and the data
    as corrected in place. *)
Definition ram_console_decode_rs8 (d par : bytes) : Z * bytes :=
  decode_rs8 rs d par.

(** The [do ... while] loop of [ram_console_update]; [bsz] is
    [buffer_end] and [lim] is [buffer->start + count], both as offsets
    from [buffer->data]. *)
Fixpoint update_blocks (e : ecc_params) (fuel : nat) (bsz lim : Z)
    (m : bytes) (block par size : Z) : result bytes :=
  match fuel with
  | O => Diverge
  | S fuel' =>
      let size :=
        if bool_decide (block + ECC_BLOCK_SIZE e > bsz)
        then s32 (bsz - block) else size in
      d ← mem_read m block (usize (cfg_abi cfg) size);
      m' ← mem_write m par (ram_console_encode_rs8 e d);
      let block := block + ECC_BLOCK_SIZE e in
      let par := par + ECC_SIZE e in
      if bool_decide (block < lim)
      then update_blocks e fuel' bsz lim m' block par size
      else Ok m'
  end.

Definition ram_console_update (st : ram_console) (s : bytes) (count : Z)
    : result ram_console :=
  let buffer := buf st in
  m ← memcpy (Buffer.data buffer) (Buffer.start buffer) s count;
  match ecc cfg with
  | None => Ok (set_buf st (set_data buffer m))
  | Some e =>
      let buffer_end := ram_console_buffer_size st in
      let block :=
        u32 (Z.land (Buffer.start buffer) (Z.lnot (ECC_BLOCK_SIZE e - 1))) in
      let par := ram_console_par_buffer st
                 + u32 (u32 (Buffer.start buffer / ECC_BLOCK_SIZE e) * ECC_SIZE e) in
      m' ← update_blocks e (S (Z.to_nat count)) buffer_end
             (Buffer.start buffer + count) m block par (ECC_BLOCK_SIZE e);
      Ok (set_buf st (set_data buffer m'))
  end.

Definition ram_console_update_header (st : ram_console) : result ram_console :=
  match ecc cfg with
  | None => Ok st
  | Some e =>
      let buffer := buf st in
      let par := ram_console_par_buffer st
                 + usize (cfg_abi cfg)
                     (DIV_ROUND_UP (ram_console_buffer_size st) (ECC_BLOCK_SIZE e)
                      * ECC_SIZE e) in
      m ← mem_write (Buffer.data buffer) par
            (ram_console_encode_rs8 e (header_bytes buffer));
      Ok (set_buf st (set_data buffer m))
  end.

(** [ram_console_write(console, s, count)]; [s] holds the bytes the
    pointer designates. *)
Definition ram_console_write (st : ram_console) (s : bytes) (count : Z)
    : result ram_console :=
  let bsz := ram_console_buffer_size st in
  let '(s, count) :=
    if bool_decide (count > bsz)
    then (drop (Z.to_nat (count - bsz)) s, u32 bsz)
    else (s, count) in
  let rem := s32 (usize (cfg_abi cfg) (bsz - Buffer.start (buf st))) in
  '(st, s, count) ←
    (if bool_decide (u32 rem < count)
     then
       st ← ram_console_update st s (u32 rem);
       s ← (if bool_decide (0 <= rem) then Ok (drop (Z.to_nat rem) s) else Fault);
       Ok (set_buf st (set_header (buf st) (Buffer.sig (buf st)) 0 (u32 bsz)),
           s, u32 (count - rem))
     else Ok (st, s, count));
  st ← ram_console_update st s count;
  let buffer := buf st in
  let start := u32 (Buffer.start buffer + count) in
  let size :=
    if bool_decide (Buffer.size buffer < bsz)
    then u32 (Buffer.size buffer + count) else Buffer.size buffer in
  ram_console_update_header
    (set_buf st (set_header buffer (Buffer.sig buffer) start size)).

(** The [while] loop of [ram_console_save_old]: decode every block
    below [buffer->size] in place, counting corrected bytes and bad
    blocks. *)
Fixpoint decode_blocks (e : ecc_params) (fuel : nat) (bsz lim : Z)
    (m : bytes) (corrected bad : Z) (block par : Z)
    : result (bytes * Z * Z) :=
  if bool_decide (block < lim) then
    match fuel with
    | O => Diverge
    | S fuel' =>
        let size :=
          if bool_decide (block + ECC_BLOCK_SIZE e > bsz)
          then s32 (bsz - block) else ECC_BLOCK_SIZE e in
        d ← mem_read m block (usize (cfg_abi cfg) size);
        p ← mem_read m par (ECC_SIZE e);
        let '(numerr, d') := ram_console_decode_rs8 d p in
        m' ← mem_write m block d';
        let '(corrected, bad) :=
          if bool_decide (numerr > 0) then (s32 (corrected + numerr), bad)
          else if bool_decide (numerr < 0) then (corrected, s32 (bad + 1))
          else (corrected, bad) in
        decode_blocks e fuel' bsz lim m' corrected bad
          (block + ECC_BLOCK_SIZE e) (par + ECC_SIZE e)
    end
  else Ok (m, corrected, bad).

(** Lines 181-221 of [ram_console_save_old], compiled in with error
    correction: decode the blocks and format the trailer.  Returns the
    globals and the [strbuf_len] bytes of [strbuf]. *)
Definition save_old_decode (st : ram_console) : result (ram_console * bytes) :=
  match ecc cfg with
  | None => Ok (st, [])
  | Some e =>
      let buffer := buf st in
      '(m, corrected, bad) ←
        decode_blocks e (Z.to_nat (Buffer.size buffer))
          (ram_console_buffer_size st) (Buffer.size buffer)
          (Buffer.data buffer)
          (ram_console_corrected_bytes st) (ram_console_bad_blocks st)
          0 (ram_console_par_buffer st);
      Ok (set_counters (set_buf st (set_data buffer m)) corrected bad,
          diag_line corrected bad)
  end.

(** [ram_console_save_old(buffer, dest)]; [dest = None] is a NULL
    destination, for which the function allocates. *)
Definition ram_console_save_old (alloc : allocator) (st : ram_console)
    (dest : option bytes) : result ram_console :=
  let old_log_size := Buffer.size (buf st) in
  '(st, strbuf) ← save_old_decode st;
  let total_size := usize (cfg_abi cfg) (old_log_size + len strbuf) in
  let dest :=
    match dest with
    | Some d => Some d
    | None => kmalloc alloc total_size
    end in
  match dest with
  | None => Ok st
  | Some d =>
      let buffer := buf st in
      let n1 := u32 (Buffer.size buffer - Buffer.start buffer) in
      v1 ← mem_read (Buffer.data buffer) (Buffer.start buffer) n1;
      d ← mem_write d 0 v1;
      v2 ← mem_read (Buffer.data buffer) 0 (Buffer.start buffer);
      d ← mem_write d (Buffer.size buffer - Buffer.start buffer) v2;
      d ← memcpy d old_log_size strbuf (len strbuf);
      Ok (set_old_log st (Some d) total_size)
  end.

(** Lines 253-302 of [ram_console_init]: the capacity computation and,
    with error correction, the parity carve-out, the codec allocation
    and the decoding of the header.  [inl] is an early [return 0],
    [inr] continues to the header check. *)
Definition ram_console_init_layout (st : ram_console) (buffer_size : Z)
    (init_rs_ok : bool) : result (ram_console + ram_console) :=
  let a := cfg_abi cfg in
  let st := set_buffer_size st (usize a (buffer_size - sizeof_buffer)) in
  if bool_decide (ram_console_buffer_size st > buffer_size) then Ok (inl st)
  else
    match ecc cfg with
    | None => Ok (inr st)
    | Some e =>
        let bsz := ram_console_buffer_size st in
        let st := set_buffer_size st
          (usize a (bsz - usize a ((DIV_ROUND_UP bsz (ECC_BLOCK_SIZE e) + 1)
                                   * ECC_SIZE e))) in
        if bool_decide (ram_console_buffer_size st > buffer_size) then Ok (inl st)
        else
          let st := set_par_buffer st (ram_console_buffer_size st) in
          if negb init_rs_ok then Ok (inl st)
          else
            let st := set_counters st 0 0 in
            let par := ram_console_par_buffer st
              + usize a (DIV_ROUND_UP (ram_console_buffer_size st) (ECC_BLOCK_SIZE e)
                         * ECC_SIZE e) in
            p ← mem_read (Buffer.data (buf st)) par (ECC_SIZE e);
            let '(numerr, h) := ram_console_decode_rs8 (header_bytes (buf st)) p in
            let st := set_buf st (set_header_bytes (buf st) h) in
            let st :=
              if bool_decide (numerr > 0)
              then set_counters st (s32 (ram_console_corrected_bytes st + numerr))
                     (ram_console_bad_blocks st)
              else if bool_decide (numerr < 0)
              then set_counters st (ram_console_corrected_bytes st)
                     (s32 (ram_console_bad_blocks st + 1))
              else st in
            Ok (inr st)
    end.

(** The test of lines 304-306 that lets [ram_console_save_old] run. *)
Definition old_buffer_valid (st : ram_console) : bool :=
  bool_decide (Buffer.sig (buf st) = RAM_CONSOLE_SIG)
  && negb (bool_decide (Buffer.size (buf st) > ram_console_buffer_size st)
           || bool_decide (Buffer.start (buf st) > Buffer.size (buf st))).

(** [ram_console_init(buffer, buffer_size, old_buf)]: the return value
    and the globals afterwards.  [buf st] is the region [buffer]
    designates. *)
Definition ram_console_init (alloc : allocator) (init_rs_ok : bool)
    (st : ram_console) (buffer_size : Z) (old_buf : option bytes)
    : result (Z * ram_console) :=
  r ← ram_console_init_layout st buffer_size init_rs_ok;
  match r with
  | inl st => Ok (0, st)
  | inr st =>
      st ← (if old_buffer_valid st
            then ram_console_save_old alloc st old_buf
            else Ok st);
      let st := set_buf st (set_header (buf st) RAM_CONSOLE_SIG 0 0) in
      Ok (0, set_registered st true)
  end.

(** [ram_console_read_old(file, buf, len, offset)]: the return value,
    the bytes stored to the user buffer and the new [*offset].
    [user_ok] tells whether [copy_to_user] can store to [buf]. *)
Definition ram_console_read_old (st : ram_console) (user_ok : bool)
    (length pos : Z) : result (Z * bytes * Z) :=
  let a := cfg_abi cfg in
  let old_log_size := ram_console_old_log_size st in
  let past_end :=
    match a with
    | ILP32 => bool_decide (pos >= old_log_size)
    | LP64 => bool_decide (u64 pos >= old_log_size)
    end in
  if past_end then Ok (0, [], pos)
  else
    let count := ssize a (Z.min length (usize a (old_log_size - pos))) in
    if negb user_ok then Ok (- EFAULT, [], pos)
    else
      match ram_console_old_log st with
      | None => Fault
      | Some log =>
          v ← mem_read log pos (usize a count);
          Ok (count, v, s64 (pos + count))
      end.
(** Modelled from the spec: the console framework, which is not part
    of this driver, calls the [write] callback of a console only once
    [register_console] has been called for it (section 4.2: the
    operation either completes or is not invoked). *)
Definition console_emit (st : ram_console) (s : bytes) : result ram_console :=
  if registered st then ram_console_write st s (len s) else Ok st.

(** [ram_console_driver_probe]: the return value and the globals.
    [of_node] tells whether the device has a device-tree node,
    [platform_data] is [pdev->dev.platform_data], [pdev_resource] is
    [pdev->resource], [dt_resource] and [unbuffered] are what
    [platform_get_resource] and [of_property_read_bool] find in
    [ramoops_parse_dt], and [ioremap] maps a physical range to a region
    or fails. *)
Definition ram_console_driver_probe (alloc : allocator) (init_rs_ok : bool)
    (PAGE_SIZE : Z) (st : ram_console) (of_node : bool)
    (platform_data : option ram_console_platform_data)
    (pdev_resource dt_resource : option resource) (unbuffered : bool)
    (ioremap : Z -> Z -> option ram_console_buffer)
    : result (Z * ram_console) :=
  let parsed :=
    if of_node && negb (is_Some_bool platform_data)
    then
      match dt_resource with
      | None => inl (- EINVAL)
      | Some r =>
          inr (dt_resource,
               Some (mk_platform_data (res_end r - res_start r + 1) (res_start r)
                       (if unbuffered then 1 else 0)))
      end
    else inr (pdev_resource, platform_data) in
  match parsed with
  | inl err => Ok (err, st)
  | inr (g_res, pdata) =>
      match pdata with
      | None => Ok (- ENXIO, st)
      | Some pd =>
          if bool_decide (mem_size pd = 0) then Ok (- ENOMEM, st)
          else
            match g_res with
            | None => Ok (- ENXIO, st)
            | Some r =>
                if bool_decide (Z.land (res_flags r) IORESOURCE_MEM = 0)
                then Ok (- ENXIO, st)
                else
                  let buffer_size :=
                    usize (cfg_abi cfg)
                      (res_end r - res_start r + 1 - PAGE_SIZE * 10) in
                  match ioremap (res_start r) buffer_size with
                  | None => Ok (- ENOMEM, st)
                  | Some buffer =>
                      ram_console_init alloc init_rs_ok (set_buf st buffer)
                        buffer_size None
                  end
            end
      end
  end.
End Driver.
(** ** Well-formedness *)

(** The Kconfig values the code relies on: a block size that is a power
    of two (the block of an offset is found by masking), fewer parity
    than data bytes, and a codeword of at most 255 eight-bit symbols. *)
Definition ecc_params_ok (e : ecc_params) : Prop :=
  0 < ECC_SIZE e /\ ECC_SIZE e < ECC_BLOCK_SIZE e
  /\ ECC_BLOCK_SIZE e + ECC_SIZE e <= 255
  /\ ECC_BLOCK_SIZE e = 2 ^ Z.log2 (ECC_BLOCK_SIZE e).

(** Parity bytes the layout of [ram_console_init] needs after [bsz]
    bytes of log data: one segment per block, rounded up, and one for
    the header. *)
Definition parity_table_size (e : ecc_params) (bsz : Z) : Z :=
  ((bsz + ECC_BLOCK_SIZE e - 1) / ECC_BLOCK_SIZE e + 1) * ECC_SIZE e.

(** The region holds the log area and, with error correction, the
    parity table behind it, as [ram_console_init] lays them out; the
    capacity fits the [int] that [ram_console_write] keeps [rem] in. *)
Definition layout_ok (cfg : config) (st : ram_console) : Prop :=
  0 <= ram_console_buffer_size st <= INT_MAX
  /\ match ecc cfg with
     | None => ram_console_buffer_size st <= len (Buffer.data (buf st))
     | Some e =>
         ecc_params_ok e
         /\ ram_console_par_buffer st = ram_console_buffer_size st
         /\ ram_console_buffer_size st
              + parity_table_size e (ram_console_buffer_size st)
            <= len (Buffer.data (buf st))
     end.

(** What [ram_console_init] is handed: a mapped region of [buffer_size]
    bytes (the size fits an [int]) whose header words are 32-bit values. *)
Definition region_ok (st : ram_console) (buffer_size : Z) : Prop :=
  0 <= buffer_size <= INT_MAX
  /\ (sizeof_buffer <= buffer_size ->
      len (Buffer.data (buf st)) = buffer_size - sizeof_buffer)
  /\ 0 <= Buffer.sig (buf st) < 2 ^ 32
  /\ 0 <= Buffer.start (buf st) < 2 ^ 32
  /\ 0 <= Buffer.size (buf st) < 2 ^ 32.

(** A destination handed to [ram_console_init] has room for any log of
    the region and the trailer. *)
Definition old_buf_ok (old_buf : option bytes) (buffer_size : Z) : Prop :=
  match old_buf with
  | Some d => buffer_size + sizeof_strbuf <= len d
  | None => True
  end.

Definition config_ok (cfg : config) : Prop :=
  match ecc cfg with
  | Some e => ecc_params_ok e
  | None => True
  end.

(** The reservations leave no room: the header does not fit, or, with
    error correction, the parity table for what is left behind the
    header is larger than that. *)
Definition insufficient_capacity (cfg : config) (buffer_size : Z) : Prop :=
  buffer_size < sizeof_buffer
  \/ match ecc cfg with
     | None => False
     | Some e =>
         buffer_size - sizeof_buffer
         < parity_table_size e (buffer_size - sizeof_buffer)
     end.

(** The capacity [ram_console_init] arrives at when the reservations
    fit. *)
Definition data_capacity (cfg : config) (buffer_size : Z) : Z :=
  match ecc cfg with
  | None => buffer_size - sizeof_buffer
  | Some e =>
      buffer_size - sizeof_buffer
      - parity_table_size e (buffer_size - sizeof_buffer)
  end.

(** The trailer that [ram_console_save_old] appends: none without
    error correction, else the diagnostic line for the counters. *)
Definition trailer (cfg : config) (st : ram_console) : bytes :=
  match ecc cfg with
  | None => []
  | Some _ =>
      diag_line (ram_console_corrected_bytes st) (ram_console_bad_blocks st)
  end.

(** The valid window of a header with [start <= size], read from
    [start] and wrapping to the front: [data[start .. size)] followed by
    [data[0 .. start)]. *)
Definition old_window (b : ram_console_buffer) : bytes :=
  take (Z.to_nat (Buffer.size b - Buffer.start b))
    (drop (Z.to_nat (Buffer.start b)) (Buffer.data b))
  ++ take (Z.to_nat (Buffer.start b)) (Buffer.data b).

(** The header of a live console: either nothing wrapped yet and the
    bytes written are [data[0 .. start)], or the log area is full. *)
Definition header_ok (st : ram_console) : Prop :=
  0 <= Buffer.start (buf st) <= ram_console_buffer_size st
  /\ (Buffer.size (buf st) = Buffer.start (buf st)
      \/ Buffer.size (buf st) = ram_console_buffer_size st).

Definition live_inv (cfg : config) (st : ram_console) : Prop :=
  layout_ok cfg st /\ header_ok st.

(** The log area: the first [ram_console_buffer_size] bytes of [data]. *)
Definition log_area (st : ram_console) : bytes :=
  take (Z.to_nat (ram_console_buffer_size st)) (Buffer.data (buf st)).

(** One turn of the ring, read circularly up to position [start]. *)
Definition ring (st : ram_console) : bytes :=
  drop (Z.to_nat (Buffer.start (buf st))) (log_area st)
  ++ take (Z.to_nat (Buffer.start (buf st))) (log_area st).

(** The last [n] bytes of [l] ([l] itself when it is shorter). *)
Definition last_bytes (n : Z) (l : bytes) : bytes :=
  drop (Z.to_nat (len l - n)) l.

(** The logical content: the [size] bytes that end at position [start],
    read circularly. *)
Definition logical_content (st : ram_console) : bytes :=
  last_bytes (Buffer.size (buf st)) (ring st).

(** The offsets of the parity segment of block [k], after a log area
    of [bsz] bytes. *)
Definition in_slot (e : ecc_params) (bsz k i : Z) : Prop :=
  bsz + k * ECC_SIZE e <= i < bsz + (k + 1) * ECC_SIZE e.

(** The blocks whose parity the loop of [ram_console_update] encodes
    when it starts in block [k0] and runs up to offset [lim]: block [k0]
    in any case, then every block that begins below [lim]. *)
Definition encoded_block (e : ecc_params) (k0 lim k : Z) : Prop :=
  k0 <= k /\ (k = k0 \/ k * ECC_BLOCK_SIZE e < lim).

(** The offsets of [data] that [ram_console_update st s count] may
    store to. *)
Definition update_footprint (cfg : config) (st : ram_console) (count i : Z) : Prop :=
  Buffer.start (buf st) <= i < Buffer.start (buf st) + count
  \/ match ecc cfg with
     | None => False
     | Some e =>
         exists k,
           encoded_block e (Buffer.start (buf st) / ECC_BLOCK_SIZE e)
             (Buffer.start (buf st) + count) k
           /\ in_slot e (ram_console_buffer_size st) k i
     end.

(** The parity segment of the header comes after those of the blocks. *)
Definition header_slot (e : ecc_params) (bsz : Z) : Z :=
  (bsz + ECC_BLOCK_SIZE e - 1) / ECC_BLOCK_SIZE e.

(** The offsets of the log area that a write of [n] bytes stores to:
    positions [start .. start + n - 1], taken circularly. *)
Definition written_range (st : ram_console) (n i : Z) : Prop :=
  Buffer.start (buf st) <= i
    < Z.min (Buffer.start (buf st) + n) (ram_console_buffer_size st)
  \/ 0 <= i < Buffer.start (buf st) + n - ram_console_buffer_size st.

(** Block [k] holds a position of the written range. *)
Definition block_written (e : ecc_params) (st : ram_console) (n k : Z) : Prop :=
  exists p, written_range st n p /\ p / ECC_BLOCK_SIZE e = k.

(** The offsets of [data] that a write of [n] bytes (at most the
    capacity) may store to: the written range; with error correction,
    also the parity segments of the blocks that hold a written position,
    of the block that [start] lies in, and of the header. *)
Definition write_footprint (cfg : config) (st : ram_console) (n i : Z) : Prop :=
  written_range st n i
  \/ match ecc cfg with
     | None => False
     | Some e =>
         exists k,
           (k = header_slot e (ram_console_buffer_size st)
            \/ k = Buffer.start (buf st) / ECC_BLOCK_SIZE e
            \/ block_written e st n k)
           /\ in_slot e (ram_console_buffer_size st) k i
     end.

(** The length of block [k] of a log area of [bsz] bytes: the last
    block may be partial. *)
Definition block_len (e : ecc_params) (bsz k : Z) : Z :=
  Z.min (ECC_BLOCK_SIZE e) (bsz - k * ECC_BLOCK_SIZE e).

(** The bytes of block [k], and the bytes of its parity segment. *)
Definition block_data (e : ecc_params) (bsz : Z) (m : bytes) (k : Z) : bytes :=
  take (Z.to_nat (block_len e bsz k)) (drop (Z.to_nat (k * ECC_BLOCK_SIZE e)) m).

Definition slot_bytes (e : ecc_params) (bsz : Z) (m : bytes) (k : Z) : bytes :=
  take (Z.to_nat (ECC_SIZE e)) (drop (Z.to_nat (bsz + k * ECC_SIZE e)) m).

(** The parity segment of block [k] is the parity of the block, encoded
    over its actual length. *)
Definition parity_fresh (rs : rs_codec) (e : ecc_params) (bsz : Z)
    (m : bytes) (k : Z) : Prop :=
  slot_bytes e bsz m k = ram_console_encode_rs8 rs e (block_data e bsz m k).

(** [m'] has the length of [m] and differs from it at most at the
    offsets in [P]. *)
Definition same_except (P : Z -> Prop) (m m' : bytes) : Prop :=
  len m' = len m
  /\ forall i, 0 <= i -> ~ P i -> m' !! Z.to_nat i = m !! Z.to_nat i.

(** A sequence of calls of [ram_console_write], each with the length of
    its argument as [count]. *)
Fixpoint write_all (cfg : config) (rs : rs_codec) (st : ram_console)
    (ws : list bytes) : result ram_console :=
  match ws with
  | [] => Ok st
  | s :: ws' =>
      st' ← ram_console_write cfg rs st s (len s);
      write_all cfg rs st' ws'
  end.


(** Two states of the globals with the same recovered log. *)
Definition same_old_log (st st' : ram_console) : Prop :=
  ram_console_old_log st' = ram_console_old_log st
  /\ ram_console_old_log_size st' = ram_console_old_log_size st.

(** ** Instances for the examples *)

(** A stand-in for the Reed-Solomon library: parity symbol 0 is the xor
    of the data bytes, symbol 1 their number, the others are zero; the
    decoder reports no error and corrects nothing. *)
Definition xor_codec : rs_codec :=
  {| encode_rs8 := fun d => [foldr Z.lxor 0 d; len d];
     decode_rs8 := fun d _ => (0, d);
     decode_rs8_length := fun d _ => eq_refl |}.

(** An allocator that always succeeds, and one that always fails. *)
Definition zeroed (n : Z) : option bytes :=
  if bool_decide (0 <= n) then Some (replicate (Z.to_nat n) 0) else None.

Lemma zeroed_len n b : zeroed n = Some b -> len b = n.
Proof.
  unfold zeroed. case_bool_decide; [|done]. intros [= <-].
  unfold len. rewrite length_replicate. lia.
Qed.

Definition zeroed_allocator : allocator :=
  {| kmalloc := zeroed; kmalloc_len := zeroed_len |}.

Definition no_memory : allocator :=
  {| kmalloc := fun _ => None;
     kmalloc_len := fun n b (H : None = Some b) =>
       match H in _ = o return match o with Some _ => len b = n | None => True end
       with eq_refl => I end |}.

(** Globals before initialisation, around a region with header words
    [g], [s], [n] and [k] zero bytes behind the header. *)
Definition blank (g s n : Z) (k : nat) : ram_console :=
  mk_ram_console (Buffer.mk g s n (replicate k 0)) 0 None 0 0 0 0 false.

Definition no_ecc : config := mk_config ILP32 None.
Definition with_ecc : config := mk_config ILP32 (Some (mk_ecc 4 2)).

(** ** Error correction across a reboot *)

(** What the code expects of the Reed-Solomon library: a block with the
    parity that [ram_console_encode_rs8] stored for it decodes to
    itself, and the decoder reports no error. *)
Definition decodes_clean (rs : rs_codec) (e : ecc_params) : Prop :=
  forall d, decode_rs8 rs d (ram_console_encode_rs8 rs e d) = (0, d).

(** Every block that begins below [size] has the parity of its bytes. *)
Definition blocks_fresh (rs : rs_codec) (e : ecc_params) (st : ram_console) : Prop :=
  forall k,
    0 <= k -> k * ECC_BLOCK_SIZE e < Buffer.size (buf st) ->
    parity_fresh rs e (ram_console_buffer_size st) (Buffer.data (buf st)) k.

(** The parity segment of the header is the parity of the header. *)
Definition header_fresh (rs : rs_codec) (e : ecc_params) (st : ram_console) : Prop :=
  slot_bytes e (ram_console_buffer_size st) (Buffer.data (buf st))
    (header_slot e (ram_console_buffer_size st))
  = ram_console_encode_rs8 rs e (header_bytes (buf st)).

(** ** Reading the recovered log *)

(** A reader of the file: successive calls of [ram_console_read_old]
    for at most [length] bytes, each at the offset that the call before
    left, up to the first call that returns no byte (or an error).
    The result is what the calls stored, in order, and the last
    offset. *)
Fixpoint read_all (cfg : config) (st : ram_console) (user_ok : bool)
    (fuel : nat) (length pos : Z) : result (bytes * Z) :=
  match fuel with
  | O => Diverge
  | S fuel' =>
      '(count, v, pos') ← ram_console_read_old cfg st user_ok length pos;
      if bool_decide (count <= 0) then Ok ([], pos')
      else
        '(rest, pos'') ← read_all cfg st user_ok fuel' length pos';
        Ok (v ++ rest, pos'')
  end.

(** ** The console flags *)

Definition s16 := wrap_signed 16.

(** [ram_console_enable_console(enabled)] on [ram_console.flags], a
    [short]; [CON_ENABLED] comes from [linux/console.h] and is a
    parameter here. *)
Definition ram_console_enable_console (CON_ENABLED : Z) (flags enabled : Z) : Z :=
  if bool_decide (enabled <> 0)
  then s16 (Z.lor flags CON_ENABLED)
  else s16 (Z.land flags (Z.lnot CON_ENABLED)).

(** ** What the decoding pass computes *)

(** What the decoder returns for block [k] of [m] and the parity
    segment of that block. *)
Definition decoded_block (rs : rs_codec) (e : ecc_params) (bsz : Z) (m : bytes)
    (k : Z) : Z * bytes :=
  decode_rs8 rs (block_data e bsz m k) (slot_bytes e bsz m k).

(** The counting of one decoder result, as both [ram_console_save_old]
    and [ram_console_init] do it: a positive result adds to the
    corrected bytes, a negative one is one more bad block. *)
Definition tally (cb : Z * Z) (numerr : Z) : Z * Z :=
  if bool_decide (numerr > 0) then (s32 (cb.1 + numerr), cb.2)
  else if bool_decide (numerr < 0) then (cb.1, s32 (cb.2 + 1))
  else cb.

(** The number of blocks that begin below [lim]. *)
Definition blocks_below (e : ecc_params) (lim : Z) : Z :=
  (lim + ECC_BLOCK_SIZE e - 1) / ECC_BLOCK_SIZE e.

(** A stand-in for the Reed-Solomon library that corrects: the parity
    of a block is a copy of its first bytes; the decoder puts them back
    and reports how many differed. *)
Definition copy_decode (d p : bytes) : Z * bytes :=
  (Z.of_nat (length (filter (fun x => x.1 <> x.2) (zip d p))),
   take (length d) (p ++ drop (length p) d)).

Lemma copy_decode_length d p : length (copy_decode d p).2 = length d.
Proof.
  unfold copy_decode. simpl. rewrite length_take, length_app, length_drop. lia.
Qed.

Definition copy_codec : rs_codec :=
  {| encode_rs8 := fun d => d;
     decode_rs8 := copy_decode;
     decode_rs8_length := copy_decode_length |}.

(** ** Module initialisation and exit *)

(** A pointer as [IS_ERR] tells them apart: NULL, an error pointer, or
    the address of an object. *)
Inductive pointer : Type :=
  | NULL
  | ERR_PTR (errno : Z)
  | Object (id : Z).

Definition IS_ERR (p : pointer) : bool :=
  match p with ERR_PTR _ => true | _ => false end.

(** The calls that these functions make into the kernel, with the
    arguments that vary. *)
Inductive call : Type :=
  | Platform_device_register_data (pdata : ram_console_platform_data)
  | Platform_device_unregister (pdev : pointer)
  | Platform_driver_register
  | Platform_driver_unregister
  | Proc_create_data
  | Proc_set_size (entry : Z) (size : Z)
  | Kfree (p : bytes).

(** What the kernel answers: the pointer that
    [platform_device_register_data] returns, the return value of
    [platform_driver_register] with the driver's variables as the
    probes that it ran left them, and the entry that [proc_create_data]
    returns, if any. *)
Record kernel : Type := mk_kernel {
  device_registered : ram_console_platform_data -> pointer;
  driver_registered : ram_console -> result (Z * ram_console);
  proc_created : option Z
}.

Module Param.
(** The module parameters [mem_address], [mem_size] and [mem_type]. *)
Record module_params : Type := mk {
  mem_address : Z;
  mem_size : Z;
  mem_type : Z
}.
End Param.

(** The driver's variables, the static [dummy], and the calls made so
    far. *)
Record module_state : Type := mk_module {
  globals : ram_console;
  dummy : pointer;
  calls : list call
}.

(** [ramoops_unregister_dummy]: [dummy] goes to
    [platform_device_unregister] as it is, then is cleared. *)
Definition ramoops_unregister_dummy (m : module_state) : module_state :=
  mk_module (globals m) NULL (calls m ++ [Platform_device_unregister (dummy m)]).

(** [ramoops_register_dummy]: nothing without the module parameter
    [mem_size]; else a device that carries the three parameters as its
    platform data, and on an error pointer [dummy] is cleared before
    [ramoops_unregister_dummy] runs. *)
Definition ramoops_register_dummy (k : kernel) (p : Param.module_params)
    (m : module_state) : module_state :=
  if bool_decide (Param.mem_size p = 0) then m
  else
    let pdata :=
      mk_platform_data (Param.mem_size p) (Param.mem_address p) (Param.mem_type p) in
    let m := mk_module (globals m) (device_registered k pdata)
               (calls m ++ [Platform_device_register_data pdata]) in
    if IS_ERR (dummy m)
    then ramoops_unregister_dummy (mk_module (globals m) NULL (calls m))
    else m.

(** [ram_console_late_init]: the return value and the state.  The file
    is created only when a log was recovered; when it cannot be
    created, the log is freed. *)
Definition ram_console_late_init (k : kernel) (p : Param.module_params)
    (m : module_state) : result (Z * module_state) :=
  let m := ramoops_register_dummy k p m in
  '(ret, g) ← driver_registered k (globals m);
  let m := mk_module g (dummy m) (calls m ++ [Platform_driver_register]) in
  if bool_decide (ret <> 0) then Ok (ret, ramoops_unregister_dummy m)
  else
    match ram_console_old_log g with
    | None => Ok (0, m)
    | Some log =>
        let m := mk_module g (dummy m) (calls m ++ [Proc_create_data]) in
        match proc_created k with
        | None =>
            Ok (0, mk_module (set_old_log g None (ram_console_old_log_size g))
                     (dummy m) (calls m ++ [Kfree log]))
        | Some entry =>
            Ok (0, mk_module g (dummy m)
                     (calls m ++ [Proc_set_size entry (ram_console_old_log_size g)]))
        end
    end.

(** [ramoops_exit]. *)
Definition ramoops_exit (m : module_state) : module_state :=
  ramoops_unregister_dummy
    (mk_module (globals m) (dummy m) (calls m ++ [Platform_driver_unregister])).

(** The calls about the dummy device. *)
Definition device_call (c : call) : Prop :=
  match c with
  | Platform_device_register_data _ | Platform_device_unregister _ => True
  | _ => False
  end.

(** ** The words of the diagnostic line *)

Module Words.
Import Stdlib.Strings.String.
Local Open Scope string_scope.

Definition corrected_bytes : String.string := " Corrected bytes, ".
Definition unrecoverable_blocks : String.string := " unrecoverable blocks".
Definition no_errors_detected : String.string := "No errors detected".
End Words.

(** The last byte of a sequence (0 when it is empty). *)
Definition last_byte (l : bytes) : Z := List.last l 0.
(** * Properties *)

Lemma wrap_unsigned_small bits x : 0 <= x < 2 ^ bits -> wrap_unsigned bits x = x.
Proof. intros. unfold wrap_unsigned. apply Z.mod_small. done. Qed.

Lemma wrap_signed_small bits x :
  0 < bits -> - 2 ^ (bits - 1) <= x < 2 ^ (bits - 1) -> wrap_signed bits x = x.
Proof.
  intros Hb Hx. unfold wrap_signed.
  assert (2 ^ bits = 2 * 2 ^ (bits - 1)) as ->.
  { rewrite <- Z.pow_succ_r by lia. f_equal. lia. }
  rewrite Z.mod_small by lia. lia.
Qed.

Lemma u32_small x : 0 <= x < 2 ^ 32 -> u32 x = x.
Proof. apply wrap_unsigned_small. Qed.

Lemma s32_small x : - 2 ^ 31 <= x < 2 ^ 31 -> s32 x = x.
Proof. intros. apply wrap_signed_small; [lia | done]. Qed.

Lemma usize_small a x : 0 <= x < 2 ^ 32 -> usize a x = x.
Proof.
  intros. apply wrap_unsigned_small. destruct a; simpl; lia.
Qed.

Lemma ssize_small a x : - 2 ^ 31 <= x < 2 ^ 31 -> ssize a x = x.
Proof.
  intros. apply wrap_signed_small; destruct a; simpl; lia.
Qed.

Lemma block_align e x :
  ecc_params_ok e -> 0 <= x ->
  Z.land x (Z.lnot (ECC_BLOCK_SIZE e - 1)) = x / ECC_BLOCK_SIZE e * ECC_BLOCK_SIZE e.
Proof.
  intros (HE & HB & _ & Hpow) Hx.
  pose proof (Z.log2_nonneg (ECC_BLOCK_SIZE e)) as Hk.
  replace (ECC_BLOCK_SIZE e - 1) with (Z.ones (Z.log2 (ECC_BLOCK_SIZE e)))
    by (rewrite Z.ones_equiv; lia).
  rewrite <- Z.ldiff_land, Z.ldiff_ones_r by lia.
  rewrite Z.shiftl_mul_pow2, Z.shiftr_div_pow2 by lia.
  rewrite <- Hpow. done.
Qed.
(** ** Byte memory *)

Lemma result_bind_ok {A B} (m : result A) (f : A -> result B) b :
  m ≫= f = Ok b -> exists a, m = Ok a /\ f a = Ok b.
Proof. destruct m; simpl; [eauto | done | done]. Qed.

Lemma len_nonneg (m : bytes) : 0 <= len m.
Proof. unfold len. lia. Qed.

Lemma len_app (l k : bytes) : len (l ++ k) = len l + len k.
Proof. unfold len. rewrite length_app. lia. Qed.

Lemma len_take (n : Z) (l : bytes) :
  0 <= n <= len l -> len (take (Z.to_nat n) l) = n.
Proof. unfold len. intros. rewrite length_take. lia. Qed.

Lemma len_drop (n : Z) (l : bytes) :
  0 <= n <= len l -> len (drop (Z.to_nat n) l) = len l - n.
Proof. unfold len. intros. rewrite length_drop. lia. Qed.

Lemma mem_read_ok m off n :
  0 <= off -> 0 <= n -> off + n <= len m ->
  mem_read m off n = Ok (take (Z.to_nat n) (drop (Z.to_nat off) m)).
Proof. intros. unfold mem_read. rewrite bool_decide_eq_true_2; done. Qed.

Lemma mem_read_len m off n v : mem_read m off n = Ok v -> len v = n.
Proof.
  unfold mem_read. case_bool_decide as H; [|done]. intros [= <-].
  unfold len in *. rewrite length_take, length_drop. lia.
Qed.

Lemma mem_write_ok m off v :
  0 <= off -> off + len v <= len m ->
  mem_write m off v
  = Ok (take (Z.to_nat off) m ++ v ++ drop (Z.to_nat off + length v) m).
Proof. intros. unfold mem_write. rewrite bool_decide_eq_true_2; done. Qed.

Lemma same_except_refl P m : same_except P m m.
Proof. split; done. Qed.

Lemma same_except_weaken (P Q : Z -> Prop) m m' :
  (forall i, 0 <= i -> P i -> Q i) -> same_except P m m' -> same_except Q m m'.
Proof. intros HPQ [Hl Hs]. split; [done|]. intros i Hi HQ. apply Hs; auto. Qed.

Lemma same_except_trans (P Q : Z -> Prop) m1 m2 m3 :
  same_except P m1 m2 -> same_except Q m2 m3 ->
  same_except (fun i => P i \/ Q i) m1 m3.
Proof.
  intros [Hl1 Hs1] [Hl2 Hs2]. split; [congruence|].
  intros i Hi Hn. rewrite Hs2, Hs1; tauto.
Qed.

Lemma mem_write_same_except m off v m' :
  mem_write m off v = Ok m' ->
  same_except (fun i => off <= i < off + len v) m m'.
Proof.
  unfold mem_write. case_bool_decide as H; [|done]. intros [= <-].
  unfold same_except, len in *. split.
  - rewrite !length_app, length_take, length_drop. lia.
  - intros i Hi Hout.
    destruct (decide (i < off)).
    + rewrite lookup_app_l by (rewrite length_take; lia).
      apply lookup_take_lt. lia.
    + rewrite lookup_app_r by (rewrite length_take; lia).
      rewrite lookup_app_r by (rewrite length_take; lia).
      rewrite lookup_drop, length_take. f_equal. lia.
Qed.

Lemma mem_write_len m off v m' : mem_write m off v = Ok m' -> len m' = len m.
Proof. intros H. apply mem_write_same_except in H. apply H. Qed.

(** Two memories that agree below [n] have the same first [n] bytes. *)
Lemma same_except_take (P : Z -> Prop) m m' n :
  same_except P m m' -> (forall i, P i -> n <= i) ->
  take (Z.to_nat n) m' = take (Z.to_nat n) m.
Proof.
  intros [Hl Hs] HP. apply list_eq. intros i.
  destruct (decide (i < Z.to_nat n)%nat).
  - rewrite !lookup_take_lt by done.
    rewrite <- (Nat2Z.id i). apply Hs; [lia|]. intros HPi. apply HP in HPi. lia.
  - rewrite !lookup_take_ge by lia. done.
Qed.

Lemma same_except_sub (P : Z -> Prop) m m' a n :
  same_except P m m' -> 0 <= a ->
  (forall i, a <= i < a + n -> ~ P i) ->
  take (Z.to_nat n) (drop (Z.to_nat a) m')
  = take (Z.to_nat n) (drop (Z.to_nat a) m).
Proof.
  intros [Hl Hs] Ha Hout. apply list_eq. intros i.
  destruct (decide (i < Z.to_nat n)%nat).
  - rewrite !lookup_take_lt, !lookup_drop by done.
    replace (Z.to_nat a + i)%nat with (Z.to_nat (a + Z.of_nat i)) by lia.
    apply Hs; [lia|]. apply Hout. lia.
  - rewrite !lookup_take_ge by lia. done.
Qed.

Lemma mem_write_read m off v m' :
  mem_write m off v = Ok m' ->
  take (length v) (drop (Z.to_nat off) m') = v.
Proof.
  unfold mem_write. case_bool_decide as H; [|done]. intros [= <-].
  unfold len in *.
  rewrite drop_app_length' by (rewrite length_take; lia).
  by rewrite take_app_length.
Qed.

(** ** The parity loop of [ram_console_update] *)

Lemma bind_Ok {A B} (a : A) (f : A -> result B) : Ok a ≫= f = f a.
Proof. done. Qed.

Section Update.
Context (cfg : config) (rs : rs_codec).

Lemma len_encode e d :
  0 <= ECC_SIZE e -> len (ram_console_encode_rs8 rs e d) = ECC_SIZE e.
Proof.
  intros. unfold len, ram_console_encode_rs8.
  rewrite length_map, length_seq. lia.
Qed.

Lemma block_below_table e bsz k :
  0 < ECC_BLOCK_SIZE e -> 0 < ECC_SIZE e -> k * ECC_BLOCK_SIZE e <= bsz ->
  (k + 1) * ECC_SIZE e <= parity_table_size e bsz.
Proof.
  intros HB HE Hk. unfold parity_table_size.
  assert (k <= (bsz + ECC_BLOCK_SIZE e - 1) / ECC_BLOCK_SIZE e).
  { apply Z.div_le_lower_bound; lia. }
  nia.
Qed.

Lemma update_blocks_ok e bsz lim fuel : forall k m,
  ecc_params_ok e -> 0 <= bsz <= INT_MAX -> lim <= bsz ->
  0 <= k -> k * ECC_BLOCK_SIZE e <= bsz ->
  bsz + parity_table_size e bsz <= len m ->
  lim <= (k + Z.of_nat fuel) * ECC_BLOCK_SIZE e -> (0 < fuel)%nat ->
  exists m',
    update_blocks cfg rs e fuel bsz lim m (k * ECC_BLOCK_SIZE e)
      (bsz + k * ECC_SIZE e) (ECC_BLOCK_SIZE e) = Ok m'
    /\ same_except
         (fun i => exists k', encoded_block e k lim k' /\ in_slot e bsz k' i) m m'.
Proof.
  induction fuel as [|fuel IH]; intros k m Hok Hbsz Hlim Hk HkB Hm Hfuel Hpos; [lia|].
  pose proof Hok as (HE & HEB & H255 & _).
  unfold INT_MAX in *. simpl update_blocks.
  assert (0 <= k * ECC_BLOCK_SIZE e) as HkB0 by nia.
  assert (0 <= k * ECC_SIZE e) as HkE0 by nia.
  set (size := if bool_decide (k * ECC_BLOCK_SIZE e + ECC_BLOCK_SIZE e > bsz)
               then s32 (bsz - k * ECC_BLOCK_SIZE e) else ECC_BLOCK_SIZE e).
  assert (0 <= size <= ECC_BLOCK_SIZE e /\ k * ECC_BLOCK_SIZE e + size <= bsz
          /\ (k * ECC_BLOCK_SIZE e + ECC_BLOCK_SIZE e <= bsz -> size = ECC_BLOCK_SIZE e))
    as (Hsz & Hin & Hfull).
  { unfold size. case_bool_decide; [rewrite s32_small by lia|]; lia. }
  clearbody size.
  pose proof (block_below_table e bsz k ltac:(lia) HE HkB) as Hslot.
  rewrite usize_small by lia.
  rewrite mem_read_ok by lia. simpl.
  set (d := take (Z.to_nat size) (drop (Z.to_nat (k * ECC_BLOCK_SIZE e)) m)).
  destruct (mem_write m (bsz + k * ECC_SIZE e) (ram_console_encode_rs8 rs e d))
    as [m'| |] eqn:Hw;
    [|unfold mem_write in Hw; rewrite len_encode in Hw by lia;
      rewrite bool_decide_eq_true_2 in Hw by lia; done..].
  simpl. pose proof (mem_write_same_except _ _ _ _ Hw) as Hsame.
  rewrite len_encode in Hsame by lia.
  assert (same_except (in_slot e bsz k) m m') as Hsame'.
  { eapply same_except_weaken; [|exact Hsame]. unfold in_slot. intros; lia. }
  case_bool_decide as Hmore.
  - replace (k * ECC_BLOCK_SIZE e + ECC_BLOCK_SIZE e)
      with ((k + 1) * ECC_BLOCK_SIZE e) by lia.
    replace (bsz + k * ECC_SIZE e + ECC_SIZE e)
      with (bsz + (k + 1) * ECC_SIZE e) by lia.
    rewrite Hfull by lia.
    destruct (IH (k + 1) m') as (m'' & Hrun & Hsame''); try lia; try done.
    { destruct Hsame as [-> _]. done. }
    exists m''. split; [done|].
    eapply same_except_weaken; [|exact (same_except_trans _ _ _ _ _ Hsame' Hsame'')].
    intros i Hi [Hs|(k' & (Hk1 & Hk2) & Hs)].
    + exists k. split; [split; lia | done].
    + exists k'. split; [split; lia | done].
  - exists m'. split; [done|].
    eapply same_except_weaken; [|exact Hsame'].
    intros i Hi Hs. exists k. split; [split; lia | done].
Qed.

(** Freshness of a block's parity depends on the block and on its
    segment only. *)
Lemma parity_fresh_same_except (P : Z -> Prop) e bsz m m' k :
  same_except P m m' -> ecc_params_ok e -> 0 <= k -> 0 <= bsz ->
  (forall i, k * ECC_BLOCK_SIZE e <= i < k * ECC_BLOCK_SIZE e + block_len e bsz k ->
     ~ P i) ->
  (forall i, in_slot e bsz k i -> ~ P i) ->
  parity_fresh rs e bsz m k -> parity_fresh rs e bsz m' k.
Proof.
  intros Hsame (HE & HEB & _) Hk Hbsz Hblock Hslot. unfold parity_fresh.
  unfold slot_bytes, block_data.
  rewrite (same_except_sub P m m' (bsz + k * ECC_SIZE e) (ECC_SIZE e)); try done.
  - rewrite (same_except_sub P m m' (k * ECC_BLOCK_SIZE e) (block_len e bsz k));
      try done. nia.
  - nia.
  - intros i Hi. apply Hslot. unfold in_slot. lia.
Qed.

Lemma update_blocks_fresh e bsz lim fuel : forall k m m',
  ecc_params_ok e -> 0 <= bsz <= INT_MAX -> lim <= bsz ->
  0 <= k -> k * ECC_BLOCK_SIZE e <= bsz ->
  bsz + parity_table_size e bsz <= len m ->
  lim <= (k + Z.of_nat fuel) * ECC_BLOCK_SIZE e -> (0 < fuel)%nat ->
  update_blocks cfg rs e fuel bsz lim m (k * ECC_BLOCK_SIZE e)
    (bsz + k * ECC_SIZE e) (ECC_BLOCK_SIZE e) = Ok m' ->
  forall k', encoded_block e k lim k' -> parity_fresh rs e bsz m' k'.
Proof.
  unfold INT_MAX.
  induction fuel as [|fuel IH]; intros k m m' Hok Hbsz Hlim Hk HkB Hm Hfuel Hpos;
    [lia|].
  pose proof Hok as (HE & HEB & H255 & _). simpl update_blocks.
  assert (0 <= k * ECC_BLOCK_SIZE e) as HkB0 by nia.
  assert (0 <= k * ECC_SIZE e) as HkE0 by nia.
  set (size := if bool_decide (k * ECC_BLOCK_SIZE e + ECC_BLOCK_SIZE e > bsz)
               then s32 (bsz - k * ECC_BLOCK_SIZE e) else ECC_BLOCK_SIZE e).
  assert (size = block_len e bsz k) as Hsize.
  { unfold size, block_len. case_bool_decide; [rewrite s32_small by lia|]; lia. }
  assert (0 <= size <= ECC_BLOCK_SIZE e /\ k * ECC_BLOCK_SIZE e + size <= bsz
          /\ (k * ECC_BLOCK_SIZE e + ECC_BLOCK_SIZE e <= bsz -> size = ECC_BLOCK_SIZE e))
    as (Hsz & Hin & Hfull) by (unfold block_len in Hsize; lia).
  clearbody size.
  pose proof (block_below_table e bsz k ltac:(lia) HE HkB) as Hslot.
  rewrite usize_small by lia.
  rewrite mem_read_ok by lia. simpl.
  set (d := take (Z.to_nat size) (drop (Z.to_nat (k * ECC_BLOCK_SIZE e)) m)).
  destruct (mem_write m (bsz + k * ECC_SIZE e) (ram_console_encode_rs8 rs e d))
    as [m1| |] eqn:Hw; simpl; [|done..].
  pose proof (mem_write_same_except _ _ _ _ Hw) as Hsame1.
  rewrite len_encode in Hsame1 by lia.
  assert (parity_fresh rs e bsz m1 k) as Hfresh1.
  { unfold parity_fresh, slot_bytes, block_data. rewrite <- Hsize.
    rewrite (same_except_sub _ m m1 (k * ECC_BLOCK_SIZE e) size Hsame1)
      by (intros; lia).
    fold d. apply mem_write_read in Hw.
    unfold ram_console_encode_rs8 in Hw at 1.
    rewrite length_map, length_seq in Hw. done. }
  case_bool_decide as Hmore.
  - replace (k * ECC_BLOCK_SIZE e + ECC_BLOCK_SIZE e)
      with ((k + 1) * ECC_BLOCK_SIZE e) by lia.
    replace (bsz + k * ECC_SIZE e + ECC_SIZE e)
      with (bsz + (k + 1) * ECC_SIZE e) by lia.
    rewrite Hfull by lia. intros Hrun k' [Hk0 Hk'].
    assert (bsz + parity_table_size e bsz <= len m1) as Hm1
      by (destruct Hsame1 as [-> _]; done).
    destruct (decide (k' = k)) as [->|Hne].
    + assert (0 < fuel)%nat as Hfuel' by nia.
      destruct (update_blocks_ok e bsz lim fuel (k + 1) m1)
        as (m'' & Hrun' & Hsame2); try done; try lia.
      rewrite Hrun in Hrun'. injection Hrun' as <-.
      eapply parity_fresh_same_except; [exact Hsame2|done|lia|lia| | |done].
      * intros i Hi (k'' & [Hge _] & Hs). unfold in_slot, block_len in *. nia.
      * intros i Hi (k'' & [Hge _] & Hs). unfold in_slot in *. nia.
    + assert (0 < fuel)%nat as Hfuel' by nia.
      apply (IH (k + 1) m1 m'); try done; try lia.
      split; lia.
  - intros [= <-] k' [Hk0 Hk'].
    assert (k' = k) as -> by nia. done.
Qed.
Lemma parity_table_size_nonneg e bsz :
  ecc_params_ok e -> 0 <= bsz -> 0 <= parity_table_size e bsz.
Proof.
  intros (HE & HEB & _) Hb.
  pose proof (block_below_table e bsz 0 ltac:(lia) HE ltac:(lia)). lia.
Qed.

Lemma layout_ok_len st :
  layout_ok cfg st ->
  0 <= ram_console_buffer_size st <= len (Buffer.data (buf st)).
Proof.
  intros [Hb Hl]. split; [lia|]. destruct (ecc cfg) as [e|]; [|done].
  destruct Hl as (Hok & _ & Hl).
  pose proof (parity_table_size_nonneg e (ram_console_buffer_size st) Hok ltac:(lia)). lia.
Qed.

(** Storing [v] at offset [a] inside the first [n] bytes of [d]. *)
Lemma splice_take (d v : bytes) (a n : nat) :
  (a + length v <= n)%nat -> (n <= length d)%nat ->
  take n (take a d ++ v ++ drop (a + length v) d)
  = take a (take n d) ++ v ++ drop (a + length v) (take n d).
Proof.
  intros Ha Hn.
  rewrite take_take, Nat.min_l by lia.
  rewrite (app_assoc (take a d)).
  replace n with ((a + length v) + (n - (a + length v)))%nat at 1 by lia.
  rewrite take_app_add' by (rewrite length_app, length_take; lia).
  rewrite <- app_assoc. do 2 f_equal.
  rewrite take_drop_commute. do 2 f_equal. lia.
Qed.

Lemma ram_console_update_ok st s count :
  layout_ok cfg st ->
  0 <= Buffer.start (buf st) -> 0 <= count ->
  Buffer.start (buf st) + count <= ram_console_buffer_size st ->
  count <= len s ->
  exists d',
    ram_console_update cfg rs st s count = Ok (set_buf st (set_data (buf st) d'))
    /\ same_except (update_footprint cfg st count) (Buffer.data (buf st)) d'
    /\ take (Z.to_nat (ram_console_buffer_size st)) d'
       = take (Z.to_nat (Buffer.start (buf st))) (log_area st)
         ++ take (Z.to_nat count) s
         ++ drop (Z.to_nat (Buffer.start (buf st) + count)) (log_area st).
Proof.
  intros Hlay Hs Hc Hfit Hsrc.
  pose proof (layout_ok_len st Hlay) as Hlen.
  destruct Hlay as [Hb Hl]. unfold INT_MAX in *.
  unfold ram_console_update, memcpy, update_footprint.
  rewrite mem_read_ok by lia. rewrite bind_Ok, drop_0.
  set (src := take (Z.to_nat count) s).
  assert (len src = count) as Hsrclen by (apply len_take; lia).
  destruct (mem_write (Buffer.data (buf st)) (Buffer.start (buf st)) src)
    as [d1| |] eqn:Hw;
    [|unfold mem_write in Hw; rewrite bool_decide_eq_true_2 in Hw by lia; done..].
  rewrite bind_Ok. pose proof (mem_write_same_except _ _ _ _ Hw) as Hsame1.
  rewrite Hsrclen in Hsame1.
  assert (take (Z.to_nat (ram_console_buffer_size st)) d1
          = take (Z.to_nat (Buffer.start (buf st))) (log_area st) ++ src
            ++ drop (Z.to_nat (Buffer.start (buf st) + count)) (log_area st)) as Harea.
  { rewrite mem_write_ok in Hw by lia. injection Hw as <-.
    unfold log_area. unfold len in *.
    rewrite splice_take by lia.
    do 3 f_equal. lia. }
  destruct (ecc cfg) as [e|].
  - destruct Hl as (Hok & Hpar & Hl). pose proof Hok as (HE & HEB & H255 & _).
    set (k := Buffer.start (buf st) / ECC_BLOCK_SIZE e).
    assert (0 <= k) by (apply Z.div_pos; lia).
    assert (k * ECC_BLOCK_SIZE e <= Buffer.start (buf st)
            < (k + 1) * ECC_BLOCK_SIZE e) as Hkb.
    { pose proof (Z.div_mod (Buffer.start (buf st)) (ECC_BLOCK_SIZE e) ltac:(lia)).
      pose proof (Z.mod_pos_bound (Buffer.start (buf st)) (ECC_BLOCK_SIZE e) ltac:(lia)).
      unfold k. nia. }
    rewrite block_align by done. fold k.
    assert (0 <= k * ECC_BLOCK_SIZE e) by nia.
    assert (0 <= k * ECC_SIZE e <= k * ECC_BLOCK_SIZE e) by nia.
    rewrite (u32_small (k * ECC_BLOCK_SIZE e)) by lia.
    rewrite (u32_small k) by nia.
    rewrite (u32_small (k * ECC_SIZE e)) by lia.
    rewrite Hpar.
    destruct (update_blocks_ok e (ram_console_buffer_size st)
                (Buffer.start (buf st) + count) (S (Z.to_nat count)) k d1)
      as (d' & Hrun & Hsame2); try done; try lia.
    { destruct Hsame1 as [-> _]. lia. }
    { nia. }
    rewrite Hrun, bind_Ok. exists d'. split; [done|]. split.
    + eapply same_except_weaken;
        [|exact (same_except_trans _ _ _ _ _ Hsame1 Hsame2)].
      intros i Hi [?|(k' & ? & ?)]; [by left|right; by exists k'].
    + rewrite <- Harea. eapply same_except_take; [exact Hsame2|].
      intros i (k' & [Hk' _] & Hslot). unfold in_slot in Hslot. nia.
  - exists d1. split; [done|]. split; [|done].
    eapply same_except_weaken; [|exact Hsame1]. intros; by left.
Qed.
(** After [ram_console_update], the parity of every block its loop
    encoded is that of the block as it now is. *)
Lemma ram_console_update_fresh e st s count d' :
  ecc cfg = Some e -> layout_ok cfg st ->
  0 <= Buffer.start (buf st) -> 0 <= count ->
  Buffer.start (buf st) + count <= ram_console_buffer_size st ->
  count <= len s ->
  ram_console_update cfg rs st s count = Ok (set_buf st (set_data (buf st) d')) ->
  forall k,
    encoded_block e (Buffer.start (buf st) / ECC_BLOCK_SIZE e)
      (Buffer.start (buf st) + count) k ->
    parity_fresh rs e (ram_console_buffer_size st) d' k.
Proof.
  intros Hecc Hlay Hs Hc Hfit Hsrc Hrun.
  pose proof (layout_ok_len st Hlay) as Hlen.
  destruct Hlay as [Hb Hl]. unfold INT_MAX in *. rewrite Hecc in Hl.
  destruct Hl as (Hok & Hpar & Hl). pose proof Hok as (HE & HEB & H255 & _).
  unfold ram_console_update in Hrun. rewrite Hecc in Hrun.
  apply result_bind_ok in Hrun as (d1 & Hcopy & Hrun).
  apply result_bind_ok in Hrun as (d2 & Hrun & Heq).
  injection Heq as ->.
  unfold memcpy in Hcopy. apply result_bind_ok in Hcopy as (src & _ & Hw).
  apply mem_write_len in Hw.
  set (k := Buffer.start (buf st) / ECC_BLOCK_SIZE e) in *.
  assert (0 <= k) by (apply Z.div_pos; lia).
  assert (k * ECC_BLOCK_SIZE e <= Buffer.start (buf st)
          < (k + 1) * ECC_BLOCK_SIZE e) as Hkb.
  { pose proof (Z.div_mod (Buffer.start (buf st)) (ECC_BLOCK_SIZE e) ltac:(lia)).
    pose proof (Z.mod_pos_bound (Buffer.start (buf st)) (ECC_BLOCK_SIZE e) ltac:(lia)).
    unfold k. nia. }
  rewrite block_align in Hrun by done. fold k in Hrun.
  assert (0 <= k * ECC_BLOCK_SIZE e) by nia.
  assert (0 <= k * ECC_SIZE e <= k * ECC_BLOCK_SIZE e) by nia.
  rewrite (u32_small (k * ECC_BLOCK_SIZE e)) in Hrun by lia.
  rewrite (u32_small k) in Hrun by nia.
  rewrite (u32_small (k * ECC_SIZE e)) in Hrun by lia.
  rewrite Hpar in Hrun.
  apply (update_blocks_fresh e (ram_console_buffer_size st)
           (Buffer.start (buf st) + count) (S (Z.to_nat count)) k d1 d');
    try done; try (unfold INT_MAX; lia); nia.
Qed.
End Update.

(** ** [ram_console_update_header] and [ram_console_write] *)

Section Write.
Context (cfg : config) (rs : rs_codec).

Lemma set_buf_id st : set_buf st (set_data (buf st) (Buffer.data (buf st))) = st.
Proof. destruct st as [[] ?]. done. Qed.

Lemma ram_console_update_header_ok st :
  layout_ok cfg st ->
  exists d',
    ram_console_update_header cfg rs st = Ok (set_buf st (set_data (buf st) d'))
    /\ same_except
         (fun i => match ecc cfg with
                   | None => False
                   | Some e =>
                       in_slot e (ram_console_buffer_size st)
                         (header_slot e (ram_console_buffer_size st)) i
                   end) (Buffer.data (buf st)) d'
    /\ match ecc cfg with
       | None => True
       | Some e =>
           slot_bytes e (ram_console_buffer_size st) d'
             (header_slot e (ram_console_buffer_size st))
           = ram_console_encode_rs8 rs e (header_bytes (buf st))
       end.
Proof.
  intros [Hb Hl]. unfold INT_MAX in *. unfold ram_console_update_header.
  destruct (ecc cfg) as [e|].
  - destruct Hl as (Hok & Hpar & Hl). pose proof Hok as (HE & HEB & H255 & _).
    unfold DIV_ROUND_UP. rewrite (usize_small _ (_ + _ - 1)) by lia.
    fold (header_slot e (ram_console_buffer_size st)).
    set (hk := header_slot e (ram_console_buffer_size st)).
    assert (0 <= hk /\ hk * ECC_BLOCK_SIZE e
                       <= ram_console_buffer_size st + ECC_BLOCK_SIZE e - 1)
      as [Hhk0 Hhk].
    { unfold hk, header_slot. split; [apply Z.div_pos; lia|].
      rewrite Z.mul_comm. apply Z.mul_div_le. lia. }
    assert (0 <= hk * ECC_SIZE e <= hk * ECC_BLOCK_SIZE e) by nia.
    rewrite usize_small by lia. rewrite Hpar.
    assert ((hk + 1) * ECC_SIZE e
            = parity_table_size e (ram_console_buffer_size st)) as Htab by done.
    destruct (mem_write (Buffer.data (buf st))
                (ram_console_buffer_size st + hk * ECC_SIZE e)
                (ram_console_encode_rs8 rs e (header_bytes (buf st))))
      as [d'| |] eqn:Hw;
      [|unfold mem_write in Hw; rewrite len_encode in Hw by lia;
        rewrite bool_decide_eq_true_2 in Hw by lia; done..].
    rewrite bind_Ok. exists d'. split; [done|]. split.
    + apply mem_write_same_except in Hw. rewrite len_encode in Hw by lia.
      eapply same_except_weaken; [|exact Hw]. unfold in_slot. intros; lia.
    + apply mem_write_read in Hw. unfold slot_bytes. fold hk.
      unfold ram_console_encode_rs8 in Hw at 1.
      rewrite length_map, length_seq in Hw. done.
  - exists (Buffer.data (buf st)). rewrite set_buf_id.
    split; [done|]. split; [apply same_except_refl | done].
Qed.

(** The footprints of the calls of [ram_console_update] lie in the
    footprint of the write. *)
Lemma block_start_written e st n k lim :
  0 < ECC_BLOCK_SIZE e ->
  Buffer.start (buf st) / ECC_BLOCK_SIZE e < k ->
  k * ECC_BLOCK_SIZE e < lim ->
  lim <= Z.min (Buffer.start (buf st) + n) (ram_console_buffer_size st) ->
  block_written e st n k.
Proof.
  intros HB Hk Hlim Hle. exists (k * ECC_BLOCK_SIZE e). split.
  - left. split; [|lia].
    pose proof (Z.div_mod (Buffer.start (buf st)) (ECC_BLOCK_SIZE e) ltac:(lia)).
    pose proof (Z.mod_pos_bound (Buffer.start (buf st)) (ECC_BLOCK_SIZE e) ltac:(lia)).
    nia.
  - apply Z.div_mul. lia.
Qed.

Lemma footprint_nowrap st n i :
  layout_ok cfg st ->
  Buffer.start (buf st) + n <= ram_console_buffer_size st ->
  update_footprint cfg st n i -> write_footprint cfg st n i.
Proof.
  intros [_ Hl] Hfit [Hr|He]; [left; left; lia|]. right.
  destruct (ecc cfg) as [e|]; [|done].
  destruct Hl as ((HE & HEB & _) & _). destruct He as (k & [Hk0 Hk] & Hslot).
  exists k. split; [|done]. right.
  destruct (decide (k = Buffer.start (buf st) / ECC_BLOCK_SIZE e)) as [->|Hne];
    [by left|right].
  apply (block_start_written e st n k (Buffer.start (buf st) + n)); lia.
Qed.

Lemma footprint_wrap_first st n i :
  layout_ok cfg st ->
  ram_console_buffer_size st < Buffer.start (buf st) + n ->
  update_footprint cfg st (ram_console_buffer_size st - Buffer.start (buf st)) i ->
  write_footprint cfg st n i.
Proof.
  intros [_ Hl] Hfit [Hr|He]; [left; left; lia|]. right.
  destruct (ecc cfg) as [e|]; [|done].
  destruct Hl as ((HE & HEB & _) & _). destruct He as (k & [Hk0 Hk] & Hslot).
  exists k. split; [|done]. right.
  destruct (decide (k = Buffer.start (buf st) / ECC_BLOCK_SIZE e)) as [->|Hne];
    [by left|right].
  apply (block_start_written e st n k (ram_console_buffer_size st)); lia.
Qed.

Lemma footprint_wrap_second st st2 n i :
  layout_ok cfg st ->
  Buffer.start (buf st2) = 0 ->
  ram_console_buffer_size st2 = ram_console_buffer_size st ->
  ram_console_buffer_size st < Buffer.start (buf st) + n ->
  update_footprint cfg st2
    (Buffer.start (buf st) + n - ram_console_buffer_size st) i ->
  write_footprint cfg st n i.
Proof.
  intros [_ Hl] H0 Hbsz Hst. unfold update_footprint. rewrite H0, Hbsz.
  intros [Hr|He]; [left; right; lia|]. right.
  destruct (ecc cfg) as [e|]; [|done].
  destruct Hl as ((HE & HEB & _) & _). destruct He as (k & [Hk0 Hk] & Hslot).
  rewrite Z.div_0_l in Hk0, Hk by lia.
  exists k. split; [|done]. right. right.
  exists (k * ECC_BLOCK_SIZE e). split; [|apply Z.div_mul; lia].
  right. destruct Hk as [->|Hk]; [lia|nia].
Qed.

Lemma set_buf_set_buf st b1 b2 : set_buf (set_buf st b1) b2 = set_buf st b2.
Proof. done. Qed.

Lemma layout_ok_set_buf st b :
  layout_ok cfg st -> len (Buffer.data b) = len (Buffer.data (buf st)) ->
  layout_ok cfg (set_buf st b).
Proof. unfold layout_ok. simpl. intros H ->. done. Qed.

Lemma header_slot_above st i :
  layout_ok cfg st ->
  match ecc cfg with
  | None => False
  | Some e =>
      in_slot e (ram_console_buffer_size st)
        (header_slot e (ram_console_buffer_size st)) i
  end -> ram_console_buffer_size st <= i.
Proof.
  intros [Hb Hl]. unfold INT_MAX in *. destruct (ecc cfg) as [e|]; [|done].
  destruct Hl as ((HE & HEB & _) & _).
  assert (0 <= header_slot e (ram_console_buffer_size st))
    by (apply Z.div_pos; lia).
  unfold in_slot. nia.
Qed.

(** The header update and the front part of a wrapping write leave the
    parity of the blocks they do not reach as fresh as it was. *)
Lemma fresh_after_header e st d d' k :
  ecc cfg = Some e -> layout_ok cfg st ->
  same_except
    (fun i => match ecc cfg with
              | None => False
              | Some e =>
                  in_slot e (ram_console_buffer_size st)
                    (header_slot e (ram_console_buffer_size st)) i
              end) d d' ->
  0 <= k -> k * ECC_BLOCK_SIZE e < ram_console_buffer_size st ->
  parity_fresh rs e (ram_console_buffer_size st) d k ->
  parity_fresh rs e (ram_console_buffer_size st) d' k.
Proof.
  intros Hecc [Hb Hl] Hsame Hk HkB. rewrite Hecc in Hsame, Hl.
  destruct Hl as (Hok & _). pose proof Hok as (HE & HEB & _).
  assert (k + 1 <= header_slot e (ram_console_buffer_size st)) as Hh.
  { apply Z.div_le_lower_bound; lia. }
  apply (parity_fresh_same_except rs _ e _ d d' k Hsame Hok Hk); [lia| |].
  - intros i Hi. unfold in_slot, block_len in *. nia.
  - intros i Hi. unfold in_slot in *. nia.
Qed.

Lemma fresh_after_front e st d d' c k :
  ecc cfg = Some e -> layout_ok cfg st -> Buffer.start (buf st) = 0 ->
  0 <= c <= ram_console_buffer_size st ->
  same_except (update_footprint cfg st c) d d' ->
  1 <= k -> c <= k * ECC_BLOCK_SIZE e ->
  k * ECC_BLOCK_SIZE e < ram_console_buffer_size st ->
  parity_fresh rs e (ram_console_buffer_size st) d k ->
  parity_fresh rs e (ram_console_buffer_size st) d' k.
Proof.
  intros Hecc [Hb Hl] H0 Hc Hsame Hk HkB Hlt.
  unfold update_footprint in Hsame. rewrite Hecc, H0 in Hsame. rewrite Hecc in Hl.
  destruct Hl as (Hok & _). pose proof Hok as (HE & HEB & _).
  rewrite Z.div_0_l in Hsame by lia.
  apply (parity_fresh_same_except rs _ e _ d d' k Hsame Hok); [lia|lia| |].
  - intros i Hi [?|(k' & [Hk0 Hk'] & Hs)]; unfold in_slot, block_len in *.
    + lia.
    + assert (0 <= k' * ECC_SIZE e) by nia. lia.
  - intros i Hi [?|(k' & [Hk0 Hk'] & Hs)]; unfold in_slot in *.
    + nia.
    + assert (k' = k) as -> by nia. destruct Hk' as [?|?]; lia.
Qed.

(** The block of a written position of the first range is encoded by
    the loop that starts at [start]. *)
Lemma written_block_encoded e st n k lim :
  0 < ECC_BLOCK_SIZE e -> 0 <= Buffer.start (buf st) ->
  Buffer.start (buf st) + n - ram_console_buffer_size st <= k * ECC_BLOCK_SIZE e ->
  Z.min (Buffer.start (buf st) + n) (ram_console_buffer_size st) <= lim ->
  k = Buffer.start (buf st) / ECC_BLOCK_SIZE e \/ block_written e st n k ->
  encoded_block e (Buffer.start (buf st) / ECC_BLOCK_SIZE e) lim k.
Proof.
  intros HB Hst Hfront Hlim [->|(p & Hp & <-)]; [split; [lia|by left]|].
  pose proof (Z.mul_div_le p (ECC_BLOCK_SIZE e) HB) as Hle.
  destruct Hp as [Hp|Hp]; [|lia].
  split; [apply Z.div_le_mono; lia|]. right. lia.
Qed.

(** What one call of [ram_console_write] does to a live console. *)
Lemma ram_console_write_spec st s :
  live_inv cfg st -> len s < 2 ^ 32 ->
  let bsz := ram_console_buffer_size st in
  let start := Buffer.start (buf st) in
  let m := Z.min (len s) bsz in
  let s' := drop (Z.to_nat (len s - m)) s in
  exists d',
    ram_console_write cfg rs st s (len s)
    = Ok (set_buf st
            (Buffer.mk (Buffer.sig (buf st))
               (if bool_decide (bsz < start + m) then start + m - bsz else start + m)
               (Z.min (Buffer.size (buf st) + len s) bsz) d'))
    /\ same_except (write_footprint cfg st m) (Buffer.data (buf st)) d'
    /\ take (Z.to_nat bsz) d'
       = (if bool_decide (bsz < start + m)
          then drop (Z.to_nat (bsz - start)) s'
               ++ drop (Z.to_nat (start + m - bsz)) (take (Z.to_nat start) (log_area st))
               ++ take (Z.to_nat (bsz - start)) s'
          else take (Z.to_nat start) (log_area st) ++ s'
               ++ drop (Z.to_nat (start + m)) (log_area st))
    /\ match ecc cfg with
       | None => True
       | Some e =>
           (forall k,
              k * ECC_BLOCK_SIZE e < bsz ->
              k = start / ECC_BLOCK_SIZE e \/ block_written e st m k ->
              parity_fresh rs e bsz d' k)
           /\ slot_bytes e bsz d' (header_slot e bsz)
              = ram_console_encode_rs8 rs e
                  (le32 (Buffer.sig (buf st))
                   ++ le32 (if bool_decide (bsz < start + m)
                            then start + m - bsz else start + m)
                   ++ le32 (Z.min (Buffer.size (buf st) + len s) bsz))
       end.
Proof.
  intros [Hlay [Hst Hsz]] Hn bsz start m s'.
  pose proof (layout_ok_len cfg st Hlay) as Hlen. pose proof Hlay as [Hb _].
  unfold INT_MAX in *. pose proof (len_nonneg s) as Hn0.
  fold bsz start in Hst, Hsz, Hlen, Hb.
  assert (len s' = m) as Hs' by (unfold s'; rewrite len_drop; lia).
  assert (len (log_area st) = bsz) as HD by (apply len_take; lia).
  unfold ram_console_write. fold bsz start.
  assert ((if bool_decide (len s > bsz)
           then (drop (Z.to_nat (len s - bsz)) s, u32 bsz) else (s, len s))
          = (s', m)) as ->.
  { unfold s', m. case_bool_decide.
    - rewrite Z.min_r, u32_small by lia. done.
    - rewrite Z.min_l, Z.sub_diag, drop_0 by lia. done. }
  rewrite (usize_small _ (bsz - start)), (s32_small (bsz - start)),
    (u32_small (bsz - start)) by lia.
  case_bool_decide as Hwrap.
  - (* the write wraps *)
    rewrite (bool_decide_eq_true_2 (bsz < start + m)) by lia.
    destruct (ram_console_update_ok cfg rs st s' (bsz - start))
      as (d1 & Hu1 & Hsame1 & Harea1); try done; try lia.
    rewrite Hu1, !bind_Ok, bool_decide_eq_true_2, !bind_Ok by lia.
    set (st2 := set_buf _ (set_header _ _ 0 (u32 bsz))).
    assert (layout_ok cfg st2) as Hlay2.
    { apply layout_ok_set_buf; [by apply layout_ok_set_buf; destruct Hsame1|].
      simpl. by destruct Hsame1. }
    rewrite (u32_small (m - (bsz - start))) by lia.
    destruct (ram_console_update_ok cfg rs st2 (drop (Z.to_nat (bsz - start)) s')
                (m - (bsz - start)))
      as (d2 & Hu2 & Hsame2 & Harea2); try done; simpl; try lia.
    { rewrite len_drop; lia. }
    rewrite Hu2, bind_Ok. simpl.
    rewrite bool_decide_eq_false_2 by (rewrite u32_small; fold bsz; lia).
    destruct (ram_console_update_header_ok
                (set_buf st (Buffer.mk (Buffer.sig (buf st))
                               (u32 (0 + (m - (bsz - start)))) (u32 bsz) d2)))
      as (d3 & Hu3 & Hsame3 & Hhdr3).
    { apply layout_ok_set_buf; [done|]. simpl.
      destruct Hsame1 as [<- _]. by destruct Hsame2. }
    simpl in Hu3, Hsame3. fold bsz in Hsame3.
    unfold set_header. simpl. unfold st2. rewrite !set_buf_set_buf, Hu3.
    rewrite (u32_small (0 + _)), (u32_small bsz) by lia.
    exists d3. split; [|split; [|split]]; cycle 3.
    { destruct (ecc cfg) as [e|] eqn:Hecc; [|done].
      pose proof Hlay as [_ Hl']. rewrite Hecc in Hl'.
      destruct Hl' as ((HE & HEB & _) & _).
      split.
      - intros k HkB Hk.
        assert (0 <= k).
        { destruct Hk as [->|(p & [Hp|Hp] & <-)]; apply Z.div_pos; lia. }
        apply (fresh_after_header e st d2 d3 k Hecc Hlay); [|done|done|].
        { by rewrite Hecc. }
        destruct (decide (k = 0 \/ k * ECC_BLOCK_SIZE e < m - (bsz - start)))
          as [Hfront|Hback].
        + apply (ram_console_update_fresh cfg rs e st2
                   (drop (Z.to_nat (bsz - start)) s') (m - (bsz - start)) d2 Hecc Hlay2);
            simpl; try done; try lia.
          rewrite len_drop; lia.
        + apply (fresh_after_front e st2 d1 d2 (m - (bsz - start)) k Hecc Hlay2);
            simpl; try done; try lia.
          apply (ram_console_update_fresh cfg rs e st s' (bsz - start) d1 Hecc Hlay);
            try done; try lia.
          apply (written_block_encoded e st m k); try done; lia.
      - simpl in Hhdr3. fold bsz in Hhdr3. rewrite Hhdr3.
        unfold header_bytes. simpl.
        rewrite (u32_small (0 + _)), (u32_small bsz) by lia.
        replace (0 + (m - (bsz - start))) with (start + m - bsz) by lia.
        replace (Z.min (Buffer.size (buf st) + len s) bsz) with bsz by lia.
        done. }
    + unfold set_buf, set_data. simpl. do 3 f_equal; lia.
    + eapply same_except_weaken;
        [|exact (same_except_trans _ _ _ _ _
                   (same_except_trans _ _ _ _ _ Hsame1 Hsame2) Hsame3)].
      intros i Hi [[H1|H2]|H3].
      * apply footprint_wrap_first; [done|lia|done].
      * replace (m - (bsz - start)) with (start + m - bsz) in H2 by lia.
        apply (footprint_wrap_second st st2); [done|done|done|lia|done].
      * right. destruct (ecc cfg) as [e|]; [|done].
        exists (header_slot e bsz). split; [by left|done].
    + assert (take (Z.to_nat bsz) d3 = take (Z.to_nat bsz) d2) as ->.
      { eapply same_except_take; [exact Hsame3|].
        intros i. apply (header_slot_above st i Hlay). }
      simpl in Harea2. fold bsz in Harea2. rewrite Harea2.
      unfold log_area at 1. simpl. fold bsz start in Harea1 |- *.
      rewrite Harea1. unfold len in *.
      rewrite (drop_ge (log_area st)) by lia. rewrite app_nil_r.
      rewrite (take_ge (drop _ s')) by (rewrite length_drop; lia).
      f_equal. rewrite Z.add_0_l.
      rewrite drop_app_le by (rewrite length_take; lia).
      do 2 f_equal. lia.
  - (* the write fits before the end of the log area *)
    rewrite (bool_decide_eq_false_2 (bsz < start + m)) by lia.
    rewrite bind_Ok.
    destruct (ram_console_update_ok cfg rs st s' m)
      as (d1 & Hu1 & Hsame1 & Harea1); try done; try lia.
    rewrite Hu1, bind_Ok. simpl.
    set (size' := if bool_decide (Buffer.size (buf st) < bsz)
                  then u32 (Buffer.size (buf st) + m) else Buffer.size (buf st)).
    assert (size' = Z.min (Buffer.size (buf st) + len s) bsz) as Hsize.
    { unfold size'. case_bool_decide; [rewrite u32_small by lia|]; lia. }
    destruct (ram_console_update_header_ok
                (set_buf st (Buffer.mk (Buffer.sig (buf st))
                               (u32 (start + m)) size' d1)))
      as (d3 & Hu3 & Hsame3 & Hhdr3).
    { apply layout_ok_set_buf; [done|]. simpl. by destruct Hsame1. }
    simpl in Hu3, Hsame3. fold bsz in Hsame3.
    unfold set_header. simpl. fold start bsz size'. rewrite !set_buf_set_buf, Hu3.
    rewrite (u32_small (start + m)), Hsize by lia.
    exists d3. split; [done|split; [|split]]; cycle 2.
    { destruct (ecc cfg) as [e|] eqn:Hecc; [|done].
      pose proof Hlay as [_ Hl']. rewrite Hecc in Hl'.
      destruct Hl' as ((HE & HEB & _) & _).
      split.
      - intros k HkB Hk.
        assert (0 <= k).
        { destruct Hk as [->|(p & [Hp|Hp] & <-)]; apply Z.div_pos; lia. }
        apply (fresh_after_header e st d1 d3 k Hecc Hlay); [|done|done|].
        { by rewrite Hecc. }
        apply (ram_console_update_fresh cfg rs e st s' m d1 Hecc Hlay);
          try done; try lia.
        apply (written_block_encoded e st m k); try done; try lia. nia.
      - simpl in Hhdr3. fold bsz in Hhdr3. rewrite Hhdr3.
        unfold header_bytes. simpl. fold start size'.
        rewrite (u32_small (start + m)), Hsize by lia. done. }
    + eapply same_except_weaken;
        [|exact (same_except_trans _ _ _ _ _ Hsame1 Hsame3)].
      intros i Hi [H1|H3].
      * apply footprint_nowrap; [done|lia|done].
      * right. destruct (ecc cfg) as [e|]; [|done].
        exists (header_slot e bsz). split; [by left|done].
    + assert (take (Z.to_nat bsz) d3 = take (Z.to_nat bsz) d1) as ->.
      { eapply same_except_take; [exact Hsame3|].
        intros i. apply (header_slot_above st i Hlay). }
      fold bsz start in Harea1. rewrite Harea1.
      rewrite (take_ge s') by (unfold len in *; lia). done.
Qed.
End Write.

(** ** The ring *)

Lemma last_bytes_app_short n (x s : bytes) :
  len s <= n <= len x ->
  last_bytes n (x ++ s) = drop (Z.to_nat (len s)) (last_bytes n x) ++ s.
Proof.
  intros H. unfold last_bytes. rewrite len_app. unfold len in *.
  rewrite drop_drop.
  rewrite drop_app_le by lia. do 2 f_equal. lia.
Qed.

Lemma last_bytes_app_long n (x s : bytes) :
  0 <= n <= len s -> last_bytes n (x ++ s) = last_bytes n s.
Proof.
  intros H. unfold last_bytes. rewrite len_app. unfold len in *.
  rewrite drop_app_ge by lia. f_equal. lia.
Qed.

Lemma last_bytes_all n (x : bytes) : len x <= n -> last_bytes n x = x.
Proof.
  intros H. unfold last_bytes.
  replace (Z.to_nat (len x - n)) with 0%nat by lia. done.
Qed.

Lemma len_last_bytes n (x : bytes) : 0 <= n <= len x -> len (last_bytes n x) = n.
Proof. intros H. unfold last_bytes. rewrite len_drop; lia. Qed.

Lemma last_bytes_last_bytes n (x s : bytes) :
  0 <= n <= len x ->
  last_bytes n (last_bytes n x ++ s) = last_bytes n (x ++ s).
Proof.
  intros H. unfold last_bytes at 1 3. rewrite !len_app, len_last_bytes by done.
  unfold last_bytes, len in *.
  rewrite <- (drop_app_le x s) by lia.
  rewrite drop_drop. f_equal. lia.
Qed.

Section Ring.
Context (cfg : config) (rs : rs_codec).

Lemma len_log_area st :
  layout_ok cfg st -> len (log_area st) = ram_console_buffer_size st.
Proof.
  intros H. apply layout_ok_len in H. unfold log_area. apply len_take. lia.
Qed.

Lemma len_ring st :
  live_inv cfg st -> len (ring st) = ram_console_buffer_size st.
Proof.
  intros [Hlay [Hst _]]. pose proof (len_log_area st Hlay) as HD.
  unfold ring. rewrite len_app, len_drop, len_take; lia.
Qed.

(** A write keeps the console live, moves [start] and [size] as the
    header arithmetic says, and shifts the new bytes into the ring. *)
Lemma ram_console_write_ok st s :
  live_inv cfg st -> len s < 2 ^ 32 ->
  let bsz := ram_console_buffer_size st in
  let m := Z.min (len s) bsz in
  exists st',
    ram_console_write cfg rs st s (len s) = Ok st'
    /\ live_inv cfg st'
    /\ ram_console_buffer_size st' = bsz
    /\ Buffer.start (buf st')
       = (if bool_decide (bsz < Buffer.start (buf st) + m)
          then Buffer.start (buf st) + m - bsz
          else Buffer.start (buf st) + m)
    /\ Buffer.size (buf st') = Z.min (Buffer.size (buf st) + len s) bsz
    /\ ring st' = last_bytes bsz (ring st ++ s)
    /\ Buffer.sig (buf st') = Buffer.sig (buf st)
    /\ len (Buffer.data (buf st')) = len (Buffer.data (buf st)).
Proof.
  intros Hlive Hn bsz m.
  destruct (ram_console_write_spec cfg rs st s Hlive Hn)
    as (d' & Hw & Hsame & Harea & _).
  fold bsz m in Hw, Hsame, Harea.
  pose proof (len_ring st Hlive) as Hring. fold bsz in Hring.
  destruct Hlive as [Hlay [Hst Hsz]].
  pose proof (len_log_area st Hlay) as HD. fold bsz in HD, Hst, Hsz.
  pose proof Hlay as [Hb _]. fold bsz in Hb. pose proof (len_nonneg s) as Hn0.
  eexists. split; [exact Hw|]. simpl.
  split; [|split; [done|split; [done|split; [done|split;
    [|split; [done|by destruct Hsame]]]]]].
  - split.
    + apply layout_ok_set_buf; [done|]. simpl. by destruct Hsame.
    + unfold header_ok. simpl. fold bsz. case_bool_decide; lia.
  - unfold ring at 1, log_area at 1 2. simpl. fold bsz. rewrite Harea.
    set (s' := drop (Z.to_nat (len s - m)) s).
    assert (len s' = m) as Hs' by (unfold s'; rewrite len_drop; lia).
    assert (last_bytes bsz (ring st ++ s)
            = drop (Z.to_nat m) (ring st) ++ s') as ->.
    { destruct (decide (len s <= bsz)).
      - rewrite last_bytes_app_short, last_bytes_all by lia.
        unfold s', m. rewrite Z.min_l, Z.sub_diag by lia. done.
      - rewrite last_bytes_app_long by lia.
        rewrite drop_ge by (unfold m, len in *; lia).
        unfold s', m, last_bytes. rewrite Z.min_r by lia. done. }
    unfold ring. unfold len in *.
    case_bool_decide as Hwrap.
    + rewrite drop_app_length' by (rewrite length_drop; lia).
      rewrite take_app_length' by (rewrite length_drop; lia).
      rewrite drop_app_ge by (rewrite length_drop; lia).
      rewrite length_drop.
      rewrite <- (take_drop (Z.to_nat (bsz - Buffer.start (buf st))) s') at 3.
      rewrite <- !app_assoc. do 2 f_equal. lia.
    + rewrite (app_assoc (take _ (log_area st)) s').
      rewrite drop_app_length' by (rewrite length_app, length_take; lia).
      rewrite take_app_length' by (rewrite length_app, length_take; lia).
      rewrite drop_app_le by (rewrite length_drop; lia).
      rewrite drop_drop, <- !app_assoc. do 2 f_equal. lia.
Qed.
End Ring.

(** ** Initialisation: the layout *)

Lemma usize_negative a x : - 2 ^ 32 <= x < 0 -> 2 ^ 32 + x <= usize a x.
Proof.
  intros Hx. unfold usize, wrap_unsigned.
  assert (2 ^ 32 <= 2 ^ size_t_bits a) by (destruct a; simpl; lia).
  rewrite <- (Z.mod_add x 1) by lia. rewrite Z.mod_small; lia.
Qed.

Section Layout.
Context (cfg : config) (rs : rs_codec).

Lemma parity_table_size_mono e a b :
  ecc_params_ok e -> a <= b -> parity_table_size e a <= parity_table_size e b.
Proof.
  intros (HE & HEB & _) Hab. unfold parity_table_size.
  apply Z.mul_le_mono_nonneg_r; [lia|].
  apply Z.add_le_mono_r. apply Z.div_le_mono; lia.
Qed.

Lemma parity_table_size_bound e n :
  ecc_params_ok e -> 0 <= n ->
  0 <= parity_table_size e n <= n + 254.
Proof.
  intros (HE & HEB & H255 & _) Hn. unfold parity_table_size.
  assert (0 <= (n + ECC_BLOCK_SIZE e - 1) / ECC_BLOCK_SIZE e)
    by (apply Z.div_pos; lia).
  pose proof (Z.mul_div_le (n + ECC_BLOCK_SIZE e - 1) (ECC_BLOCK_SIZE e) ltac:(lia)).
  nia.
Qed.

Lemma of_le32_range l : 0 <= of_le32 l < 2 ^ 32.
Proof. unfold of_le32, u32, wrap_unsigned. apply Z.mod_pos_bound. lia. Qed.

(** [ram_console_init_layout] never faults on a mapped region.  It
    returns early exactly when the capacity is insufficient or the codec
    cannot be allocated, and then leaves the region, the recovered log
    and the registration as they were; otherwise it arrives at
    [data_capacity] and a layout that fits the region. *)
Lemma ram_console_init_layout_spec st buffer_size init_rs_ok :
  config_ok cfg -> region_ok st buffer_size ->
  ((insufficient_capacity cfg buffer_size
    \/ (ecc cfg <> None /\ init_rs_ok = false))
   /\ exists st',
        ram_console_init_layout cfg rs st buffer_size init_rs_ok = Ok (inl st')
        /\ buf st' = buf st
        /\ ram_console_old_log st' = ram_console_old_log st
        /\ ram_console_old_log_size st' = ram_console_old_log_size st
        /\ registered st' = registered st)
  \/ (~ insufficient_capacity cfg buffer_size
      /\ (ecc cfg = None \/ init_rs_ok = true)
      /\ exists st',
           ram_console_init_layout cfg rs st buffer_size init_rs_ok = Ok (inr st')
           /\ layout_ok cfg st'
           /\ ram_console_buffer_size st' = data_capacity cfg buffer_size
           /\ Buffer.data (buf st') = Buffer.data (buf st)
           /\ (ecc cfg = None -> buf st' = buf st)
           /\ 0 <= Buffer.start (buf st') < 2 ^ 32
           /\ 0 <= Buffer.size (buf st') < 2 ^ 32
           /\ ram_console_old_log st' = ram_console_old_log st
           /\ ram_console_old_log_size st' = ram_console_old_log_size st
           /\ registered st' = registered st).
Proof.
  intros Hcfg (Hbs & Hmap & Hsig & Hstart & Hsize).
  unfold config_ok, insufficient_capacity, data_capacity, layout_ok,
    ram_console_init_layout, INT_MAX, sizeof_buffer in *.
  cbn [ram_console_buffer_size set_buffer_size].
  destruct (decide (buffer_size < 12)) as [Hsmall|Hbig].
  { left. split; [by left; left|].
    rewrite bool_decide_eq_true_2.
    - eexists. split; [done|]. done.
    - pose proof (usize_negative (cfg_abi cfg) (buffer_size - 12)). lia. }
  rewrite (usize_small _ (buffer_size - 12)) by lia.
  rewrite bool_decide_eq_false_2 by lia.
  specialize (Hmap ltac:(lia)).
  destruct (ecc cfg) as [e|].
  2: { right. split; [lia|]. split; [by left|].
       eexists. split; [done|]. simpl. repeat split; try done; lia. }
  pose proof Hcfg as (HE & HEB & H255 & _).
  pose proof (parity_table_size_bound e (buffer_size - 12) Hcfg ltac:(lia)) as Hpts.
  cbn [ram_console_buffer_size set_buffer_size].
  unfold DIV_ROUND_UP.
  rewrite !(usize_small _ (buffer_size - 12 + ECC_BLOCK_SIZE e - 1)) by lia.
  fold (parity_table_size e (buffer_size - 12)).
  rewrite !(usize_small _ (parity_table_size e (buffer_size - 12))) by lia.
  set (need := parity_table_size e (buffer_size - 12)) in *.
  destruct (decide (buffer_size - 12 < need)) as [Hneed|Hroom].
  { left. split; [by left; right|].
    rewrite bool_decide_eq_true_2.
    - eexists. split; [done|]. done.
    - pose proof (usize_negative (cfg_abi cfg) (buffer_size - 12 - need)). lia. }
  rewrite !(usize_small _ (buffer_size - 12 - need)) by lia.
  rewrite bool_decide_eq_false_2 by lia.
  cbn [ram_console_buffer_size ram_console_par_buffer set_par_buffer
       set_buffer_size set_counters buf].
  destruct init_rs_ok.
  2: { left. split; [right; done|]. eexists. split; [done|]. done. }
  right. split; [lia|]. split; [by right|]. cbn [negb].
  set (bsz := buffer_size - 12 - need).
  pose proof (parity_table_size_mono e bsz (buffer_size - 12) Hcfg ltac:(lia)) as Hmono.
  fold need in Hmono.
  pose proof (parity_table_size_bound e bsz Hcfg ltac:(lia)) as Hpts'.
  rewrite (usize_small _ (bsz + ECC_BLOCK_SIZE e - 1)) by lia.
  fold (header_slot e bsz).
  assert (0 <= header_slot e bsz * ECC_SIZE e
          /\ (header_slot e bsz + 1) * ECC_SIZE e = parity_table_size e bsz)
    as [Hh0 Hh].
  { split; [|done]. unfold header_slot.
    assert (0 <= (bsz + ECC_BLOCK_SIZE e - 1) / ECC_BLOCK_SIZE e)
      by (apply Z.div_pos; lia). nia. }
  rewrite (usize_small _ (header_slot e bsz * ECC_SIZE e)) by lia.
  rewrite mem_read_ok by lia. rewrite bind_Ok.
  destruct (ram_console_decode_rs8 rs (header_bytes (buf st)) _) as [numerr h].
  eexists. split; [done|].
  repeat case_bool_decide; cbn; (split; [split; [lia|]; split; [done|]; split; [done|lia]|]);
    (split; [done|]); (split; [done|]); (split; [done|]);
    (split; [apply of_le32_range|]); (split; [apply of_le32_range|]); done.
Qed.
End Layout.

(** ** Recovery: [ram_console_save_old] *)

Section SaveOld.
Context (cfg : config) (rs : rs_codec).

(** The decode loop terminates on its fuel without a fault, and stores
    only to the log area. *)
Lemma decode_blocks_ok e bsz lim fuel : forall k m c b,
  ecc_params_ok e -> 0 <= bsz <= INT_MAX -> lim <= bsz -> 0 <= k ->
  bsz + parity_table_size e bsz <= len m ->
  lim <= (k + Z.of_nat fuel) * ECC_BLOCK_SIZE e ->
  exists m' c' b',
    decode_blocks cfg rs e fuel bsz lim m c b (k * ECC_BLOCK_SIZE e)
      (bsz + k * ECC_SIZE e) = Ok (m', c', b')
    /\ same_except (fun i => i < bsz) m m'.
Proof.
  unfold INT_MAX.
  induction fuel as [|fuel IH]; intros k m c b Hok Hbsz Hlim Hk Hm Hfuel;
    pose proof Hok as (HE & HEB & H255 & _).
  { simpl. rewrite bool_decide_eq_false_2 by lia.
    exists m, c, b. split; [done | apply same_except_refl]. }
  simpl decode_blocks. case_bool_decide as Hmore.
  2: { exists m, c, b. split; [done | apply same_except_refl]. }
  assert (0 <= k * ECC_BLOCK_SIZE e) as HkB0 by nia.
  assert (0 <= k * ECC_SIZE e) as HkE0 by nia.
  set (size := if bool_decide (k * ECC_BLOCK_SIZE e + ECC_BLOCK_SIZE e > bsz)
               then s32 (bsz - k * ECC_BLOCK_SIZE e) else ECC_BLOCK_SIZE e).
  assert (0 <= size <= ECC_BLOCK_SIZE e /\ k * ECC_BLOCK_SIZE e + size <= bsz)
    as (Hsz & Hin).
  { unfold size. case_bool_decide; [rewrite s32_small by lia|]; lia. }
  clearbody size.
  pose proof (block_below_table e bsz k ltac:(lia) HE ltac:(lia)) as Hslot.
  rewrite usize_small by lia.
  rewrite mem_read_ok by lia. simpl.
  rewrite mem_read_ok by lia. simpl.
  set (d := take (Z.to_nat size) (drop _ m)).
  set (p := take (Z.to_nat (ECC_SIZE e)) (drop _ m)).
  assert (len d = size) as Hd.
  { unfold d. rewrite len_take; [done|]. rewrite len_drop; lia. }
  pose proof (decode_rs8_length rs d p) as Hlen.
  unfold ram_console_decode_rs8.
  destruct (decode_rs8 rs d p) as [numerr d']. simpl in Hlen.
  assert (len d' = size) as Hd' by (unfold len in *; lia).
  destruct (mem_write m (k * ECC_BLOCK_SIZE e) d') as [m'| |] eqn:Hw;
    [|unfold mem_write in Hw; rewrite bool_decide_eq_true_2 in Hw by lia; done..].
  simpl. apply mem_write_same_except in Hw. rewrite Hd' in Hw.
  set (cb := if bool_decide (numerr > 0) then _ else _).
  destruct cb as [c1 b1].
  replace (k * ECC_BLOCK_SIZE e + ECC_BLOCK_SIZE e)
    with ((k + 1) * ECC_BLOCK_SIZE e) by lia.
  replace (bsz + k * ECC_SIZE e + ECC_SIZE e)
    with (bsz + (k + 1) * ECC_SIZE e) by lia.
  destruct (IH (k + 1) m' c1 b1) as (m'' & c' & b' & Hrun & Hsame);
    try done; try lia.
  { destruct Hw as [-> _]. done. }
  exists m'', c', b'. split; [done|].
  eapply same_except_weaken;
    [|exact (same_except_trans _ _ _ _ _ Hw Hsame)].
  intros i Hi [?|?]; lia.
Qed.

Lemma diag_len_range c b : 0 <= diag_len c b < sizeof_strbuf.
Proof.
  unfold diag_len, sizeof_strbuf. pose proof (len_nonneg (diag_text c b)).
  case_bool_decide; lia.
Qed.

Lemma len_diag_line c b : len (diag_line c b) = diag_len c b.
Proof.
  unfold diag_line. pose proof (diag_len_range c b) as H.
  apply len_take. unfold diag_len, sizeof_strbuf in *. case_bool_decide; lia.
Qed.
End SaveOld.

Section SaveOldSpec.
Context (cfg : config) (rs : rs_codec).

Lemma save_old_decode_ok st :
  layout_ok cfg st ->
  0 <= Buffer.size (buf st) <= ram_console_buffer_size st ->
  exists st1,
    save_old_decode cfg rs st = Ok (st1, trailer cfg st1)
    /\ layout_ok cfg st1
    /\ ram_console_buffer_size st1 = ram_console_buffer_size st
    /\ Buffer.sig (buf st1) = Buffer.sig (buf st)
    /\ Buffer.start (buf st1) = Buffer.start (buf st)
    /\ Buffer.size (buf st1) = Buffer.size (buf st)
    /\ len (Buffer.data (buf st1)) = len (Buffer.data (buf st))
    /\ (ecc cfg = None -> st1 = st)
    /\ ram_console_old_log st1 = ram_console_old_log st
    /\ ram_console_old_log_size st1 = ram_console_old_log_size st
    /\ registered st1 = registered st.
Proof.
  intros Hlay Hsize. unfold save_old_decode, trailer.
  pose proof Hlay as [Hb Hl]. unfold INT_MAX in *.
  destruct (ecc cfg) as [e|] eqn:Hecc.
  2: { exists st. split; [done|]. split; [exact Hlay|]. repeat split; done. }
  destruct Hl as (Hok & Hpar & Hl). pose proof Hok as (HE & HEB & _).
  destruct (decode_blocks_ok cfg rs e (ram_console_buffer_size st)
              (Buffer.size (buf st)) (Z.to_nat (Buffer.size (buf st))) 0
              (Buffer.data (buf st)) (ram_console_corrected_bytes st)
              (ram_console_bad_blocks st))
    as (m' & c' & b' & Hrun & Hsame); try done; try lia.
  { rewrite Z2Nat.id by lia. nia. }
  rewrite Z.mul_0_l, Z.add_0_r in Hrun. rewrite Hpar, Hrun, bind_Ok.
  cbv beta iota.
  exists (set_counters (set_buf st (set_data (buf st) m')) c' b').
  split; [reflexivity|]. simpl.
  split; [|repeat split; try done; by destruct Hsame].
  unfold layout_ok. simpl. rewrite Hecc. unfold INT_MAX.
  destruct Hsame as [-> _]. done.
Qed.

(** [ram_console_save_old] on a header that passed the check of
    [ram_console_init]: it never faults; either no destination could be
    allocated and the recovered log stays as it was, or the log is the
    valid window followed by the trailer. *)
Lemma ram_console_save_old_spec alloc st old_buf :
  layout_ok cfg st ->
  0 <= Buffer.start (buf st) <= Buffer.size (buf st) ->
  Buffer.size (buf st) <= ram_console_buffer_size st ->
  match old_buf with
  | Some d => Buffer.size (buf st) + sizeof_strbuf <= len d
  | None => True
  end ->
  exists st',
    ram_console_save_old cfg rs alloc st old_buf = Ok st'
    /\ layout_ok cfg st'
    /\ ram_console_buffer_size st' = ram_console_buffer_size st
    /\ Buffer.sig (buf st') = Buffer.sig (buf st)
    /\ Buffer.start (buf st') = Buffer.start (buf st)
    /\ Buffer.size (buf st') = Buffer.size (buf st)
    /\ (ecc cfg = None -> buf st' = buf st)
    /\ registered st' = registered st
    /\ let total := Buffer.size (buf st) + len (trailer cfg st') in
       (old_buf = None /\ kmalloc alloc total = None
        /\ ram_console_old_log st' = ram_console_old_log st
        /\ ram_console_old_log_size st' = ram_console_old_log_size st)
       \/ exists log,
            (old_buf = None -> is_Some (kmalloc alloc total) /\ len log = total)
            /\ ram_console_old_log st' = Some log
            /\ ram_console_old_log_size st' = total
            /\ total <= len log
            /\ take (Z.to_nat total) log = old_window (buf st') ++ trailer cfg st'.
Proof.
  intros Hlay Hhdr Hsize Hdest. unfold ram_console_save_old.
  destruct (save_old_decode_ok st Hlay ltac:(lia))
    as (st1 & Hdec & Hlay1 & Hbsz1 & Hsig1 & Hstart1 & Hsize1 & Hlen1 & Hnone
        & Hlog1 & Hlogsz1 & Hreg1).
  rewrite Hdec, bind_Ok. cbv beta iota.
  pose proof (layout_ok_len cfg st1 Hlay1) as Hdata.
  pose proof Hlay as [Hb _]. unfold INT_MAX, sizeof_strbuf in *.
  set (tr := trailer cfg st1).
  assert (0 <= len tr < 80) as Htr.
  { unfold tr, trailer. destruct (ecc cfg).
    - rewrite len_diag_line. apply diag_len_range.
    - unfold len. simpl. lia. }
  rewrite usize_small by lia.
  set (total := Buffer.size (buf st) + len tr).
  set (dest := match old_buf with Some d => Some d | None => kmalloc alloc total end).
  assert (match dest with
          | Some d => total <= len d /\ (old_buf = None -> len d = total)
          | None => old_buf = None /\ kmalloc alloc total = None
          end) as Hd.
  { unfold dest. destruct old_buf as [d|]; [split; [lia|done]|].
    destruct (kmalloc alloc total) as [d|] eqn:Hk; [|done].
    apply kmalloc_len in Hk. split; [lia|done]. }
  assert (old_buf = None -> dest = kmalloc alloc total) as Hfrom
    by (intros ->; done).
  clearbody dest. destruct dest as [d|].
  2: { exists st1. split; [done|]. split; [exact Hlay1|]. repeat split; try done.
       - intros Hn. by rewrite (Hnone Hn).
       - left. by destruct Hd. }
  destruct Hd as [Hd Hexact].
  rewrite Hstart1, Hsize1.
  rewrite u32_small by lia.
  rewrite (mem_read_ok _ (Buffer.start (buf st))) by lia. rewrite bind_Ok.
  set (v1 := take _ (drop _ _)).
  assert (len v1 = Buffer.size (buf st) - Buffer.start (buf st)) as Hv1.
  { unfold v1. rewrite len_take; [done|]. rewrite len_drop; lia. }
  rewrite (mem_write_ok d 0) by lia. rewrite bind_Ok.
  rewrite (mem_read_ok _ 0) by lia. rewrite bind_Ok, drop_0.
  set (v2 := take _ (Buffer.data (buf st1))).
  assert (len v2 = Buffer.start (buf st)) as Hv2 by (unfold v2; rewrite len_take; lia).
  set (d1 := take _ d ++ v1 ++ drop _ d).
  assert (len d1 = len d) as Hd1.
  { unfold d1. rewrite !len_app. unfold len in *.
    rewrite length_take, length_drop. lia. }
  rewrite (mem_write_ok d1) by lia. rewrite bind_Ok.
  set (d2 := take _ d1 ++ v2 ++ drop _ d1).
  assert (len d2 = len d) as Hd2.
  { unfold d2. rewrite !len_app. unfold len in *.
    rewrite length_take, length_drop. lia. }
  unfold memcpy. rewrite (mem_read_ok tr) by lia. rewrite bind_Ok, drop_0.
  rewrite (take_ge tr) by (unfold len; lia).
  rewrite (mem_write_ok d2) by lia. rewrite bind_Ok.
  eexists. split; [done|]. simpl.
  split; [exact Hlay1|]. repeat split; try done.
  { intros Hn. by rewrite (Hnone Hn). }
  right. eexists. split; [|split; [done|split; [done|split]]].
  - intros Hn. split.
    + change (is_Some (kmalloc alloc total)). rewrite <- (Hfrom Hn). done.
    + change (len (take (Z.to_nat (Buffer.size (buf st))) d2 ++ tr
                   ++ drop (Z.to_nat (Buffer.size (buf st)) + length tr) d2)
              = total).
      specialize (Hexact Hn).
      rewrite !len_app. unfold total, len in *.
      rewrite length_take, length_drop. lia.
  - change (total <= len (take (Z.to_nat (Buffer.size (buf st))) d2 ++ tr
                          ++ drop (Z.to_nat (Buffer.size (buf st)) + length tr) d2)).
    rewrite !len_app. unfold total, len in *.
    rewrite length_take, length_drop. lia.
  - change (take (Z.to_nat total)
              (take (Z.to_nat (Buffer.size (buf st))) d2 ++ tr
               ++ drop (Z.to_nat (Buffer.size (buf st)) + length tr) d2)
            = old_window (buf st1) ++ tr).
    unfold old_window. rewrite Hstart1, Hsize1. fold v1 v2.
    unfold total, len in *.
    assert (take (Z.to_nat (Buffer.size (buf st))) d2 = v1 ++ v2) as Hd2'.
    { unfold d2, d1. change (Z.to_nat 0) with 0%nat.
      rewrite !take_0, !app_nil_l.
      rewrite (take_app_length' v1) by lia.
      rewrite app_assoc. rewrite take_app_length'; [done|].
      rewrite length_app. lia. }
    rewrite Hd2'. rewrite app_assoc.
    rewrite take_app_length'; [done|].
    rewrite !length_app. lia.
Qed.
End SaveOldSpec.

(** ** Sequences of writes *)

Section Writes.
Context (cfg : config) (rs : rs_codec).

Lemma len_concat_cons (s : bytes) (ws : list bytes) :
  len (concat (s :: ws)) = len s + len (concat ws).
Proof. simpl. apply len_app. Qed.

Lemma write_all_ok ws : forall st,
  live_inv cfg st -> Forall (fun s => len s < 2 ^ 32) ws ->
  exists st',
    write_all cfg rs st ws = Ok st'
    /\ live_inv cfg st'
    /\ ram_console_buffer_size st' = ram_console_buffer_size st
    /\ Buffer.size (buf st')
       = Z.min (Buffer.size (buf st) + len (concat ws)) (ram_console_buffer_size st)
    /\ ring st'
       = last_bytes (ram_console_buffer_size st) (ring st ++ concat ws)
    /\ Buffer.sig (buf st') = Buffer.sig (buf st)
    /\ len (Buffer.data (buf st')) = len (Buffer.data (buf st)).
Proof.
  induction ws as [|s ws IH]; intros st Hlive Hall.
  - exists st. pose proof (len_ring cfg st Hlive) as Hring.
    destruct Hlive as [Hlay [Hst Hsz]]. simpl.
    split; [done|]. split; [done|]. split; [done|]. split; [|split; [|done]].
    + change (len []) with 0. lia.
    + rewrite app_nil_r, last_bytes_all; [done|lia].
  - inversion_clear Hall as [|? ? Hs Hall'].
    destruct (ram_console_write_ok cfg rs st s Hlive Hs)
      as (st1 & Hw & Hlive1 & Hbsz1 & _ & Hsize1 & Hring1 & Hsig1 & Hlen1).
    destruct (IH st1 Hlive1 Hall')
      as (st' & Hrun & Hlive' & Hbsz' & Hsize' & Hring' & Hsig' & Hlen').
    exists st'. simpl write_all. rewrite Hw, bind_Ok.
    split; [done|]. split; [done|]. split; [congruence|].
    pose proof (len_nonneg (concat ws)). pose proof (len_nonneg s).
    pose proof (len_ring cfg st Hlive) as Hring.
    destruct Hlive as [[Hb _] [Hst Hsz]].
    rewrite len_concat_cons. split; [|split; [|split; congruence]].
    + rewrite Hsize', Hsize1, Hbsz1. lia.
    + rewrite Hring', Hring1, Hbsz1.
      rewrite last_bytes_last_bytes by (rewrite len_app; lia).
      simpl. by rewrite app_assoc.
Qed.
End Writes.

(** More than the capacity in one call keeps the last
    [ram_console_buffer_size] bytes of the argument. *)
Lemma single_long_write (cfg : config) (rs : rs_codec) (st : ram_console)
    (s : bytes) :
  live_inv cfg st -> len s < 2 ^ 32 -> len s > ram_console_buffer_size st ->
  exists st',
    ram_console_write cfg rs st s (len s) = Ok st'
    /\ logical_content st' = last_bytes (ram_console_buffer_size st) s.
Proof.
  intros Hlive Hs Hlong.
  destruct (ram_console_write_ok cfg rs st s Hlive Hs)
    as (st' & Hw & Hlive' & Hbsz & _ & Hsize & Hring & _).
  pose proof (len_ring cfg st' Hlive') as Hlen'.
  destruct Hlive as [[Hb _] [Hst Hsz]].
  exists st'. split; [done|]. unfold logical_content.
  rewrite last_bytes_all by lia. rewrite Hring.
  apply last_bytes_app_long. lia.
Qed.

(** ** Initialisation: recovery and re-arming *)

Section Init.
Context (cfg : config) (rs : rs_codec).

Lemma old_buffer_valid_true st :
  old_buffer_valid st = true ->
  Buffer.sig (buf st) = RAM_CONSOLE_SIG
  /\ Buffer.size (buf st) <= ram_console_buffer_size st
  /\ Buffer.start (buf st) <= Buffer.size (buf st).
Proof.
  unfold old_buffer_valid. intros H.
  apply andb_true_iff in H as [H1 H2]. apply negb_true_iff in H2.
  apply orb_false_iff in H2 as [H2 H3].
  apply bool_decide_eq_true in H1. apply bool_decide_eq_false in H2, H3. lia.
Qed.

Lemma old_buffer_valid_false st :
  old_buffer_valid st = false <->
  Buffer.sig (buf st) <> RAM_CONSOLE_SIG
  \/ Buffer.size (buf st) > ram_console_buffer_size st
  \/ Buffer.start (buf st) > Buffer.size (buf st).
Proof.
  unfold old_buffer_valid.
  rewrite andb_false_iff, negb_false_iff, orb_true_iff.
  rewrite bool_decide_eq_false, !bool_decide_eq_true. tauto.
Qed.

(** From the header check on: recovery, if the check lets it run, then
    the header reset and the registration. *)
Lemma ram_console_init_tail alloc init_rs_ok st buffer_size old_buf st1 :
  ram_console_init_layout cfg rs st buffer_size init_rs_ok = Ok (inr st1) ->
  layout_ok cfg st1 -> 0 <= Buffer.start (buf st1) ->
  match old_buf with
  | Some d => ram_console_buffer_size st1 + sizeof_strbuf <= len d
  | None => True
  end ->
  exists st2,
    (if old_buffer_valid st1
     then ram_console_save_old cfg rs alloc st1 old_buf = Ok st2
     else st2 = st1)
    /\ layout_ok cfg st2
    /\ ram_console_buffer_size st2 = ram_console_buffer_size st1
    /\ registered st2 = registered st1
    /\ ram_console_init cfg rs alloc init_rs_ok st buffer_size old_buf
       = Ok (0, set_registered
                  (set_buf st2 (set_header (buf st2) RAM_CONSOLE_SIG 0 0)) true).
Proof.
  intros Hlayout Hlay Hstart Hdest. unfold ram_console_init.
  rewrite Hlayout, bind_Ok.
  destruct (old_buffer_valid st1) eqn:Hvalid.
  - apply old_buffer_valid_true in Hvalid as (Hsig & Hsize & Hle).
    destruct (ram_console_save_old_spec cfg rs alloc st1 old_buf)
      as (st2 & Hsave & Hlay2 & Hbsz2 & _ & _ & _ & _ & Hreg2 & _);
      try done; try lia.
    { destruct old_buf; [|done]. lia. }
    exists st2. rewrite Hsave, bind_Ok. done.
  - exists st1. rewrite bind_Ok. done.
Qed.

(** An initialisation that does not return early leaves a live, empty,
    registered console with the data capacity of the layout. *)
Lemma ram_console_init_ok alloc init_rs_ok st buffer_size old_buf :
  config_ok cfg -> region_ok st buffer_size -> old_buf_ok old_buf buffer_size ->
  ~ insufficient_capacity cfg buffer_size ->
  ecc cfg = None \/ init_rs_ok = true ->
  exists st',
    ram_console_init cfg rs alloc init_rs_ok st buffer_size old_buf = Ok (0, st')
    /\ live_inv cfg st'
    /\ ram_console_buffer_size st' = data_capacity cfg buffer_size
    /\ Buffer.sig (buf st') = RAM_CONSOLE_SIG
    /\ Buffer.start (buf st') = 0
    /\ Buffer.size (buf st') = 0
    /\ registered st' = true.
Proof.
  intros Hcfg Hreg Hdest Hroom Hrs.
  destruct (ram_console_init_layout_spec cfg rs st buffer_size init_rs_ok Hcfg Hreg)
    as [[[Hins|[Hecc Hno]] _]|(_ & _ & st1 & Hlayout & Hlay1 & Hbsz1 & _ & _
                               & Hstart1 & _)];
    [done|by destruct Hrs as [?| ->]|].
  destruct (ram_console_init_tail alloc init_rs_ok st buffer_size old_buf st1)
    as (st2 & _ & Hlay2 & Hbsz2 & _ & Hinit); try done; try lia.
  { unfold old_buf_ok in Hdest. destruct old_buf; [|done].
    destruct Hlay1 as [Hb _].
    assert (ram_console_buffer_size st1 <= buffer_size); [|lia].
    rewrite Hbsz1. unfold data_capacity, sizeof_buffer, config_ok in *.
    destruct (ecc cfg) as [e|]; [|lia].
    destruct Hreg as [Hbs _].
    unfold insufficient_capacity, sizeof_buffer in Hroom.
    pose proof (parity_table_size_bound e (buffer_size - 12) Hcfg ltac:(lia)). lia. }
  eexists. split; [exact Hinit|]. simpl.
  split; [|split; [congruence|done]].
  split.
  - apply layout_ok_set_buf; [|done].
    unfold layout_ok in *. done.
  - unfold header_ok. simpl. destruct Hlay2 as [Hb _]. lia.
Qed.
End Init.

(** ** Initialisation: the early returns *)

Section InitAbort.
Context (cfg : config) (rs : rs_codec).

Lemma parity_exceeds_small e n :
  ecc_params_ok e -> 0 <= n -> n < parity_table_size e n -> n < 2 ^ 17.
Proof.
  intros (HE & HEB & H255 & _) Hn. unfold parity_table_size.
  set (q := (n + ECC_BLOCK_SIZE e - 1) / ECC_BLOCK_SIZE e).
  assert (0 <= q) by (apply Z.div_pos; lia).
  pose proof (Z.mul_div_le (n + ECC_BLOCK_SIZE e - 1) (ECC_BLOCK_SIZE e) ltac:(lia)) as Hq.
  fold q in Hq. intros Hlt.
  assert (q < 2 * ECC_BLOCK_SIZE e) by nia.
  nia.
Qed.

(** With insufficient capacity the layout phase returns early, for
    every [buffer_size] that a [size_t] holds, having changed nothing
    but [ram_console_buffer_size]. *)
Lemma init_layout_insufficient st buffer_size init_rs_ok :
  config_ok cfg -> 0 <= buffer_size < 2 ^ size_t_bits (cfg_abi cfg) ->
  insufficient_capacity cfg buffer_size ->
  exists n,
    ram_console_init_layout cfg rs st buffer_size init_rs_ok
    = Ok (inl (set_buffer_size st n)).
Proof.
  intros Hcfg Hbs Hins.
  unfold config_ok, insufficient_capacity, ram_console_init_layout,
    sizeof_buffer in *.
  cbn [ram_console_buffer_size set_buffer_size].
  destruct (decide (buffer_size < 12)) as [Hsmall|Hbig].
  { rewrite bool_decide_eq_true_2; [by eexists|].
    pose proof (usize_negative (cfg_abi cfg) (buffer_size - 12)). lia. }
  destruct (ecc cfg) as [e|]; [|lia]. destruct Hins as [?|Hins]; [lia|].
  pose proof Hcfg as (HE & HEB & H255 & _).
  pose proof (parity_exceeds_small e (buffer_size - 12) Hcfg ltac:(lia) Hins) as Hn.
  pose proof (parity_table_size_bound e (buffer_size - 12) Hcfg ltac:(lia)) as Hpts.
  rewrite (usize_small _ (buffer_size - 12)) by lia.
  rewrite bool_decide_eq_false_2 by lia.
  cbn [ram_console_buffer_size set_buffer_size].
  unfold DIV_ROUND_UP.
  rewrite !(usize_small _ (buffer_size - 12 + ECC_BLOCK_SIZE e - 1)) by lia.
  fold (parity_table_size e (buffer_size - 12)).
  rewrite !(usize_small _ (parity_table_size e (buffer_size - 12))) by lia.
  rewrite bool_decide_eq_true_2; [by eexists|].
  pose proof (usize_negative (cfg_abi cfg)
                (buffer_size - 12 - parity_table_size e (buffer_size - 12))).
  lia.
Qed.
End InitAbort.


(** ** The recovered log is out of reach of the writes *)

Section OldLog.
Context (cfg : config) (rs : rs_codec).

Lemma ram_console_update_old_log st s count st' :
  ram_console_update cfg rs st s count = Ok st' -> same_old_log st st'.
Proof.
  unfold ram_console_update. intros H.
  apply result_bind_ok in H as (m & _ & H).
  destruct (ecc cfg) as [e|].
  - apply result_bind_ok in H as (m' & _ & H). injection H as <-. done.
  - injection H as <-. done.
Qed.

Lemma ram_console_update_header_old_log st st' :
  ram_console_update_header cfg rs st = Ok st' -> same_old_log st st'.
Proof.
  unfold ram_console_update_header. intros H. destruct (ecc cfg) as [e|].
  - apply result_bind_ok in H as (m & _ & H). injection H as <-. done.
  - injection H as <-. done.
Qed.

Lemma ram_console_write_old_log st s count st' :
  ram_console_write cfg rs st s count = Ok st' -> same_old_log st st'.
Proof.
  unfold ram_console_write.
  destruct (if bool_decide (count > _) then _ else _) as [s1 count1].
  intros H. apply result_bind_ok in H as ([[st1 s2] count2] & Hfirst & H).
  apply result_bind_ok in H as (st2 & Hu2 & Hh).
  apply ram_console_update_old_log in Hu2 as [Ha2 Hb2].
  apply ram_console_update_header_old_log in Hh as [Ha3 Hb3].
  simpl in Ha3, Hb3.
  assert (same_old_log st st1) as [Ha1 Hb1].
  { case_bool_decide; [|injection Hfirst as <- _ _; done].
    apply result_bind_ok in Hfirst as (st0 & Hu1 & Hfirst).
    apply ram_console_update_old_log in Hu1 as [Ha1 Hb1].
    apply result_bind_ok in Hfirst as (s0 & _ & Hfirst).
    injection Hfirst as <- _ _. done. }
  split; congruence.
Qed.

Lemma ram_console_read_old_ext st st' user_ok length pos :
  same_old_log st st' ->
  ram_console_read_old cfg st' user_ok length pos
  = ram_console_read_old cfg st user_ok length pos.
Proof. intros [Ha Hb]. unfold ram_console_read_old. by rewrite Ha, Hb. Qed.
End OldLog.


(** ** The probe *)

(** Once the platform data, the resource and the mapping are there,
    [ram_console_driver_probe] returns what [ram_console_init] returns
    on the mapped region. *)
Lemma probe_returns_init_value (cfg : config) (rs : rs_codec)
    (alloc : allocator) (init_rs_ok : bool) (PAGE_SIZE : Z) (st : ram_console)
    (pd : ram_console_platform_data) (r : resource)
    (ioremap : Z -> Z -> option ram_console_buffer) (buffer : ram_console_buffer) :
  mem_size pd <> 0 -> Z.land (res_flags r) IORESOURCE_MEM <> 0 ->
  let buffer_size :=
    usize (cfg_abi cfg) (res_end r - res_start r + 1 - PAGE_SIZE * 10) in
  ioremap (res_start r) buffer_size = Some buffer ->
  ram_console_driver_probe cfg rs alloc init_rs_ok PAGE_SIZE st false
    (Some pd) (Some r) None false ioremap
  = ram_console_init cfg rs alloc init_rs_ok (set_buf st buffer) buffer_size None.
Proof.
  intros Hsize Hflags buffer_size Hmap. unfold ram_console_driver_probe.
  simpl. rewrite !bool_decide_eq_false_2 by done.
  fold buffer_size. by rewrite Hmap.
Qed.

(** The probe returns 0 whether the initialisation completed or
    stopped early. *)
Lemma probe_returns_zero (cfg : config) (rs : rs_codec)
    (alloc : allocator) (init_rs_ok : bool) (PAGE_SIZE : Z) (st : ram_console)
    (pd : ram_console_platform_data) (r : resource)
    (ioremap : Z -> Z -> option ram_console_buffer) (buffer : ram_console_buffer) :
  mem_size pd <> 0 -> Z.land (res_flags r) IORESOURCE_MEM <> 0 ->
  let buffer_size :=
    usize (cfg_abi cfg) (res_end r - res_start r + 1 - PAGE_SIZE * 10) in
  ioremap (res_start r) buffer_size = Some buffer ->
  config_ok cfg -> region_ok (set_buf st buffer) buffer_size ->
  exists st',
    ram_console_driver_probe cfg rs alloc init_rs_ok PAGE_SIZE st false
      (Some pd) (Some r) None false ioremap = Ok (0, st').
Proof.
  intros Hsize Hflags buffer_size Hmap Hcfg Hreg.
  rewrite (probe_returns_init_value cfg rs alloc init_rs_ok PAGE_SIZE st pd r
             ioremap buffer Hsize Hflags Hmap).
  fold buffer_size.
  destruct (ram_console_init_layout_spec cfg rs (set_buf st buffer) buffer_size
              init_rs_ok Hcfg Hreg)
    as [(_ & st0 & Hl & _)|(Hroom & Hrs & _)].
  - unfold ram_console_init. rewrite Hl, bind_Ok. by exists st0.
  - destruct (ram_console_init_ok cfg rs alloc init_rs_ok (set_buf st buffer)
                buffer_size None) as (st' & Hinit & _); try done.
    by exists st'.
Qed.

(** ** Across a reboot *)

(** On a live header the window that [ram_console_save_old] copies is
    the logical content. *)
Lemma old_window_logical_content (cfg : config) (st : ram_console) :
  live_inv cfg st -> old_window (buf st) = logical_content st.
Proof.
  intros Hlive. pose proof (len_ring cfg st Hlive) as Hring.
  destruct Hlive as [Hlay [Hst Hsz]].
  pose proof (layout_ok_len cfg st Hlay) as Hlen.
  pose proof (len_log_area cfg st Hlay) as HD.
  unfold old_window, logical_content, last_bytes, ring, log_area in *.
  unfold len in *.
  destruct Hsz as [Hsz|Hsz]; rewrite Hsz in *.
  - rewrite Z.sub_diag, take_0, app_nil_l.
    rewrite drop_app_length'
      by (rewrite length_app, length_drop, !length_take in *; lia).
    rewrite take_take. f_equal. lia.
  - rewrite Hring, Z.sub_diag, drop_0.
    rewrite take_take, Nat.min_l by lia. f_equal.
    rewrite take_drop_commute. do 2 f_equal. lia.
Qed.

(** Without error correction: what a sequence of writes left as the
    logical content is what the initialisation of the next boot
    recovers from the region. *)
Lemma recovery_after_reboot (cfg : config) (rs : rs_codec) (alloc : allocator)
    (init_rs_ok : bool) (st st1 : ram_console) (ws : list bytes)
    (buffer_size : Z) :
  ecc cfg = None -> live_inv cfg st ->
  sizeof_buffer <= buffer_size <= INT_MAX ->
  ram_console_buffer_size st = buffer_size - sizeof_buffer ->
  len (Buffer.data (buf st)) = buffer_size - sizeof_buffer ->
  Buffer.sig (buf st) = RAM_CONSOLE_SIG ->
  Forall (fun s => len s < 2 ^ 32) ws ->
  (forall n, 0 <= n -> is_Some (kmalloc alloc n)) ->
  write_all cfg rs st ws = Ok st1 ->
  exists st2,
    ram_console_init cfg rs alloc init_rs_ok
      (mk_ram_console (buf st1) 0 None 0 0 0 0 false) buffer_size None
    = Ok (0, st2)
    /\ ram_console_old_log st2 = Some (logical_content st1)
    /\ ram_console_old_log_size st2 = Buffer.size (buf st1).
Proof.
  intros Hecc Hlive Hbs Hbsz Hlen Hsig Hall Halloc Hrun.
  destruct (write_all_ok cfg rs ws st Hlive Hall)
    as (st1' & Hrun' & Hlive1 & Hbsz1 & _ & _ & Hsig1 & Hlen1).
  rewrite Hrun in Hrun'. injection Hrun' as <-.
  pose proof (old_window_logical_content cfg st1 Hlive1) as Hwin.
  destruct Hlive1 as [[Hb1 _] [Hst1 Hsz1]].
  unfold INT_MAX, sizeof_buffer in *.
  set (g := mk_ram_console (buf st1) 0 None 0 0 0 0 false).
  assert (config_ok cfg) as Hcfg by (unfold config_ok; by rewrite Hecc).
  assert (region_ok g buffer_size) as Hreg.
  { unfold region_ok, INT_MAX, sizeof_buffer, RAM_CONSOLE_SIG in *. simpl.
    repeat split; lia. }
  destruct (ram_console_init_layout_spec cfg rs g buffer_size init_rs_ok Hcfg Hreg)
    as [([Hins|[Hne _]] & _)|(_ & _ & g1 & Hlayout & Hlay1 & Hcap & _ & Hraw & _)].
  { unfold insufficient_capacity, sizeof_buffer in Hins. rewrite Hecc in Hins. lia. }
  { done. }
  specialize (Hraw Hecc). simpl in Hraw.
  unfold data_capacity, sizeof_buffer in Hcap. rewrite Hecc in Hcap.
  assert (old_buffer_valid g1 = true) as Hvalid.
  { unfold old_buffer_valid. rewrite Hraw, Hcap.
    rewrite !bool_decide_eq_true_2, !bool_decide_eq_false_2 by lia. done. }
  destruct (ram_console_save_old_spec cfg rs alloc g1 None)
    as (g2 & Hsave & _ & _ & _ & _ & _ & Hbuf2 & _ & Hlog);
    try done; try (rewrite Hraw; lia).
  cbv zeta in Hlog. specialize (Hbuf2 Hecc).
  assert (trailer cfg g2 = []) as Htr by (unfold trailer; by rewrite Hecc).
  rewrite Htr in Hlog. change (len []) with 0 in Hlog.
  rewrite Z.add_0_r, Hraw in Hlog.
  destruct Hlog as [(_ & Hnone & _)|(log & Hexact & Hlog & Hlogsz & _ & Htake)].
  { destruct (Halloc (Buffer.size (buf st1)) ltac:(lia)) as [d Hd]. congruence. }
  destruct (Hexact eq_refl) as [_ Hloglen].
  unfold ram_console_init. rewrite Hlayout, bind_Ok, Hvalid, Hsave, bind_Ok.
  eexists. split; [done|]. simpl. split; [|done].
  rewrite Hlog. f_equal.
  rewrite take_ge in Htake by (unfold len in *; lia).
  rewrite Htake, app_nil_r, Hbuf2, Hraw. done.
Qed.
(** ** The logical content as a queue *)

Lemma last_bytes_min a b (l : bytes) :
  0 <= a -> 0 <= b -> last_bytes a (last_bytes b l) = last_bytes (Z.min a b) l.
Proof.
  intros Ha Hb. unfold last_bytes, len.
  rewrite length_drop, drop_drop. f_equal. lia.
Qed.

Lemma last_bytes_app_tail k (x s : bytes) :
  0 <= k <= len x -> last_bytes k x ++ s = last_bytes (k + len s) (x ++ s).
Proof.
  intros Hk. unfold last_bytes. rewrite len_app. unfold len in *.
  rewrite drop_app_le by lia. do 2 f_equal. lia.
Qed.

(** The content after appending [s] to a ring of [bsz] bytes of which
    the last [size] are valid. *)
Lemma content_after_append bsz size (r s : bytes) :
  len r = bsz -> 0 <= size <= bsz ->
  last_bytes (Z.min (size + len s) bsz) (last_bytes bsz (r ++ s))
  = last_bytes bsz (last_bytes size r ++ s).
Proof.
  intros Hr Hsize. pose proof (len_nonneg s) as Hs.
  rewrite last_bytes_min by lia.
  rewrite last_bytes_app_tail by lia.
  rewrite last_bytes_min by lia.
  f_equal. lia.
Qed.

Lemma header_ok_size (cfg : config) (st : ram_console) :
  live_inv cfg st -> 0 <= Buffer.size (buf st) <= ram_console_buffer_size st.
Proof. intros [[Hb _] [Hst [->| ->]]]; lia. Qed.

Lemma logical_content_write (cfg : config) (rs : rs_codec) (st : ram_console)
    (s : bytes) :
  live_inv cfg st -> len s < 2 ^ 32 ->
  exists st',
    ram_console_write cfg rs st s (len s) = Ok st'
    /\ live_inv cfg st'
    /\ ram_console_buffer_size st' = ram_console_buffer_size st
    /\ Buffer.size (buf st')
       = Z.min (Buffer.size (buf st) + len s) (ram_console_buffer_size st)
    /\ logical_content st'
       = last_bytes (ram_console_buffer_size st) (logical_content st ++ s).
Proof.
  intros Hlive Hs.
  destruct (ram_console_write_ok cfg rs st s Hlive Hs)
    as (st' & Hw & Hlive' & Hbsz & _ & Hsize & Hring & _).
  exists st'. do 4 (split; [done|]).
  unfold logical_content. rewrite Hsize, Hring.
  apply content_after_append.
  - by apply (len_ring cfg).
  - by apply (header_ok_size cfg).
Qed.

Lemma logical_content_write_all (cfg : config) (rs : rs_codec) (st : ram_console)
    (ws : list bytes) :
  live_inv cfg st -> Forall (fun s => len s < 2 ^ 32) ws ->
  exists st',
    write_all cfg rs st ws = Ok st'
    /\ live_inv cfg st'
    /\ ram_console_buffer_size st' = ram_console_buffer_size st
    /\ Buffer.size (buf st')
       = Z.min (Buffer.size (buf st) + len (concat ws)) (ram_console_buffer_size st)
    /\ logical_content st'
       = last_bytes (ram_console_buffer_size st) (logical_content st ++ concat ws)
    /\ Buffer.sig (buf st') = Buffer.sig (buf st)
    /\ len (Buffer.data (buf st')) = len (Buffer.data (buf st)).
Proof.
  intros Hlive Hall.
  destruct (write_all_ok cfg rs ws st Hlive Hall)
    as (st' & Hw & Hlive' & Hbsz & Hsize & Hring & Hsig & Hlen).
  exists st'. do 4 (split; [done|]). split; [|done].
  unfold logical_content. rewrite Hsize, Hring.
  apply content_after_append.
  - by apply (len_ring cfg).
  - by apply (header_ok_size cfg).
Qed.

(** An empty store holds nothing. *)
Lemma logical_content_empty (cfg : config) (st : ram_console) :
  live_inv cfg st -> Buffer.size (buf st) = 0 -> logical_content st = [].
Proof.
  intros Hlive Hsz. unfold logical_content, last_bytes. rewrite Hsz, Z.sub_0_r.
  unfold len. rewrite Nat2Z.id. apply drop_all.
Qed.
(** ** What the initialisation stores to *)

Section InitFrame.
Context (cfg : config) (rs : rs_codec).

(** [ram_console_save_old] leaves the region as its decoding pass
    leaves it. *)
Lemma ram_console_save_old_buf alloc st dest st' :
  ram_console_save_old cfg rs alloc st dest = Ok st' ->
  exists st1 tr,
    save_old_decode cfg rs st = Ok (st1, tr)
    /\ buf st' = buf st1
    /\ ram_console_buffer_size st' = ram_console_buffer_size st1
    /\ ram_console_corrected_bytes st' = ram_console_corrected_bytes st1
    /\ ram_console_bad_blocks st' = ram_console_bad_blocks st1.
Proof.
  unfold ram_console_save_old.
  destruct (save_old_decode cfg rs st) as [[st1 tr]| |]; [|done..].
  rewrite bind_Ok. cbv beta iota. intros H. exists st1, tr. split; [done|].
  destruct (match dest with Some d => Some d | None => _ end) as [d|].
  2: { injection H as <-. done. }
  repeat (apply result_bind_ok in H as (? & _ & H)).
  injection H as <-. done.
Qed.

Lemma save_old_decode_frame st st1 tr :
  layout_ok cfg st ->
  0 <= Buffer.size (buf st) <= ram_console_buffer_size st ->
  save_old_decode cfg rs st = Ok (st1, tr) ->
  same_except (fun i => i < ram_console_buffer_size st)
    (Buffer.data (buf st)) (Buffer.data (buf st1))
  /\ (ecc cfg = None -> st1 = st).
Proof.
  intros Hlay Hsize. unfold save_old_decode.
  pose proof Hlay as [Hb Hl]. unfold INT_MAX in *.
  destruct (ecc cfg) as [e|] eqn:Hecc.
  2: { intros [= <- <-]. split; [apply same_except_refl|done]. }
  destruct Hl as (Hok & Hpar & Hl). pose proof Hok as (HE & HEB & _).
  destruct (decode_blocks_ok cfg rs e (ram_console_buffer_size st)
              (Buffer.size (buf st)) (Z.to_nat (Buffer.size (buf st))) 0
              (Buffer.data (buf st)) (ram_console_corrected_bytes st)
              (ram_console_bad_blocks st))
    as (m' & c' & b' & Hrun & Hsame); try done; try lia.
  { rewrite Z2Nat.id by lia. nia. }
  rewrite Z.mul_0_l, Z.add_0_r in Hrun. rewrite Hpar, Hrun, bind_Ok.
  cbv beta iota. intros [= <- <-]. simpl. done.
Qed.

(** A call of [ram_console_init] on a mapped region returns 0, and of
    the bytes behind the header it can change only those of the log
    area, by the decoder's corrections: none without error correction,
    and none at or behind the capacity. *)
Lemma ram_console_init_frame alloc init_rs_ok st buffer_size old_buf :
  config_ok cfg -> region_ok st buffer_size -> old_buf_ok old_buf buffer_size ->
  exists st',
    ram_console_init cfg rs alloc init_rs_ok st buffer_size old_buf = Ok (0, st')
    /\ same_except (fun i => i < data_capacity cfg buffer_size)
         (Buffer.data (buf st)) (Buffer.data (buf st'))
    /\ (ecc cfg = None -> Buffer.data (buf st') = Buffer.data (buf st)).
Proof.
  intros Hcfg Hreg Hdest.
  destruct (ram_console_init_layout_spec cfg rs st buffer_size init_rs_ok Hcfg Hreg)
    as [(_ & st0 & Hl & Hbuf & _)
       |(Hroom & Hrs & st1 & Hlayout & Hlay1 & Hbsz1 & Hdata1 & Hraw1
         & Hstart1 & Hsize1 & _)].
  { unfold ram_console_init. rewrite Hl, bind_Ok.
    exists st0. split; [done|]. rewrite Hbuf.
    split; [apply same_except_refl|done]. }
  destruct (ram_console_init_tail cfg rs alloc init_rs_ok st buffer_size old_buf st1)
    as (st2 & Hsave & _ & _ & _ & Hinit); try done; try lia.
  { unfold old_buf_ok in Hdest. destruct old_buf; [|done].
    destruct Hlay1 as [Hb _].
    assert (ram_console_buffer_size st1 <= buffer_size); [|lia].
    rewrite Hbsz1. unfold data_capacity, sizeof_buffer, config_ok in *.
    destruct (ecc cfg) as [e|]; [|lia].
    destruct Hreg as [Hbs _].
    unfold insufficient_capacity, sizeof_buffer in Hroom.
    pose proof (parity_table_size_bound e (buffer_size - 12) Hcfg ltac:(lia)). lia. }
  eexists. split; [exact Hinit|]. simpl.
  destruct (old_buffer_valid st1) eqn:Hvalid.
  2: { subst st2. rewrite Hdata1. split; [apply same_except_refl|done]. }
  apply old_buffer_valid_true in Hvalid as (_ & Hsz & Hle).
  apply ram_console_save_old_buf in Hsave
    as (st1' & tr & Hdec & Hbuf2 & _).
  apply save_old_decode_frame in Hdec as [Hsame Hnone]; [|done|lia].
  rewrite Hbuf2, <- Hdata1, <- Hbsz1. split; [done|].
  intros Hecc. by rewrite (Hnone Hecc).
Qed.
End InitFrame.
(** ** Parity kept up to date by the writes *)

Section Fresh.
Context (cfg : config) (rs : rs_codec).

Lemma in_slot_inj e bsz k k' i :
  0 < ECC_SIZE e -> in_slot e bsz k i -> in_slot e bsz k' i -> k = k'.
Proof. unfold in_slot. intros HE H1 H2. nia. Qed.

(** A block that a write does not encode keeps its bytes and its
    parity segment. *)
Lemma unwritten_block_untouched e st n k :
  ecc cfg = Some e -> layout_ok cfg st ->
  0 <= Buffer.start (buf st) -> 0 <= n -> 0 <= k ->
  k * ECC_BLOCK_SIZE e < ram_console_buffer_size st ->
  k <> Buffer.start (buf st) / ECC_BLOCK_SIZE e ->
  ~ (Buffer.start (buf st) <= k * ECC_BLOCK_SIZE e
       < Z.min (Buffer.start (buf st) + n) (ram_console_buffer_size st)) ->
  ~ (k * ECC_BLOCK_SIZE e
       < Buffer.start (buf st) + n - ram_console_buffer_size st) ->
  (forall i,
     k * ECC_BLOCK_SIZE e <= i
       < k * ECC_BLOCK_SIZE e + block_len e (ram_console_buffer_size st) k ->
     ~ write_footprint cfg st n i)
  /\ (forall i,
        in_slot e (ram_console_buffer_size st) k i -> ~ write_footprint cfg st n i).
Proof.
  intros Hecc Hlay Hst Hn Hk HkB Hne H1 H2.
  pose proof Hlay as [Hb Hl]. rewrite Hecc in Hl.
  destruct Hl as ((HE & HEB & _) & _ & _).
  set (B := ECC_BLOCK_SIZE e) in *. set (bsz := ram_console_buffer_size st) in *.
  set (start := Buffer.start (buf st)) in *.
  assert (0 < B) as HB by lia.
  pose proof (Z.mul_div_le start B HB) as Hd1.
  pose proof (Z.mod_pos_bound start B HB) as Hd2.
  pose proof (Z.div_mod start B ltac:(lia)) as Hd3.
  assert (forall p, written_range st n p -> p / B <> k) as Hnot.
  { intros p Hp Hpk. unfold written_range in Hp. fold start bsz in Hp.
    pose proof (Z.mul_div_le p B HB) as Hp1.
    pose proof (Z.mod_pos_bound p B HB) as Hp2.
    pose proof (Z.div_mod p B ltac:(lia)) as Hp3.
    rewrite Hpk in *.
    destruct Hp as [Hp|Hp].
    - assert (start / B <= k) by (rewrite <- Hpk; apply Z.div_le_mono; lia).
      assert (start / B + 1 <= k) by lia.
      assert (start < k * B) by nia.
      apply H1. nia.
    - apply H2. nia. }
  split.
  - intros i Hi Hf. unfold block_len in Hi. fold B bsz in Hi.
    unfold write_footprint in Hf. rewrite Hecc in Hf.
    destruct Hf as [Hw|(k' & Hk' & Hslot)].
    + apply (Hnot i Hw). symmetry. apply Z.div_unique with (i - k * B); lia.
    + unfold in_slot in Hslot. fold bsz start B in Hslot, Hk'.
      assert (0 <= k') as Hk'0.
      { destruct Hk' as [->|[->|(p & Hp & <-)]].
        - apply Z.div_pos; lia.
        - apply Z.div_pos; lia.
        - apply Z.div_pos; [|lia]. unfold written_range in Hp.
          fold start in Hp. lia. }
      assert (0 <= k' * ECC_SIZE e) by nia. lia.
  - intros i Hi Hf. unfold write_footprint in Hf. rewrite Hecc in Hf.
    fold bsz start B in Hf.
    assert (0 <= k * ECC_SIZE e) by nia.
    destruct Hf as [Hw|(k' & Hk' & Hslot)].
    + unfold written_range in Hw. unfold in_slot in Hi. fold start bsz in Hw, Hi.
      lia.
    + rewrite <- (in_slot_inj e bsz k k' i HE Hi Hslot) in Hk'.
      destruct Hk' as [Hh|[Hs|(p & Hp & Hpk)]].
      * unfold header_slot in Hh. fold B in Hh.
        assert (bsz <= (bsz + B - 1) / B * B); [|nia].
        pose proof (Z.mod_pos_bound (bsz + B - 1) B HB).
        pose proof (Z.div_mod (bsz + B - 1) B ltac:(lia)). nia.
      * done.
      * by apply (Hnot p).
Qed.

(** A write keeps the parity of the blocks below [size] up to date,
    and leaves the parity of the header up to date. *)
Lemma ram_console_write_fresh e st s st' :
  ecc cfg = Some e -> live_inv cfg st -> len s < 2 ^ 32 ->
  blocks_fresh rs e st ->
  ram_console_write cfg rs st s (len s) = Ok st' ->
  blocks_fresh rs e st' /\ header_fresh rs e st'.
Proof.
  intros Hecc Hlive Hs Hfresh Hw.
  destruct (ram_console_write_spec cfg rs st s Hlive Hs)
    as (d' & Hrun & Hsame & _ & Hpar).
  cbv zeta in Hrun, Hsame, Hpar. rewrite Hecc in Hpar.
  rewrite Hw in Hrun. injection Hrun as ->.
  destruct Hpar as [Hblocks Hhdr].
  destruct Hlive as [Hlay [Hst Hsz]].
  pose proof Hlay as [Hb Hl]. rewrite Hecc in Hl.
  destruct Hl as (Hok & _ & _). pose proof Hok as (HE & HEB & _).
  pose proof (len_nonneg s) as Hs0.
  unfold blocks_fresh, header_fresh. simpl. split; [|exact Hhdr].
  set (bsz := ram_console_buffer_size st) in *.
  set (start := Buffer.start (buf st)) in *.
  set (m := Z.min (len s) bsz) in *.
  intros k Hk HkB.
  destruct (decide (k = start / ECC_BLOCK_SIZE e)) as [Hk0|Hk0].
  { apply Hblocks; [lia|by left]. }
  destruct (decide (start <= k * ECC_BLOCK_SIZE e < Z.min (start + m) bsz))
    as [Hin|Hout].
  { apply Hblocks; [lia|]. right. exists (k * ECC_BLOCK_SIZE e). split.
    - left. done.
    - apply Z.div_mul. lia. }
  destruct (decide (k * ECC_BLOCK_SIZE e < start + m - bsz)) as [Hin2|Hout2].
  { apply Hblocks; [lia|]. right. exists (k * ECC_BLOCK_SIZE e). split.
    - right. nia.
    - apply Z.div_mul. lia. }
  destruct (unwritten_block_untouched e st m k) as [Hdata Hslot];
    try done; try lia.
  apply (parity_fresh_same_except rs _ e bsz _ _ k Hsame); try done; try lia.
  apply Hfresh; [done|]. fold bsz start. lia.
Qed.

(** After a sequence of at least one write, the parity of the blocks
    below [size] and of the header is up to date. *)
Lemma write_all_fresh e ws : forall st st',
  ecc cfg = Some e -> live_inv cfg st ->
  Forall (fun s => len s < 2 ^ 32) ws ->
  blocks_fresh rs e st ->
  write_all cfg rs st ws = Ok st' ->
  blocks_fresh rs e st' /\ (ws <> [] -> header_fresh rs e st').
Proof.
  induction ws as [|s ws IH]; intros st st' Hecc Hlive Hall Hfresh Hrun.
  { injection Hrun as <-. done. }
  inversion_clear Hall as [|? ? Hs Hall'].
  cbn [write_all] in Hrun. apply result_bind_ok in Hrun as (st1 & Hw & Hrun).
  destruct (ram_console_write_fresh e st s st1 Hecc Hlive Hs Hfresh Hw)
    as [Hfresh1 Hhdr1].
  destruct (ram_console_write_ok cfg rs st s Hlive Hs) as (st1' & Hw' & Hlive1 & _).
  rewrite Hw in Hw'. injection Hw' as <-.
  destruct (IH st1 st' Hecc Hlive1 Hall' Hfresh1 Hrun) as [Hfresh' Hhdr'].
  split; [done|]. intros _.
  destruct ws as [|s2 ws]; [|by apply Hhdr'].
  injection Hrun as <-. done.
Qed.
End Fresh.
(** ** Decoding what the writes encoded *)

Lemma of_le32_le32 x (l : bytes) : 0 <= x < 2 ^ 32 -> of_le32 (take 4 (le32 x ++ l)) = x.
Proof.
  intros Hx. unfold le32. cbn [app take nth of_le32].
  unfold of_le32. cbn [nth].
  rewrite u32_small.
  - pose proof (Z.div_mod x 256 ltac:(lia)).
    pose proof (Z.div_mod (x / 2 ^ 8) 256 ltac:(lia)).
    pose proof (Z.div_mod (x / 2 ^ 16) 256 ltac:(lia)).
    replace (x / 2 ^ 16) with (x / 2 ^ 8 / 256) in *
      by (rewrite Z.div_div by lia; done).
    replace (x / 2 ^ 24) with (x / 2 ^ 8 / 256 / 256) in *
      by (rewrite !Z.div_div by lia; done).
    assert (x / 2 ^ 8 / 256 / 256 < 256).
    { apply Z.div_lt_upper_bound; [lia|].
      apply Z.div_lt_upper_bound; [lia|].
      apply Z.div_lt_upper_bound; lia. }
    assert (0 <= x / 2 ^ 8 / 256 / 256) by (repeat apply Z.div_pos; lia).
    rewrite (Z.mod_small (x / 2 ^ 8 / 256 / 256)) by lia.
    change (2 ^ 8) with 256 in *. lia.
  - pose proof (Z.mod_pos_bound x 256 ltac:(lia)).
    pose proof (Z.mod_pos_bound (x / 2 ^ 8) 256 ltac:(lia)).
    pose proof (Z.mod_pos_bound (x / 2 ^ 16) 256 ltac:(lia)).
    pose proof (Z.mod_pos_bound (x / 2 ^ 24) 256 ltac:(lia)).
    lia.
Qed.

(** Reading the header back from its bytes gives the header. *)
Lemma set_header_bytes_header_bytes (b : ram_console_buffer) :
  0 <= Buffer.sig b < 2 ^ 32 -> 0 <= Buffer.start b < 2 ^ 32 ->
  0 <= Buffer.size b < 2 ^ 32 ->
  set_header_bytes b (header_bytes b) = b.
Proof.
  intros Hg Hs Hn. unfold set_header_bytes, header_bytes.
  rewrite (of_le32_le32 (Buffer.sig b)) by done.
  change (drop 4 (le32 (Buffer.sig b) ++ ?l)) with l.
  rewrite (of_le32_le32 (Buffer.start b)) by done.
  change (drop 8 (le32 (Buffer.sig b) ++ le32 (Buffer.start b) ++ ?l)) with l.
  rewrite <- (app_nil_r (le32 (Buffer.size b))).
  rewrite (of_le32_le32 (Buffer.size b)) by done.
  by destruct b.
Qed.

Lemma mem_write_self (m : bytes) off n :
  0 <= off -> 0 <= n -> off + n <= len m ->
  mem_write m off (take (Z.to_nat n) (drop (Z.to_nat off) m)) = Ok m.
Proof.
  intros Hoff Hn Hlen.
  assert (len (take (Z.to_nat n) (drop (Z.to_nat off) m)) = n) as Hl.
  { rewrite len_take; [done|]. rewrite len_drop; lia. }
  rewrite mem_write_ok by lia. f_equal.
  replace (length (take (Z.to_nat n) (drop (Z.to_nat off) m))) with (Z.to_nat n)
    by (unfold len in Hl; lia).
  rewrite <- drop_drop, take_drop. apply take_drop.
Qed.

Section Clean.
Context (cfg : config) (rs : rs_codec).

(** On blocks whose parity is up to date, the decoding pass of
    [ram_console_save_old] changes nothing and counts nothing. *)
Lemma decode_blocks_clean e bsz lim fuel : forall k m c b,
  decodes_clean rs e ->
  ecc_params_ok e -> 0 <= bsz <= INT_MAX -> lim <= bsz -> 0 <= k ->
  bsz + parity_table_size e bsz <= len m ->
  lim <= (k + Z.of_nat fuel) * ECC_BLOCK_SIZE e ->
  (forall j, k <= j -> j * ECC_BLOCK_SIZE e < lim -> parity_fresh rs e bsz m j) ->
  decode_blocks cfg rs e fuel bsz lim m c b (k * ECC_BLOCK_SIZE e)
    (bsz + k * ECC_SIZE e) = Ok (m, c, b).
Proof.
  unfold INT_MAX.
  induction fuel as [|fuel IH]; intros k m c b Hclean Hok Hbsz Hlim Hk Hm Hfuel Hfresh;
    pose proof Hok as (HE & HEB & H255 & _).
  { simpl. rewrite bool_decide_eq_false_2 by lia. done. }
  simpl decode_blocks. case_bool_decide as Hmore; [|done].
  assert (0 <= k * ECC_BLOCK_SIZE e) as HkB0 by nia.
  assert (0 <= k * ECC_SIZE e) as HkE0 by nia.
  assert ((if bool_decide (k * ECC_BLOCK_SIZE e + ECC_BLOCK_SIZE e > bsz)
           then s32 (bsz - k * ECC_BLOCK_SIZE e) else ECC_BLOCK_SIZE e)
          = block_len e bsz k) as ->.
  { unfold block_len. case_bool_decide; [rewrite s32_small by lia|]; lia. }
  assert (0 <= block_len e bsz k <= ECC_BLOCK_SIZE e
          /\ k * ECC_BLOCK_SIZE e + block_len e bsz k <= bsz) as (Hsz & Hin).
  { unfold block_len. lia. }
  pose proof (block_below_table e bsz k ltac:(lia) HE ltac:(lia)) as Hslot.
  rewrite usize_small by lia.
  rewrite mem_read_ok by lia.
  rewrite mem_read_ok by lia.
  fold (block_data e bsz m k). fold (slot_bytes e bsz m k).
  rewrite (Hfresh k ltac:(lia) Hmore), !bind_Ok.
  unfold ram_console_decode_rs8. rewrite Hclean.
  unfold block_data. rewrite mem_write_self by lia. rewrite bind_Ok.
  rewrite bool_decide_eq_false_2, bool_decide_eq_false_2 by lia.
  replace (k * ECC_BLOCK_SIZE e + ECC_BLOCK_SIZE e)
    with ((k + 1) * ECC_BLOCK_SIZE e) by lia.
  replace (bsz + k * ECC_SIZE e + ECC_SIZE e)
    with (bsz + (k + 1) * ECC_SIZE e) by lia.
  apply IH; try done; try lia.
  intros j Hj. apply Hfresh. lia.
Qed.

Lemma save_old_decode_clean e st :
  ecc cfg = Some e -> decodes_clean rs e -> layout_ok cfg st ->
  0 <= Buffer.size (buf st) <= ram_console_buffer_size st ->
  blocks_fresh rs e st ->
  save_old_decode cfg rs st
  = Ok (set_counters (set_buf st (set_data (buf st) (Buffer.data (buf st))))
          (ram_console_corrected_bytes st) (ram_console_bad_blocks st),
        diag_line (ram_console_corrected_bytes st) (ram_console_bad_blocks st)).
Proof.
  intros Hecc Hclean Hlay Hsize Hfresh. unfold save_old_decode. rewrite Hecc.
  pose proof Hlay as [Hb Hl]. rewrite Hecc in Hl.
  destruct Hl as (Hok & Hpar & Hl). pose proof Hok as (HE & HEB & _).
  rewrite Hpar.
  replace 0 with (0 * ECC_BLOCK_SIZE e) at 1 by lia.
  replace (ram_console_buffer_size st)
    with (ram_console_buffer_size st + 0 * ECC_SIZE e) at 2 by lia.
  rewrite decode_blocks_clean; try done; try lia.
  rewrite Z2Nat.id by lia. nia.
Qed.
End Clean.
Section CleanInit.
Context (cfg : config) (rs : rs_codec).

(** With error correction, on a region whose header has its parity:
    the first part of [ram_console_init] finds the header as it is in
    the region, and counts no error. *)
Lemma ram_console_init_layout_clean e st buffer_size :
  ecc cfg = Some e -> ecc_params_ok e -> region_ok st buffer_size ->
  ~ insufficient_capacity cfg buffer_size -> decodes_clean rs e ->
  slot_bytes e (data_capacity cfg buffer_size) (Buffer.data (buf st))
    (header_slot e (data_capacity cfg buffer_size))
  = ram_console_encode_rs8 rs e (header_bytes (buf st)) ->
  exists st1,
    ram_console_init_layout cfg rs st buffer_size true = Ok (inr st1)
    /\ buf st1 = buf st
    /\ ram_console_buffer_size st1 = data_capacity cfg buffer_size
    /\ ram_console_corrected_bytes st1 = 0
    /\ ram_console_bad_blocks st1 = 0
    /\ layout_ok cfg st1.
Proof.
  intros Hecc Hcfg (Hbs & Hmap & Hsig & Hstart & Hsize) Hroom Hclean Hhdr.
  unfold insufficient_capacity, data_capacity, layout_ok,
    ram_console_init_layout, INT_MAX, sizeof_buffer in *.
  rewrite Hecc in *.
  cbn [ram_console_buffer_size set_buffer_size].
  rewrite (usize_small _ (buffer_size - 12)) by lia.
  rewrite bool_decide_eq_false_2 by lia.
  specialize (Hmap ltac:(lia)).
  pose proof Hcfg as (HE & HEB & H255 & _).
  pose proof (parity_table_size_bound e (buffer_size - 12) Hcfg ltac:(lia)) as Hpts.
  cbn [ram_console_buffer_size set_buffer_size].
  unfold DIV_ROUND_UP.
  rewrite !(usize_small _ (buffer_size - 12 + ECC_BLOCK_SIZE e - 1)) by lia.
  fold (parity_table_size e (buffer_size - 12)).
  rewrite !(usize_small _ (parity_table_size e (buffer_size - 12))) by lia.
  set (need := parity_table_size e (buffer_size - 12)) in *.
  rewrite !(usize_small _ (buffer_size - 12 - need)) by lia.
  rewrite bool_decide_eq_false_2 by lia.
  cbn [ram_console_buffer_size ram_console_par_buffer set_par_buffer
       set_buffer_size set_counters buf negb].
  set (bsz := buffer_size - 12 - need) in *.
  pose proof (parity_table_size_mono e bsz (buffer_size - 12) Hcfg ltac:(lia)) as Hmono.
  fold need in Hmono.
  pose proof (parity_table_size_bound e bsz Hcfg ltac:(lia)) as Hpts'.
  rewrite (usize_small _ (bsz + ECC_BLOCK_SIZE e - 1)) by lia.
  fold (header_slot e bsz).
  assert (0 <= header_slot e bsz * ECC_SIZE e
          /\ (header_slot e bsz + 1) * ECC_SIZE e = parity_table_size e bsz)
    as [Hh0 Hh].
  { split; [|done]. unfold header_slot.
    assert (0 <= (bsz + ECC_BLOCK_SIZE e - 1) / ECC_BLOCK_SIZE e)
      by (apply Z.div_pos; lia). nia. }
  rewrite (usize_small _ (header_slot e bsz * ECC_SIZE e)) by lia.
  rewrite mem_read_ok by lia. rewrite bind_Ok.
  fold (slot_bytes e bsz (Buffer.data (buf st)) (header_slot e bsz)).
  rewrite Hhdr. unfold ram_console_decode_rs8. rewrite Hclean.
  rewrite set_header_bytes_header_bytes by done.
  rewrite !bool_decide_eq_false_2 by lia.
  eexists. split; [done|]. cbn.
  do 4 (split; [done|]).
  split; [lia|]. split; [done|]. split; [done|]. lia.
Qed.
End CleanInit.
(** ** Reading the recovered log *)

Lemma ram_console_read_old_ok (cfg : config) (st : ram_console) (log : bytes)
    (length pos : Z) :
  ram_console_old_log st = Some log ->
  0 <= ram_console_old_log_size st <= len log ->
  ram_console_old_log_size st < 2 ^ 32 ->
  0 <= length < 2 ^ 31 -> 0 <= pos < 2 ^ 63 ->
  let n := if bool_decide (pos < ram_console_old_log_size st)
           then Z.min length (ram_console_old_log_size st - pos) else 0 in
  ram_console_read_old cfg st true length pos
  = Ok (n, take (Z.to_nat n) (drop (Z.to_nat pos) log), pos + n).
Proof.
  intros Hlog Hsz Hsz32 Hlen Hpos n.
  unfold ram_console_read_old.
  assert ((match cfg_abi cfg with
           | ILP32 => bool_decide (pos >= ram_console_old_log_size st)
           | LP64 => bool_decide (u64 pos >= ram_console_old_log_size st)
           end) = negb (bool_decide (pos < ram_console_old_log_size st))) as ->.
  { destruct (cfg_abi cfg).
    - repeat case_bool_decide; simpl; (done || lia).
    - unfold u64. rewrite wrap_unsigned_small by lia.
      repeat case_bool_decide; simpl; (done || lia). }
  unfold n. case_bool_decide as Hin; simpl.
  - rewrite (usize_small _ (_ - pos)) by lia.
    rewrite ssize_small by lia. rewrite usize_small by lia.
    rewrite Hlog. rewrite mem_read_ok by lia. rewrite bind_Ok.
    unfold s64. rewrite wrap_signed_small by lia. done.
  - rewrite take_0. do 3 f_equal. lia.
Qed.

Lemma read_all_from (cfg : config) (st : ram_console) (log : bytes)
    (length : Z) (fuel : nat) : forall pos,
  ram_console_old_log st = Some log ->
  0 <= ram_console_old_log_size st <= len log ->
  ram_console_old_log_size st < 2 ^ 32 ->
  0 < length < 2 ^ 31 -> 0 <= pos <= ram_console_old_log_size st ->
  ram_console_old_log_size st - pos < Z.of_nat fuel ->
  read_all cfg st true fuel length pos
  = Ok (take (Z.to_nat (ram_console_old_log_size st - pos))
          (drop (Z.to_nat pos) log),
        ram_console_old_log_size st).
Proof.
  induction fuel as [|fuel IH]; intros pos Hlog Hsz Hsz32 Hlen Hpos Hfuel; [lia|].
  cbn [read_all].
  assert (0 <= pos < 2 ^ 63) as Hpos63 by lia.
  assert (0 <= length < 2 ^ 31) as Hlen' by lia.
  rewrite (ram_console_read_old_ok cfg st log length pos Hlog Hsz Hsz32 Hlen' Hpos63).
  rewrite bind_Ok. cbv beta iota.
  destruct (decide (pos < ram_console_old_log_size st)) as [Hin|Hin].
  - rewrite (bool_decide_eq_true_2 (pos < _)) by done.
    set (n := Z.min length (ram_console_old_log_size st - pos)).
    rewrite (bool_decide_eq_false_2 (n <= 0)) by lia.
    rewrite (IH (pos + n)) by (done || lia).
    rewrite bind_Ok. cbv beta iota. f_equal. f_equal.
    replace (Z.to_nat (pos + n)) with (Z.to_nat pos + Z.to_nat n)%nat by lia.
    rewrite <- drop_drop.
    replace (Z.to_nat (ram_console_old_log_size st - pos))
      with (Z.to_nat n + Z.to_nat (ram_console_old_log_size st - (pos + n)))%nat
      by lia.
    by rewrite take_take_drop.
  - rewrite (bool_decide_eq_false_2 (pos < _)) by done.
    rewrite (bool_decide_eq_true_2 (0 <= 0)) by lia.
    replace (ram_console_old_log_size st - pos) with 0 by lia.
    rewrite take_0. do 2 f_equal. lia.
Qed.

(** ** The console flags *)

Lemma s16_range x : - 2 ^ 15 <= s16 x < 2 ^ 15.
Proof.
  unfold s16, wrap_signed.
  pose proof (Z.mod_pos_bound (x + 2 ^ (16 - 1)) (2 ^ 16) ltac:(lia)).
  change (2 ^ (16 - 1)) with (2 ^ 15) in *. lia.
Qed.

Lemma s16_testbit x i : 0 <= i < 16 -> Z.testbit (s16 x) i = Z.testbit x i.
Proof.
  intros Hi.
  rewrite <- (Z.mod_pow2_bits_low (s16 x) 16 i) by lia.
  rewrite <- (Z.mod_pow2_bits_low x 16 i) by lia.
  f_equal. unfold s16, wrap_signed. change (2 ^ (16 - 1)) with (2 ^ 15).
  rewrite Zminus_mod, Zmod_mod, <- Zminus_mod. f_equal. lia.
Qed.

Lemma s16_eq x y :
  (forall i, 0 <= i < 16 -> Z.testbit x i = Z.testbit y i) -> s16 x = s16 y.
Proof.
  intros H. unfold s16, wrap_signed. f_equal.
  change (2 ^ (16 - 1)) with (2 ^ 15).
  rewrite (Zplus_mod x), (Zplus_mod y). do 2 f_equal.
  apply Z.bits_inj'. intros i Hi.
  destruct (decide (i < 16)).
  - rewrite !Z.mod_pow2_bits_low by lia. apply H. lia.
  - rewrite !Z.mod_pow2_bits_high by lia. done.
Qed.
(** ** What the decoding pass computes *)

Section Decode.
Context (cfg : config) (rs : rs_codec).

Lemma blocks_below_spec e lim k :
  0 < ECC_BLOCK_SIZE e -> (k * ECC_BLOCK_SIZE e < lim <-> k < blocks_below e lim).
Proof.
  intros HB. unfold blocks_below.
  pose proof (Z.div_mod (lim + ECC_BLOCK_SIZE e - 1) (ECC_BLOCK_SIZE e) ltac:(lia)).
  pose proof (Z.mod_pos_bound (lim + ECC_BLOCK_SIZE e - 1) (ECC_BLOCK_SIZE e) HB).
  split; intros; nia.
Qed.

Lemma decoded_block_same_except (P : Z -> Prop) e bsz m m' j :
  same_except P m m' -> ecc_params_ok e -> 0 <= j -> 0 <= bsz ->
  (forall i, j * ECC_BLOCK_SIZE e <= i < j * ECC_BLOCK_SIZE e + block_len e bsz j ->
     ~ P i) ->
  (forall i, bsz <= i -> ~ P i) ->
  decoded_block rs e bsz m' j = decoded_block rs e bsz m j.
Proof.
  intros Hsame (HE & HEB & _) Hj Hbsz Hdata Hslot. unfold decoded_block.
  f_equal.
  - unfold block_data. apply (same_except_sub P); [done|nia|].
    intros i Hi. apply Hdata. lia.
  - unfold slot_bytes. apply (same_except_sub P); [done|nia|].
    intros i Hi. apply Hslot. nia.
Qed.

(** The blocks are decoded independently: each one from its bytes and
    its parity segment as found; the counters add up the results. *)
Lemma decode_blocks_spec e bsz lim fuel : forall k m c b,
  ecc_params_ok e -> 0 <= bsz <= INT_MAX -> lim <= bsz -> 0 <= k ->
  bsz + parity_table_size e bsz <= len m ->
  lim <= (k + Z.of_nat fuel) * ECC_BLOCK_SIZE e ->
  exists m' c' b',
    decode_blocks cfg rs e fuel bsz lim m c b (k * ECC_BLOCK_SIZE e)
      (bsz + k * ECC_SIZE e) = Ok (m', c', b')
    /\ same_except
         (fun i => k * ECC_BLOCK_SIZE e <= i < bsz
                   /\ i < blocks_below e lim * ECC_BLOCK_SIZE e) m m'
    /\ (forall j, k <= j -> j * ECC_BLOCK_SIZE e < lim ->
          block_data e bsz m' j = (decoded_block rs e bsz m j).2)
    /\ (c', b')
       = foldl tally (c, b)
           (map (fun j => (decoded_block rs e bsz m j).1)
              (seqZ k (blocks_below e lim - k))).
Proof.
  unfold INT_MAX.
  induction fuel as [|fuel IH]; intros k m c b Hok Hbsz Hlim Hk Hm Hfuel;
    pose proof Hok as (HE & HEB & H255 & _).
  { simpl. rewrite bool_decide_eq_false_2 by lia.
    exists m, c, b. split; [done|]. split; [apply same_except_refl|].
    split; [intros; nia|].
    assert (~ k < blocks_below e lim) by (rewrite <- blocks_below_spec; lia).
    rewrite seqZ_nil by lia. done. }
  simpl decode_blocks. case_bool_decide as Hmore.
  2: { exists m, c, b. split; [done|]. split; [apply same_except_refl|].
       split; [intros; nia|].
       assert (~ k < blocks_below e lim) by (rewrite <- blocks_below_spec; lia).
       rewrite seqZ_nil by lia. done. }
  assert (k < blocks_below e lim) as Hknb by (rewrite <- blocks_below_spec; lia).
  assert (0 <= k * ECC_BLOCK_SIZE e) as HkB0 by nia.
  assert (0 <= k * ECC_SIZE e) as HkE0 by nia.
  assert ((if bool_decide (k * ECC_BLOCK_SIZE e + ECC_BLOCK_SIZE e > bsz)
           then s32 (bsz - k * ECC_BLOCK_SIZE e) else ECC_BLOCK_SIZE e)
          = block_len e bsz k) as ->.
  { unfold block_len. case_bool_decide; [rewrite s32_small by lia|]; lia. }
  assert (0 <= block_len e bsz k <= ECC_BLOCK_SIZE e
          /\ k * ECC_BLOCK_SIZE e + block_len e bsz k <= bsz) as (Hsz & Hin).
  { unfold block_len. lia. }
  pose proof (block_below_table e bsz k ltac:(lia) HE ltac:(lia)) as Hslot.
  rewrite usize_small by lia.
  rewrite mem_read_ok by lia.
  rewrite mem_read_ok by lia.
  fold (block_data e bsz m k). fold (slot_bytes e bsz m k).
  rewrite !bind_Ok. unfold ram_console_decode_rs8.
  fold (decoded_block rs e bsz m k).
  assert (len (block_data e bsz m k) = block_len e bsz k) as Hd.
  { unfold block_data. rewrite len_take; [done|]. rewrite len_drop; lia. }
  pose proof (decode_rs8_length rs (block_data e bsz m k) (slot_bytes e bsz m k))
    as Hlen.
  fold (decoded_block rs e bsz m k) in Hlen.
  destruct (decoded_block rs e bsz m k) as [numerr d'] eqn:Hdec. simpl in Hlen.
  assert (len d' = block_len e bsz k) as Hd' by (unfold len in *; lia).
  destruct (mem_write m (k * ECC_BLOCK_SIZE e) d') as [m1| |] eqn:Hw;
    [|unfold mem_write in Hw; rewrite bool_decide_eq_true_2 in Hw by lia; done..].
  rewrite bind_Ok.
  pose proof (mem_write_read _ _ _ _ Hw) as Hread.
  apply mem_write_same_except in Hw. rewrite Hd' in Hw.
  change (if bool_decide (numerr > 0) then (s32 (c + numerr), b)
          else if bool_decide (numerr < 0) then (c, s32 (b + 1)) else (c, b))
    with (tally (c, b) numerr).
  destruct (tally (c, b) numerr) as [c1 b1] eqn:Htally.
  replace (k * ECC_BLOCK_SIZE e + ECC_BLOCK_SIZE e)
    with ((k + 1) * ECC_BLOCK_SIZE e) by lia.
  replace (bsz + k * ECC_SIZE e + ECC_SIZE e)
    with (bsz + (k + 1) * ECC_SIZE e) by lia.
  destruct (IH (k + 1) m1 c1 b1) as (m' & c' & b' & Hrun & Hsame & Hblocks & Hcount);
    try done; try lia.
  { destruct Hw as [-> _]. done. }
  assert (forall j, k + 1 <= j ->
            decoded_block rs e bsz m1 j = decoded_block rs e bsz m j) as Hlater.
  { intros j Hj. apply (decoded_block_same_except _ e bsz m m1 j Hw); try done; try lia.
    intros i Hi. unfold block_len in Hi. nia. }
  exists m', c', b'. split; [done|]. split; [|split].
  - eapply same_except_weaken;
      [|exact (same_except_trans _ _ _ _ _ Hw Hsame)].
    intros i Hi [?|?]; [|lia]. split; [lia|nia].
  - intros j Hj HjB. destruct (decide (j = k)) as [->|Hne].
    + rewrite Hdec. simpl. unfold block_data.
      rewrite (same_except_sub _ _ _ _ _ Hsame); [|lia|intros i Hi; lia].
      rewrite <- Hread. f_equal. unfold len in *. lia.
    + rewrite (Hblocks j) by (done || lia). by rewrite Hlater by lia.
  - rewrite Hcount.
    rewrite (seqZ_cons k (blocks_below e lim - k)) by lia.
    cbn [map foldl]. rewrite Hdec. cbn [fst]. rewrite Htally.
    replace (Z.succ k) with (k + 1) by lia.
    replace (Z.pred (blocks_below e lim - k)) with (blocks_below e lim - (k + 1)) by lia.
    f_equal. apply map_ext_in. intros j Hj%list_elem_of_In%elem_of_seqZ.
    rewrite Hlater by lia. done.
Qed.
End Decode.
Section DecodeOld.
Context (cfg : config) (rs : rs_codec).

Lemma save_old_decode_spec e st :
  ecc cfg = Some e -> layout_ok cfg st ->
  0 <= Buffer.size (buf st) <= ram_console_buffer_size st ->
  let bsz := ram_console_buffer_size st in
  let nb := blocks_below e (Buffer.size (buf st)) in
  exists m' c' b',
    save_old_decode cfg rs st
    = Ok (set_counters (set_buf st (set_data (buf st) m')) c' b', diag_line c' b')
    /\ same_except (fun i => i < bsz /\ i < nb * ECC_BLOCK_SIZE e)
         (Buffer.data (buf st)) m'
    /\ (forall k, 0 <= k < nb ->
          block_data e bsz m' k
          = (decoded_block rs e bsz (Buffer.data (buf st)) k).2)
    /\ (c', b')
       = foldl tally (ram_console_corrected_bytes st, ram_console_bad_blocks st)
           (map (fun k => (decoded_block rs e bsz (Buffer.data (buf st)) k).1)
              (seqZ 0 nb)).
Proof.
  intros Hecc Hlay Hsize bsz nb. unfold save_old_decode. rewrite Hecc.
  pose proof Hlay as [Hb Hl]. rewrite Hecc in Hl.
  destruct Hl as (Hok & Hpar & Hl). pose proof Hok as (HE & HEB & _).
  destruct (decode_blocks_spec cfg rs e bsz (Buffer.size (buf st))
              (Z.to_nat (Buffer.size (buf st))) 0
              (Buffer.data (buf st)) (ram_console_corrected_bytes st)
              (ram_console_bad_blocks st))
    as (m' & c' & b' & Hrun & Hsame & Hblocks & Hcount); try done; try lia.
  { rewrite Z2Nat.id by lia. nia. }
  rewrite Z.mul_0_l, Z.add_0_r in Hrun. fold bsz. rewrite Hpar. fold bsz.
  rewrite Hrun, bind_Ok. cbv beta iota.
  exists m', c', b'. split; [done|]. split; [|split].
  - eapply same_except_weaken; [|exact Hsame]. intros i Hi. simpl. fold nb. lia.
  - intros k Hk. apply Hblocks; [lia|].
    apply blocks_below_spec; [lia|]. fold nb. lia.
  - rewrite Hcount. fold nb. by rewrite Z.sub_0_r.
Qed.
End DecodeOld.

(** ** Module initialisation and exit *)

(** Membership in a list of calls put together by appending. *)
Ltac in_calls H :=
  repeat (apply elem_of_app in H as [H|H]);
  try (apply list_elem_of_singleton in H);
  try discriminate H.

Lemma register_dummy_globals k p m :
  globals (ramoops_register_dummy k p m) = globals m.
Proof.
  unfold ramoops_register_dummy. case_bool_decide; [done|].
  simpl. by destruct (device_registered k _).
Qed.

Lemma register_dummy_calls k p m c :
  calls m = [] -> c ∈ calls (ramoops_register_dummy k p m) -> device_call c.
Proof.
  intros Hcalls. unfold ramoops_register_dummy. case_bool_decide.
  - rewrite Hcalls. by intros ?%elem_of_nil.
  - simpl. destruct (device_registered k _); simpl; rewrite Hcalls; simpl;
      intros Hin; repeat (apply elem_of_cons in Hin as [->|Hin]; [done|]);
      by apply elem_of_nil in Hin.
Qed.

(** What [ramoops_register_dummy] leaves from a cleared [dummy]: never
    an error pointer, and nothing but NULL was unregistered. *)
Lemma register_dummy_pointer k p m :
  calls m = [] -> dummy m = NULL ->
  let pdata :=
    mk_platform_data (Param.mem_size p) (Param.mem_address p) (Param.mem_type p) in
  let m1 := ramoops_register_dummy k p m in
  IS_ERR (dummy m1) = false
  /\ (forall ptr, Platform_device_unregister ptr ∈ calls m1 -> ptr = NULL)
  /\ (forall id, dummy m1 = Object id ->
        Param.mem_size p <> 0 /\ device_registered k pdata = Object id)
  /\ (forall pd, Platform_device_register_data pd ∈ calls m1 ->
        Param.mem_size p <> 0 /\ pd = pdata).
Proof.
  intros Hcalls Hdummy pdata m1. unfold m1, ramoops_register_dummy.
  case_bool_decide as Hsize.
  { rewrite Hcalls, Hdummy. split; [done|].
    split; [by intros ptr ?%elem_of_nil|].
    split; [done|]. by intros pd ?%elem_of_nil. }
  fold pdata. simpl. rewrite Hcalls. simpl.
  destruct (device_registered k pdata) as [|errno|id] eqn:Hdev; simpl;
    (split; [done|]); split.
  - by intros ptr ?%list_elem_of_singleton.
  - split; [done|]. intros pd [= ->]%list_elem_of_singleton. done.
  - intros ptr [Hin|Hin%list_elem_of_singleton]%elem_of_cons; [done|].
    by injection Hin.
  - split; [done|].
    intros pd [[= ->]|Hin%list_elem_of_singleton]%elem_of_cons; done.
  - by intros ptr ?%list_elem_of_singleton.
  - split; [by intros id' [= <-]|].
    intros pd [= ->]%list_elem_of_singleton. done.
Qed.

(** The calls of [ram_console_late_init] after those of
    [ramoops_register_dummy], and what it leaves in [dummy]. *)
Lemma late_init_calls k p m ret m1 :
  ram_console_late_init k p m = Ok (ret, m1) ->
  let m0 := ramoops_register_dummy k p m in
  exists rest,
    calls m1 = calls m0 ++ Platform_driver_register :: rest
    /\ ((ret <> 0 /\ rest = [Platform_device_unregister (dummy m0)]
         /\ dummy m1 = NULL)
        \/ (ret = 0 /\ dummy m1 = dummy m0
            /\ forall c, c ∈ rest -> ~ device_call c)).
Proof.
  intros H m0. unfold ram_console_late_init in H. fold m0 in H.
  apply result_bind_ok in H as ([r g] & _ & H). cbv beta iota in H.
  case_bool_decide as Hret.
  { injection H as <- <-. simpl. eexists. split; [by rewrite <- app_assoc|].
    left. done. }
  assert (r = 0) as -> by lia.
  destruct (ram_console_old_log g) as [log|].
  2: { injection H as <- <-. simpl. exists []. split; [done|]. right.
       split; [done|]. split; [done|]. by intros c ?%elem_of_nil. }
  destruct (proc_created k) as [entry|]; injection H as <- <-; simpl;
    eexists; (split; [by rewrite <- !app_assoc|]); right;
    (split; [done|]); (split; [done|]); intros c Hin Hc; simpl in Hin;
    repeat (apply elem_of_cons in Hin as [->|Hin]; [exact Hc|]);
    by apply elem_of_nil in Hin.
Qed.

Lemma register_dummy_keeps k p m id :
  Param.mem_size p <> 0 ->
  device_registered k
    (mk_platform_data (Param.mem_size p) (Param.mem_address p) (Param.mem_type p))
  = Object id ->
  dummy (ramoops_register_dummy k p m) = Object id.
Proof.
  intros Hsize Hdev. unfold ramoops_register_dummy.
  rewrite bool_decide_eq_false_2 by done. simpl. by rewrite Hdev.
Qed.

(** ** From the writes of one boot to the file of the next *)

Lemma init_writes_init (cfg : config) (rs : rs_codec) (alloc : allocator)
    (init_rs_ok : bool) (st : ram_console) (buffer_size : Z)
    (old_buf : option bytes) (ws : list bytes) (st0 st1 : ram_console) :
  ecc cfg = None -> region_ok st buffer_size -> old_buf_ok old_buf buffer_size ->
  sizeof_buffer <= buffer_size ->
  Forall (fun s => len s < 2 ^ 32) ws ->
  (forall n, 0 <= n -> is_Some (kmalloc alloc n)) ->
  ram_console_init cfg rs alloc init_rs_ok st buffer_size old_buf = Ok (0, st0) ->
  write_all cfg rs st0 ws = Ok st1 ->
  exists st2,
    ram_console_init cfg rs alloc init_rs_ok
      (mk_ram_console (buf st1) 0 None 0 0 0 0 false) buffer_size None
    = Ok (0, st2)
    /\ ram_console_old_log st2
       = Some (last_bytes (buffer_size - sizeof_buffer) (concat ws))
    /\ ram_console_old_log_size st2
       = Z.min (len (concat ws)) (buffer_size - sizeof_buffer).
Proof.
  intros Hecc Hreg Hdest Hbig Hall Halloc Hinit0 Hw1.
  assert (config_ok cfg) as Hcfg by (unfold config_ok; by rewrite Hecc).
  assert (~ insufficient_capacity cfg buffer_size) as Hroom.
  { unfold insufficient_capacity. rewrite Hecc. lia. }
  destruct (ram_console_init_ok cfg rs alloc init_rs_ok st buffer_size old_buf)
    as (st0' & Hinit & Hlive & Hcap & Hsig & _ & Hsize & _); try done; [by left|].
  rewrite Hinit0 in Hinit. injection Hinit as <-.
  destruct (ram_console_init_frame cfg rs alloc init_rs_ok st buffer_size old_buf)
    as (st0' & Hinit' & [Hlen _] & _); try done.
  rewrite Hinit0 in Hinit'. injection Hinit' as <-.
  unfold data_capacity in Hcap. rewrite Hecc in Hcap.
  destruct (logical_content_write_all cfg rs st0 ws Hlive Hall)
    as (st1' & Hw & _ & _ & Hsize1 & Hcont & _).
  rewrite Hw1 in Hw. injection Hw as <-.
  rewrite (logical_content_empty cfg st0 Hlive Hsize), app_nil_l, Hcap in Hcont.
  rewrite Hsize, Z.add_0_l, Hcap in Hsize1.
  destruct Hreg as (Hbs & Hmap & _).
  destruct (recovery_after_reboot cfg rs alloc init_rs_ok st0 st1 ws buffer_size)
    as (st2 & Hinit2 & Hlog & Hlogsz); try done.
  { lia. }
  { rewrite Hlen. apply Hmap. lia. }
  exists st2. split; [done|].
  by rewrite Hlog, Hlogsz, Hcont, Hsize1.
Qed.

(** ** The diagnostic line *)

Lemma ascii_bytes_app (s1 s2 : String.string) :
  ascii_bytes (String.append s1 s2) = ascii_bytes s1 ++ ascii_bytes s2.
Proof.
  unfold ascii_bytes. rewrite <- map_app. f_equal.
  induction s1 as [|c s1 IH]; [done|]. simpl. by rewrite IH.
Qed.

Lemma len_string_of_uint (d : Decimal.uint) :
  len (ascii_bytes (DecimalString.NilEmpty.string_of_uint d))
  = Z.of_nat (Decimal.nb_digits d).
Proof.
  unfold len, ascii_bytes. rewrite length_map. f_equal.
  induction d; simpl; by rewrite ?IHd.
Qed.

Lemma usize_nb_digits (d : Decimal.uint) :
  DecimalPos.Unsigned.usize d = N.of_nat (Decimal.nb_digits d).
Proof. induction d; simpl; rewrite ?IHd; lia. Qed.

(** A number below [10 ^ 10] has at most ten digits. *)
Lemma to_uint_digits (p : positive) :
  (N.pos p < 10 ^ 10)%N -> (1 <= Decimal.nb_digits (Pos.to_uint p) <= 10)%nat.
Proof.
  intros Hp.
  pose proof (DecimalPos.Unsigned.of_to p) as Hof.
  pose proof (DecimalPos.Unsigned.to_of (Pos.to_uint p)) as Hto.
  rewrite Hof in Hto. change (N.to_uint (N.pos p)) with (Pos.to_uint p) in Hto.
  pose proof (DecimalPos.Unsigned.to_uint_nonnil p) as Hnil.
  assert (forall d acc, Pos.to_uint p <> Decimal.D0 d
            -> N.pos (Pos.of_uint_acc d acc) = N.pos p
            -> (1 <= S (Decimal.nb_digits d) <= 10)%nat) as Hdigit.
  { intros d acc _ Hacc.
    rewrite DecimalPos.Unsigned.of_uint_acc_rev, usize_nb_digits in Hacc.
    split; [lia|].
    destruct (decide (Decimal.nb_digits d < 10)%nat) as [|Hbig]; [lia|]. exfalso.
    assert (10 ^ 10 <= 10 ^ N.of_nat (Decimal.nb_digits d))%N
      by (apply N.pow_le_mono_r; lia).
    nia. }
  destruct (Pos.to_uint p) as [|d|d|d|d|d|d|d|d|d|d] eqn:Hd; [done| |..];
    try (apply (Hdigit d _ ltac:(done) Hof)).
  (* a leading zero *)
  exfalso. unfold Decimal.unorm in Hto. rewrite DecimalFacts.nzhead_D0 in Hto.
  destruct (Decimal.nzhead d) eqn:Hnz; try discriminate Hto.
  - injection Hto as Hd'. apply (DecimalPos.Unsigned.to_uint_nonzero p). congruence.
  - exact (DecimalFacts.nzhead_nonzero _ _ Hnz).
Qed.

(** ["%d"] of an [int] takes at most eleven characters. *)
Lemma len_decimal (z : Z) :
  - 2 ^ 31 <= z < 2 ^ 31 -> 1 <= len (ascii_bytes (decimal z)) <= 11.
Proof.
  intros Hz. unfold decimal.
  destruct z as [|p|p]; [done| |]; unfold Z.to_int, DecimalString.NilZero.string_of_int.
  - pose proof (to_uint_digits p ltac:(lia)) as Hd.
    destruct (Pos.to_uint p) eqn:Hu; [simpl in Hd; lia|..];
      unfold DecimalString.NilZero.string_of_uint;
      rewrite len_string_of_uint; lia.
  - pose proof (to_uint_digits p ltac:(lia)) as Hd.
    change (String.String ?c ?s) with (String.append (String.String c String.EmptyString) s).
    rewrite ascii_bytes_app, len_app.
    destruct (Pos.to_uint p) eqn:Hu; [simpl in Hd; lia|..];
      unfold DecimalString.NilZero.string_of_uint;
      rewrite len_string_of_uint; change (len (ascii_bytes _)) with 1; lia.
Qed.

(** The text of the line: a newline, the two counters in decimal
    around the words, and a newline; or the line for no errors. *)
Lemma diag_text_spec c b :
  diag_text c b
  = if bool_decide (c <> 0 \/ b <> 0)
    then ascii_bytes newline ++ ascii_bytes (decimal c)
         ++ ascii_bytes Words.corrected_bytes ++ ascii_bytes (decimal b)
         ++ ascii_bytes Words.unrecoverable_blocks ++ ascii_bytes newline
    else ascii_bytes newline ++ ascii_bytes Words.no_errors_detected
         ++ ascii_bytes newline.
Proof.
  unfold diag_text. case_bool_decide; [|done].
  unfold Format.errors. rewrite !ascii_bytes_app. done.
Qed.

(** For counters that are [int]s, [snprintf] never fills [strbuf]: the
    line is whole, at most 63 bytes, and ends with the newline. *)
Lemma diag_line_whole c b :
  - 2 ^ 31 <= c < 2 ^ 31 -> - 2 ^ 31 <= b < 2 ^ 31 ->
  diag_line c b = diag_text c b
  /\ 20 <= len (diag_text c b) <= 63
  /\ last_byte (diag_text c b) = 10.
Proof.
  intros Hc Hb.
  assert (20 <= len (diag_text c b) <= 63) as Hlen.
  { rewrite diag_text_spec. case_bool_decide; [|done].
    rewrite !len_app.
    pose proof (len_decimal c Hc). pose proof (len_decimal b Hb).
    change (len (ascii_bytes newline)) with 1.
    change (len (ascii_bytes Words.corrected_bytes)) with 18.
    change (len (ascii_bytes Words.unrecoverable_blocks)) with 21. lia. }
  split; [|split; [done|]].
  - unfold diag_line, diag_len, sizeof_strbuf.
    rewrite bool_decide_eq_false_2 by lia. apply take_ge. unfold len in *. lia.
  - rewrite diag_text_spec. unfold last_byte.
    case_bool_decide; [|done].
    rewrite !app_assoc. apply last_last.
Qed.

Lemma s32_range x : - 2 ^ 31 <= s32 x < 2 ^ 31.
Proof.
  unfold s32, wrap_signed.
  pose proof (Z.mod_pos_bound (x + 2 ^ (32 - 1)) (2 ^ 32) ltac:(lia)).
  change (2 ^ (32 - 1)) with (2 ^ 31) in *. lia.
Qed.

(** Counters that are [int]s stay so. *)
Lemma tally_range (l : list Z) : forall cb,
  - 2 ^ 31 <= cb.1 < 2 ^ 31 -> - 2 ^ 31 <= cb.2 < 2 ^ 31 ->
  - 2 ^ 31 <= (foldl tally cb l).1 < 2 ^ 31
  /\ - 2 ^ 31 <= (foldl tally cb l).2 < 2 ^ 31.
Proof.
  induction l as [|n l IH]; intros [c b] Hc Hb; [done|].
  cbn [foldl]. apply IH; unfold tally; simpl in *;
    repeat case_bool_decide; simpl; try done; apply s32_range.
Qed.

(** ** The header as the decoder returns it *)

Section HeaderDecode.
Context (cfg : config) (rs : rs_codec).

(** With error correction, when the reservations fit and the codec is
    there: the first part of [ram_console_init] decodes the header
    against its parity segment, takes the header words from what the
    decoder returns, and counts the result. *)
Lemma ram_console_init_layout_decoded e st buffer_size :
  ecc cfg = Some e -> ecc_params_ok e -> region_ok st buffer_size ->
  ~ insufficient_capacity cfg buffer_size ->
  let cap := data_capacity cfg buffer_size in
  let decoded :=
    decode_rs8 rs (header_bytes (buf st))
      (slot_bytes e cap (Buffer.data (buf st)) (header_slot e cap)) in
  exists st1,
    ram_console_init_layout cfg rs st buffer_size true = Ok (inr st1)
    /\ buf st1 = set_header_bytes (buf st) decoded.2
    /\ ram_console_buffer_size st1 = cap
    /\ (ram_console_corrected_bytes st1, ram_console_bad_blocks st1)
       = tally (0, 0) decoded.1
    /\ ram_console_old_log st1 = ram_console_old_log st
    /\ ram_console_old_log_size st1 = ram_console_old_log_size st
    /\ layout_ok cfg st1.
Proof.
  intros Hecc Hcfg (Hbs & Hmap & Hsig & Hstart & Hsize) Hroom.
  unfold insufficient_capacity, data_capacity, layout_ok,
    ram_console_init_layout, INT_MAX, sizeof_buffer in *.
  rewrite Hecc in *.
  cbn [ram_console_buffer_size set_buffer_size].
  rewrite (usize_small _ (buffer_size - 12)) by lia.
  rewrite bool_decide_eq_false_2 by lia.
  specialize (Hmap ltac:(lia)).
  pose proof Hcfg as (HE & HEB & H255 & _).
  pose proof (parity_table_size_bound e (buffer_size - 12) Hcfg ltac:(lia)) as Hpts.
  cbn [ram_console_buffer_size set_buffer_size].
  unfold DIV_ROUND_UP.
  rewrite !(usize_small _ (buffer_size - 12 + ECC_BLOCK_SIZE e - 1)) by lia.
  fold (parity_table_size e (buffer_size - 12)).
  rewrite !(usize_small _ (parity_table_size e (buffer_size - 12))) by lia.
  set (need := parity_table_size e (buffer_size - 12)) in *.
  rewrite !(usize_small _ (buffer_size - 12 - need)) by lia.
  rewrite bool_decide_eq_false_2 by lia.
  cbn [ram_console_buffer_size ram_console_par_buffer set_par_buffer
       set_buffer_size set_counters buf negb].
  set (bsz := buffer_size - 12 - need) in *.
  pose proof (parity_table_size_mono e bsz (buffer_size - 12) Hcfg ltac:(lia)) as Hmono.
  fold need in Hmono.
  pose proof (parity_table_size_bound e bsz Hcfg ltac:(lia)) as Hpts'.
  rewrite (usize_small _ (bsz + ECC_BLOCK_SIZE e - 1)) by lia.
  fold (header_slot e bsz).
  assert (0 <= header_slot e bsz * ECC_SIZE e
          /\ (header_slot e bsz + 1) * ECC_SIZE e = parity_table_size e bsz)
    as [Hh0 Hh].
  { split; [|done]. unfold header_slot.
    assert (0 <= (bsz + ECC_BLOCK_SIZE e - 1) / ECC_BLOCK_SIZE e)
      by (apply Z.div_pos; lia). nia. }
  rewrite (usize_small _ (header_slot e bsz * ECC_SIZE e)) by lia.
  rewrite mem_read_ok by lia. rewrite bind_Ok.
  fold (slot_bytes e bsz (Buffer.data (buf st)) (header_slot e bsz)).
  unfold ram_console_decode_rs8.
  destruct (decode_rs8 rs (header_bytes (buf st)) _) as [numerr h].
  eexists. split; [done|]. unfold tally.
  repeat case_bool_decide; cbn;
    (split; [done|]); (split; [done|]); (split; [done|]);
    (split; [done|]); (split; [done|]);
    (split; [lia|]); (split; [done|]); (split; [done|]); lia.
Qed.
End HeaderDecode.
(** ** The claims *)

(** C1 (wrap correctness).  From any live console, after any sequence
    of calls of [ram_console_write] whose lengths add up to more than
    the data capacity, every call has returned, the log area is full,
    and the logical content (the [size] bytes that end at [start], read
    circularly) is exactly the last [ram_console_buffer_size] bytes
    written, in order.  A single call with more than the capacity is the
    case of a one-element sequence. *)
Theorem wrap_correctness (cfg : config) (rs : rs_codec) (st : ram_console)
    (ws : list bytes) :
  live_inv cfg st ->
  Forall (fun s => len s < 2 ^ 32) ws ->
  len (concat ws) > ram_console_buffer_size st ->
  exists st',
    write_all cfg rs st ws = Ok st'
    /\ Buffer.size (buf st') = ram_console_buffer_size st
    /\ len (logical_content st') = ram_console_buffer_size st
    /\ logical_content st'
       = last_bytes (ram_console_buffer_size st) (concat ws).
Proof.
  intros Hlive Hall Htotal.
  destruct (write_all_ok cfg rs ws st Hlive Hall)
    as (st' & Hrun & Hlive' & Hbsz & Hsize & Hring & _).
  pose proof (len_ring cfg st Hlive) as Hlen.
  pose proof (len_ring cfg st' Hlive') as Hlen'.
  destruct Hlive as [[Hb _] [Hst Hsz]].
  assert (Buffer.size (buf st') = ram_console_buffer_size st) as Hfull by lia.
  exists st'. split; [done|]. split; [done|].
  unfold logical_content. rewrite Hfull.
  rewrite last_bytes_all by lia. split; [lia|].
  rewrite Hring. apply last_bytes_app_long. lia.
Qed.

(** The theorem on two writes of three bytes into a store of four: the
    last four of the six bytes stand. *)
Lemma wrap_correctness_witness :
  exists st',
    write_all no_ecc xor_codec
      (mk_ram_console (Buffer.mk RAM_CONSOLE_SIG 0 0 [0; 0; 0; 0]) 4 None 0 0 0 0 true)
      [[1; 2; 3]; [4; 5; 6]] = Ok st'
    /\ Buffer.size (buf st') = 4
    /\ len (logical_content st') = 4
    /\ logical_content st' = [3; 4; 5; 6].
Proof.
  apply (wrap_correctness no_ecc xor_codec
           (mk_ram_console (Buffer.mk RAM_CONSOLE_SIG 0 0 [0; 0; 0; 0]) 4 None 0 0 0 0 true)
           [[1; 2; 3]; [4; 5; 6]]).
  - unfold live_inv, layout_ok, header_ok, INT_MAX, len. simpl. lia.
  - repeat constructor; unfold len; simpl; lia.
  - unfold len. simpl. lia.
Defined.


(** C2 (header consistency), as the code has it.  A write of [n] bytes
    to a live console returns, with [m = min n capacity]:
    [start' = start + m], less the capacity when that exceeds it, so
    that [0 <= start' <= capacity] and [start' = (start + m) mod capacity]
    whenever [start'] is below the capacity; [size' = min (size + n)
    capacity]; and the console is live again.  [start' = capacity] is
    what a write that ends exactly at the end of the log area leaves. *)
Theorem header_consistency (cfg : config) (rs : rs_codec) (st : ram_console)
    (s : bytes) :
  live_inv cfg st -> len s < 2 ^ 32 ->
  let bsz := ram_console_buffer_size st in
  let start := Buffer.start (buf st) in
  let m := Z.min (len s) bsz in
  exists st',
    ram_console_write cfg rs st s (len s) = Ok st'
    /\ Buffer.start (buf st')
       = (if bool_decide (bsz < start + m) then start + m - bsz else start + m)
    /\ 0 <= Buffer.start (buf st') <= bsz
    /\ (Buffer.start (buf st') < bsz ->
        Buffer.start (buf st') = (start + m) mod bsz)
    /\ Buffer.size (buf st') = Z.min (Buffer.size (buf st) + len s) bsz
    /\ live_inv cfg st'.
Proof.
  intros Hlive Hs bsz start m.
  destruct (ram_console_write_ok cfg rs st s Hlive Hs)
    as (st' & Hw & Hlive' & Hbsz & Hstart & Hsize & _).
  fold bsz start m in Hstart, Hsize, Hbsz.
  pose proof (len_nonneg s) as Hn.
  destruct Hlive as [[Hb _] [Hst Hsz]]. fold bsz start in Hb, Hst.
  exists st'. split; [done|]. split; [done|].
  split; [|split; [|done]].
  - rewrite Hstart. case_bool_decide; lia.
  - rewrite Hstart. case_bool_decide as Hwrap; intros Hlt.
    + replace (start + m) with (start + m - bsz + 1 * bsz) by lia.
      rewrite Z.mod_add, Z.mod_small by lia. lia.
    + rewrite Z.mod_small by lia. done.
Qed.

(** The theorem on a write of five bytes at offset 6 of a full store of
    eight, with error correction: the write wraps to offset 3. *)
Lemma header_consistency_witness :
  exists st',
    ram_console_write with_ecc xor_codec
      (mk_ram_console (Buffer.mk RAM_CONSOLE_SIG 6 8 (replicate 14 0)) 8 None 0 8 0 0 true)
      [1; 2; 3; 4; 5] 5 = Ok st'
    /\ Buffer.start (buf st') = 3
    /\ 0 <= Buffer.start (buf st') <= 8
    /\ (Buffer.start (buf st') < 8 -> Buffer.start (buf st') = (6 + 5) mod 8)
    /\ Buffer.size (buf st') = 8
    /\ live_inv with_ecc st'.
Proof.
  apply (header_consistency with_ecc xor_codec
           (mk_ram_console (Buffer.mk RAM_CONSOLE_SIG 6 8 (replicate 14 0))
              8 None 0 8 0 0 true) [1; 2; 3; 4; 5]).
  - unfold live_inv, layout_ok, header_ok, ecc_params_ok. simpl.
    repeat split; try (vm_compute; congruence). right. reflexivity.
  - vm_compute. reflexivity.
Defined.

(** C2, the claim as stated fails: on the console that
    [ram_console_init] leaves over a region with four data bytes, a
    write of four bytes ends with [start = 4], the capacity, where the
    claim has [(0 + 4) mod 4 = 0] and [start < capacity]. *)
Lemma start_reaches_capacity :
  exists st0 st',
    ram_console_init no_ecc xor_codec zeroed_allocator true (blank 0 0 0 4) 16 None
    = Ok (0, st0)
    /\ live_inv no_ecc st0
    /\ ram_console_buffer_size st0 = 4
    /\ ram_console_write no_ecc xor_codec st0 [1; 2; 3; 4] 4 = Ok st'
    /\ Buffer.start (buf st') = 4
    /\ Buffer.start (buf st') <> (Buffer.start (buf st0) + Z.min 4 4) mod 4
    /\ ~ Buffer.start (buf st') < ram_console_buffer_size st'.
Proof.
  eexists. eexists. split; [vm_compute; reflexivity|].
  split.
  { unfold live_inv, layout_ok, header_ok, INT_MAX, len. simpl. lia. }
  split; [reflexivity|]. split; [vm_compute; reflexivity|].
  simpl. split; [reflexivity|]. split; [discriminate|lia].
Qed.

(** C5 (the example scenario), as the code has it.  Without error
    correction, over any region of [buffer_size] bytes whose data
    capacity [buffer_size - 12] is between 4 and 1024: after
    initialisation, writing ["AAAA"] and then 1024 bytes ["B"] leaves
    exactly [buffer_size - 12] bytes ["B"] as the logical content,
    [size] equal to that capacity and [start = 4].  For a total capacity
    of 1024 bytes that is 1012 bytes ["B"], [size = 1012], [start = 4];
    for a data capacity of 1024 bytes, 1024 bytes ["B"], [size = 1024],
    [start = 4]. *)
Theorem example_scenario (cfg : config) (rs : rs_codec) (alloc : allocator)
    (init_rs_ok : bool) (st : ram_console) (buffer_size : Z)
    (old_buf : option bytes) :
  ecc cfg = None -> region_ok st buffer_size -> old_buf_ok old_buf buffer_size ->
  16 <= buffer_size <= 1036 ->
  exists st0 st',
    ram_console_init cfg rs alloc init_rs_ok st buffer_size old_buf = Ok (0, st0)
    /\ ram_console_buffer_size st0 = buffer_size - sizeof_buffer
    /\ write_all cfg rs st0 [replicate 4 65; replicate 1024 66] = Ok st'
    /\ logical_content st' = replicate (Z.to_nat (buffer_size - sizeof_buffer)) 66
    /\ Buffer.start (buf st') = 4
    /\ Buffer.size (buf st') = buffer_size - sizeof_buffer.
Proof.
  intros Hecc Hreg Hdest Hsize. unfold sizeof_buffer.
  destruct (ram_console_init_ok cfg rs alloc init_rs_ok st buffer_size old_buf)
    as (st0 & Hinit & Hlive0 & Hbsz0 & _ & Hstart0 & Hsize0 & _); try done.
  { unfold config_ok. by rewrite Hecc. }
  { unfold insufficient_capacity, sizeof_buffer. rewrite Hecc. lia. }
  { by left. }
  unfold data_capacity, sizeof_buffer in Hbsz0. rewrite Hecc in Hbsz0.
  assert (len (replicate 4 65) = 4) as HlenA by done.
  assert (len (replicate 1024 66) = 1024) as HlenB by done.
  destruct (ram_console_write_ok cfg rs st0 (replicate 4 65) Hlive0)
    as (st1 & Hw1 & Hlive1 & Hbsz1 & Hstart1 & Hsize1 & _); [rewrite HlenA; lia|].
  rewrite HlenA, Hstart0, Hsize0, Hbsz0 in *.
  rewrite bool_decide_eq_false_2 in Hstart1 by lia.
  destruct (ram_console_write_ok cfg rs st1 (replicate 1024 66) Hlive1)
    as (st2 & Hw2 & Hlive2 & Hbsz2 & Hstart2 & Hsize2 & Hring2 & _); [rewrite HlenB; lia|].
  rewrite HlenB, Hstart1, Hsize1, Hbsz1 in *.
  rewrite bool_decide_eq_true_2 in Hstart2 by lia.
  pose proof (len_ring cfg st1 Hlive1) as Hlen1.
  pose proof (len_ring cfg st2 Hlive2) as Hlen2.
  exists st0, st2. split; [done|]. split; [done|].
  split; [cbn [write_all]; by rewrite HlenA, Hw1, bind_Ok, HlenB, Hw2, bind_Ok|].
  split; [|lia].
  unfold logical_content. rewrite last_bytes_all by lia.
  rewrite Hring2, last_bytes_app_long by lia.
  unfold last_bytes. rewrite HlenB, drop_replicate. f_equal. lia.
Qed.

(** The theorem on the region of 1024 bytes: 1012 bytes of data follow
    the header. *)
Lemma example_scenario_witness :
  exists st0 st',
    ram_console_init no_ecc xor_codec zeroed_allocator true (blank 0 0 0 1012) 1024 None
    = Ok (0, st0)
    /\ ram_console_buffer_size st0 = 1012
    /\ write_all no_ecc xor_codec st0 [replicate 4 65; replicate 1024 66] = Ok st'
    /\ logical_content st' = replicate 1012 66
    /\ Buffer.start (buf st') = 4
    /\ Buffer.size (buf st') = 1012.
Proof.
  apply (example_scenario no_ecc xor_codec zeroed_allocator true
           (blank 0 0 0 1012) 1024 None).
  - reflexivity.
  - unfold region_ok, INT_MAX. repeat split; vm_compute; congruence.
  - exact I.
  - lia.
Defined.

(** C5, the claim as stated fails: in its scenario the 12 header bytes
    come out of the 1024, the console holds 1012 bytes, and the second
    write wraps and ends at offset 4, so that [start = 4] and
    [size = 1012] where the claim has [start = 0], [size = 1024] and
    1024 bytes of content. *)
Lemma example_scenario_as_stated_fails :
  exists st0 st',
    ram_console_init no_ecc xor_codec zeroed_allocator true (blank 0 0 0 1012) 1024 None
    = Ok (0, st0)
    /\ write_all no_ecc xor_codec st0 [replicate 4 65; replicate 1024 66] = Ok st'
    /\ Buffer.start (buf st') = 4 /\ Buffer.start (buf st') <> 0
    /\ Buffer.size (buf st') = 1012 /\ Buffer.size (buf st') <> 1024
    /\ len (logical_content st') = 1012
    /\ logical_content st' <> replicate 1024 66.
Proof.
  eexists. eexists. split; [vm_compute; reflexivity|].
  split; [vm_compute; reflexivity|].
  split; [vm_compute; reflexivity|].
  split; [vm_compute; discriminate|].
  split; [vm_compute; reflexivity|].
  split; [vm_compute; discriminate|].
  split; [vm_compute; reflexivity|].
  intros H. apply (f_equal length) in H. vm_compute in H. discriminate H.
Qed.

(** C4 (re-arm guarantee), as the code has it.  Every call of
    [ram_console_init] that does not return early (the reservations fit
    and, with error correction, the codec is allocated) returns 0 and
    leaves signature [RAM_CONSOLE_SIG], [start = 0] and [size = 0] in
    the live header, an empty logical content and a registered console,
    whatever the old header was and whether or not a destination for
    the old log could be allocated. *)
Theorem rearm_guarantee (cfg : config) (rs : rs_codec) (alloc : allocator)
    (init_rs_ok : bool) (st : ram_console) (buffer_size : Z)
    (old_buf : option bytes) :
  config_ok cfg -> region_ok st buffer_size -> old_buf_ok old_buf buffer_size ->
  ~ insufficient_capacity cfg buffer_size ->
  ecc cfg = None \/ init_rs_ok = true ->
  exists st',
    ram_console_init cfg rs alloc init_rs_ok st buffer_size old_buf = Ok (0, st')
    /\ Buffer.sig (buf st') = RAM_CONSOLE_SIG
    /\ Buffer.start (buf st') = 0
    /\ Buffer.size (buf st') = 0
    /\ logical_content st' = []
    /\ registered st' = true
    /\ live_inv cfg st'.
Proof.
  intros Hcfg Hreg Hdest Hroom Hrs.
  destruct (ram_console_init_ok cfg rs alloc init_rs_ok st buffer_size old_buf)
    as (st' & Hinit & Hlive & _ & Hsig & Hstart & Hsize & Hregd); try done.
  exists st'. repeat split; try done; try apply Hlive.
  unfold logical_content, last_bytes. rewrite Hsize, Z.sub_0_r.
  unfold len. rewrite Nat2Z.id. apply drop_all.
Qed.

(** The theorem on a region of 32 bytes with a valid old header, error
    correction, and no memory for the old log. *)
Lemma rearm_guarantee_witness :
  exists st',
    ram_console_init with_ecc xor_codec no_memory true
      (mk_ram_console (Buffer.mk RAM_CONSOLE_SIG 2 5 (replicate 20 7)) 0 None 0 0 0 0 false)
      32 None = Ok (0, st')
    /\ Buffer.sig (buf st') = RAM_CONSOLE_SIG
    /\ Buffer.start (buf st') = 0
    /\ Buffer.size (buf st') = 0
    /\ logical_content st' = []
    /\ registered st' = true
    /\ live_inv with_ecc st'.
Proof.
  apply (rearm_guarantee with_ecc xor_codec no_memory true
           (mk_ram_console (Buffer.mk RAM_CONSOLE_SIG 2 5 (replicate 20 7))
              0 None 0 0 0 0 false) 32 None).
  - unfold config_ok, ecc_params_ok. simpl. repeat split; vm_compute; congruence.
  - unfold region_ok, INT_MAX. repeat split; vm_compute; congruence.
  - exact I.
  - unfold insufficient_capacity. vm_compute. intros [H|H]; discriminate.
  - right. reflexivity.
Defined.

(** C4, the claim as stated fails on the calls that return early.
    Over a region of 4 bytes, too small for the header, and, with error
    correction, over a region of 32 bytes when [init_rs] fails,
    [ram_console_init] returns 0 with the header words it found: no
    signature, [start = 7], [size = 9]. *)
Lemma early_return_keeps_header :
  (exists st',
     ram_console_init no_ecc xor_codec zeroed_allocator true (blank 0 7 9 0) 4 None
     = Ok (0, st')
     /\ Buffer.sig (buf st') <> RAM_CONSOLE_SIG
     /\ Buffer.start (buf st') = 7 /\ Buffer.size (buf st') = 9)
  /\ (exists st',
        ram_console_init with_ecc xor_codec zeroed_allocator false
          (blank 0 7 9 20) 32 None = Ok (0, st')
        /\ Buffer.sig (buf st') <> RAM_CONSOLE_SIG
        /\ Buffer.start (buf st') = 7 /\ Buffer.size (buf st') = 9).
Proof.
  split; eexists; (split; [vm_compute; reflexivity|]);
    repeat split; vm_compute; congruence.
Qed.



(** C8 (insufficient capacity).  For every [buffer_size] for which the
    header reservation, or with error correction the reservation of the
    parity table, leaves less than nothing, [ram_console_init] returns
    (0, without a fault, before any access to the region): the region,
    the recovered log and the registration are what they were, so that a
    console that was not registered stays unregistered and the console
    framework never hands it a write. *)
Theorem insufficient_capacity_aborts (cfg : config) (rs : rs_codec)
    (alloc : allocator) (init_rs_ok : bool) (st : ram_console)
    (buffer_size : Z) (old_buf : option bytes) :
  config_ok cfg -> 0 <= buffer_size < 2 ^ size_t_bits (cfg_abi cfg) ->
  insufficient_capacity cfg buffer_size ->
  exists st',
    ram_console_init cfg rs alloc init_rs_ok st buffer_size old_buf = Ok (0, st')
    /\ buf st' = buf st
    /\ ram_console_old_log st' = ram_console_old_log st
    /\ ram_console_old_log_size st' = ram_console_old_log_size st
    /\ registered st' = registered st
    /\ (registered st = false -> forall s, console_emit cfg rs st' s = Ok st').
Proof.
  intros Hcfg Hbs Hins.
  destruct (init_layout_insufficient cfg rs st buffer_size init_rs_ok Hcfg Hbs Hins)
    as (n & Hlayout).
  unfold ram_console_init. rewrite Hlayout, bind_Ok.
  eexists. split; [done|]. simpl. repeat split.
  intros Hunreg s. unfold console_emit. simpl. by rewrite Hunreg.
Qed.

(** The theorem on a region of 15 bytes with error correction: the
    parity table would not leave room for the data. *)
Lemma insufficient_capacity_aborts_witness :
  exists st',
    ram_console_init with_ecc xor_codec zeroed_allocator true (blank 0 0 0 3) 15 None
    = Ok (0, st')
    /\ buf st' = buf (blank 0 0 0 3)
    /\ ram_console_old_log st' = ram_console_old_log (blank 0 0 0 3)
    /\ ram_console_old_log_size st' = ram_console_old_log_size (blank 0 0 0 3)
    /\ registered st' = registered (blank 0 0 0 3)
    /\ (registered (blank 0 0 0 3) = false ->
        forall s, console_emit with_ecc xor_codec st' s = Ok st').
Proof.
  apply (insufficient_capacity_aborts with_ecc xor_codec zeroed_allocator true
           (blank 0 0 0 3) 15 None).
  - unfold config_ok, ecc_params_ok. simpl. repeat split; vm_compute; congruence.
  - split; vm_compute; congruence.
  - right. vm_compute. reflexivity.
Defined.

(** C10 (the return value).  On a mapped region [ram_console_init]
    returns, and what it returns is 0 on every path: when it stops early
    for insufficient capacity or because the codec cannot be allocated
    (the registration is then what it was, the store inactive), and
    when it completes (the console is then registered).  The probe,
    once it has mapped the region, returns that same 0: the return
    value does not tell the two outcomes apart. *)
Theorem init_returns_zero (cfg : config) (rs : rs_codec) (alloc : allocator)
    (init_rs_ok : bool) (st : ram_console) (buffer_size : Z)
    (old_buf : option bytes) :
  config_ok cfg -> region_ok st buffer_size -> old_buf_ok old_buf buffer_size ->
  exists st',
    ram_console_init cfg rs alloc init_rs_ok st buffer_size old_buf = Ok (0, st')
    /\ (insufficient_capacity cfg buffer_size
        \/ (ecc cfg <> None /\ init_rs_ok = false) ->
        registered st' = registered st /\ buf st' = buf st)
    /\ (~ insufficient_capacity cfg buffer_size
        /\ (ecc cfg = None \/ init_rs_ok = true) ->
        registered st' = true)
    /\ (forall PAGE_SIZE st0 pd r ioremap,
          old_buf = None -> st = set_buf st0 (buf st) ->
          mem_size pd <> 0 -> Z.land (res_flags r) IORESOURCE_MEM <> 0 ->
          buffer_size
          = usize (cfg_abi cfg) (res_end r - res_start r + 1 - PAGE_SIZE * 10) ->
          ioremap (res_start r) buffer_size = Some (buf st) ->
          ram_console_driver_probe cfg rs alloc init_rs_ok PAGE_SIZE st0 false
            (Some pd) (Some r) None false ioremap = Ok (0, st')).
Proof.
  intros Hcfg Hreg Hdest.
  assert (exists st',
            ram_console_init cfg rs alloc init_rs_ok st buffer_size old_buf
            = Ok (0, st')
            /\ (insufficient_capacity cfg buffer_size
                \/ (ecc cfg <> None /\ init_rs_ok = false) ->
                registered st' = registered st /\ buf st' = buf st)
            /\ (~ insufficient_capacity cfg buffer_size
                /\ (ecc cfg = None \/ init_rs_ok = true) ->
                registered st' = true)) as (st' & Hinit & Hearly & Hdone).
  { destruct (ram_console_init_layout_spec cfg rs st buffer_size init_rs_ok Hcfg Hreg)
      as [(Habort & st0 & Hl & Hbuf & _ & _ & Hregd)
         |(Hroom & Hrs & _)].
    - unfold ram_console_init. rewrite Hl, bind_Ok.
      exists st0. split; [done|]. split; [done|].
      intros [Hroom Hrs]. destruct Habort as [?|[Hecc ->]]; [done|].
      by destruct Hrs.
    - destruct (ram_console_init_ok cfg rs alloc init_rs_ok st buffer_size old_buf)
        as (st' & Hinit & _ & _ & _ & _ & _ & Hregd); try done.
      exists st'. split; [done|]. split; [|done].
      intros [?|[Hecc Hno]]; [done|]. destruct Hrs as [?| ->]; done. }
  exists st'. split; [done|]. split; [done|]. split; [done|].
  intros PAGE_SIZE st0 pd r ioremap -> Hst Hsize Hflags Hbs Hmap.
  rewrite Hbs in Hmap.
  rewrite (probe_returns_init_value cfg rs alloc init_rs_ok PAGE_SIZE st0 pd r
             ioremap (buf st) Hsize Hflags Hmap).
  by rewrite <- Hbs, <- Hst.
Qed.

(** The theorem on an initialisation that stops because [init_rs]
    fails: it returns 0, and the console stays unregistered. *)
Lemma init_returns_zero_witness :
  exists st',
    ram_console_init with_ecc xor_codec zeroed_allocator false
      (blank 0 7 9 20) 32 None = Ok (0, st')
    /\ registered st' = false.
Proof.
  destruct (init_returns_zero with_ecc xor_codec zeroed_allocator false
              (blank 0 7 9 20) 32 None) as (st' & Hinit & Hearly & _).
  - unfold config_ok, ecc_params_ok. simpl. repeat split; vm_compute; congruence.
  - unfold region_ok, INT_MAX. repeat split; vm_compute; congruence.
  - exact I.
  - exists st'. split; [exact Hinit|].
    apply Hearly. right. split; [discriminate|reflexivity].
Defined.



(** What the example recovers: the window [3; 4; 5; 1; 2] and the line
    for no errors. *)
Example recovery_example :
  exists st',
    ram_console_save_old with_ecc xor_codec zeroed_allocator
      (mk_ram_console
         (Buffer.mk RAM_CONSOLE_SIG 2 5 ([1; 2; 3; 4; 5; 6; 7; 8] ++ replicate 6 0))
         8 None 0 8 0 0 false) None = Ok st'
    /\ ram_console_old_log st'
       = Some ([3; 4; 5; 1; 2] ++ ascii_bytes Format.no_errors).
Proof. eexists. split; vm_compute; reflexivity. Qed.

(** C7 (old-log read-back).  With a recovered log of
    [ram_console_old_log_size] bytes (none, and length 0, when nothing
    was recovered), a user buffer that can be stored to, a maximal
    length that the VFS lets through (below 2^31) and an offset that is
    not negative, [ram_console_read_old] returns
    [min length (size - pos)] bytes of the log from offset [pos] when
    [pos] is below the size, and zero bytes otherwise, and advances the
    offset by as much.  It reads the globals only, and no write changes
    what it reads: the same call after any [ram_console_write] returns
    the same. *)
Theorem read_old_contract (cfg : config) (st : ram_console)
    (length pos : Z) :
  let log := default [] (ram_console_old_log st) in
  0 <= ram_console_old_log_size st <= len log ->
  ram_console_old_log_size st < 2 ^ 32 ->
  0 <= length < 2 ^ 31 -> 0 <= pos < 2 ^ 63 ->
  let n := if bool_decide (pos < ram_console_old_log_size st)
           then Z.min length (ram_console_old_log_size st - pos) else 0 in
  ram_console_read_old cfg st true length pos
  = Ok (n, take (Z.to_nat n) (drop (Z.to_nat pos) log), pos + n)
  /\ len (take (Z.to_nat n) (drop (Z.to_nat pos) log)) = n
  /\ forall rs s count st',
       ram_console_write cfg rs st s count = Ok st' ->
       ram_console_read_old cfg st' true length pos
       = ram_console_read_old cfg st true length pos.
Proof.
  intros log Hsz Hsz32 Hlen Hpos n. split; [|split].
  - unfold ram_console_read_old.
    assert ((match cfg_abi cfg with
             | ILP32 => bool_decide (pos >= ram_console_old_log_size st)
             | LP64 => bool_decide (u64 pos >= ram_console_old_log_size st)
             end) = negb (bool_decide (pos < ram_console_old_log_size st))) as ->.
    { destruct (cfg_abi cfg).
      - repeat case_bool_decide; simpl; (done || lia).
      - unfold u64. rewrite wrap_unsigned_small by lia.
        repeat case_bool_decide; simpl; (done || lia). }
    unfold n. case_bool_decide as Hin; simpl.
    + rewrite (usize_small _ (_ - pos)) by lia.
      rewrite ssize_small by lia. rewrite usize_small by lia.
      unfold log in *. destruct (ram_console_old_log st) as [l|]; simpl in *.
      * rewrite mem_read_ok by lia. rewrite bind_Ok.
        unfold s64. rewrite wrap_signed_small by lia. done.
      * unfold len in Hsz. simpl in Hsz. lia.
    + rewrite take_0. do 3 f_equal. lia.
  - unfold n. case_bool_decide.
    + rewrite len_take; [done|]. rewrite len_drop; lia.
    + by rewrite take_0.
  - intros rs s count st' Hw. apply ram_console_read_old_ext.
    by apply (ram_console_write_old_log cfg rs st s count).
Qed.

(** The theorem on a read of three bytes at offset 1 of a log of five. *)
Lemma read_old_contract_witness :
  let st := mk_ram_console (Buffer.mk RAM_CONSOLE_SIG 0 0 []) 0
              (Some [3; 4; 5; 1; 2]) 5 0 0 0 true in
  ram_console_read_old no_ecc st true 3 1 = Ok (3, [4; 5; 1], 1 + 3)
  /\ len [4; 5; 1] = 3
  /\ forall rs s count st',
       ram_console_write no_ecc rs st s count = Ok st' ->
       ram_console_read_old no_ecc st' true 3 1
       = ram_console_read_old no_ecc st true 3 1.
Proof.
  apply (read_old_contract no_ecc
           (mk_ram_console (Buffer.mk RAM_CONSOLE_SIG 0 0 []) 0
              (Some [3; 4; 5; 1; 2]) 5 0 0 0 true) 3 1).
  - split; vm_compute; congruence.
  - vm_compute. reflexivity.
  - split; vm_compute; congruence.
  - split; vm_compute; congruence.
Defined.

(** C9 (frame of a write), as the code has it.  A write of [n] bytes,
    [n] at most the capacity, to a live console returns, and leaves
    [data] with its length and with every byte outside
    [write_footprint] as it was: outside the positions
    [start .. start + n - 1] taken circularly and, with error
    correction, outside the parity segments of the header, of the
    blocks that hold a written position, and of the block that [start]
    lies in, which the loop of [ram_console_update] encodes in any
    case.  With error correction, the parity segment of each of these
    blocks is afterwards the parity of the block as it then is, encoded
    over its actual length (a partial last block over what is left of
    the log area), and the parity segment of the header is the parity
    of the new header. *)
Theorem write_frame (cfg : config) (rs : rs_codec) (st : ram_console)
    (s : bytes) :
  live_inv cfg st -> len s <= ram_console_buffer_size st ->
  exists st',
    ram_console_write cfg rs st s (len s) = Ok st'
    /\ same_except (write_footprint cfg st (len s))
         (Buffer.data (buf st)) (Buffer.data (buf st'))
    /\ (forall i,
          0 <= i < ram_console_buffer_size st -> ~ written_range st (len s) i ->
          Buffer.data (buf st') !! Z.to_nat i = Buffer.data (buf st) !! Z.to_nat i)
    /\ (ecc cfg = None ->
        forall i, 0 <= i -> ~ written_range st (len s) i ->
          Buffer.data (buf st') !! Z.to_nat i = Buffer.data (buf st) !! Z.to_nat i)
    /\ (forall e, ecc cfg = Some e ->
          (forall k,
             k * ECC_BLOCK_SIZE e < ram_console_buffer_size st ->
             k = Buffer.start (buf st) / ECC_BLOCK_SIZE e
             \/ block_written e st (len s) k ->
             parity_fresh rs e (ram_console_buffer_size st)
               (Buffer.data (buf st')) k)
          /\ slot_bytes e (ram_console_buffer_size st) (Buffer.data (buf st'))
               (header_slot e (ram_console_buffer_size st))
             = ram_console_encode_rs8 rs e (header_bytes (buf st'))).
Proof.
  intros Hlive Hfit. pose proof Hlive as [[Hb Hl] _]. unfold INT_MAX in Hb.
  destruct (ram_console_write_spec cfg rs st s Hlive ltac:(lia))
    as (d' & Hw & Hsame & _ & Hfresh).
  rewrite (Z.min_l (len s)) in Hw, Hsame, Hfresh by lia.
  eexists. split; [exact Hw|]. simpl. split; [done|]. split; [|split].
  - intros i Hi Hout. apply Hsame; [lia|].
    intros [?|Hpar]; [done|]. destruct (ecc cfg) as [e|]; [|done].
    destruct Hl as ((HE & HEB & _) & _). destruct Hpar as (k & Hk & Hslot).
    unfold in_slot in Hslot.
    assert (0 <= k); [|nia].
    destruct Hk as [->|[->|(p & Hp & <-)]].
    + apply Z.div_pos; lia.
    + apply Z.div_pos; [apply Hlive|lia].
    + apply Z.div_pos; [|lia]. destruct Hlive as [_ [Hst _]].
      unfold written_range in Hp. lia.
  - intros Hecc i Hi Hout. apply Hsame; [lia|].
    unfold write_footprint. rewrite Hecc. tauto.
  - intros e Hecc. rewrite Hecc in Hfresh. exact Hfresh.
Qed.

(** The theorem on a write of five bytes that wraps, with error
    correction. *)
Lemma write_frame_witness :
  let st := mk_ram_console (Buffer.mk RAM_CONSOLE_SIG 6 8 (replicate 14 0))
              8 None 0 8 0 0 true in
  exists st',
    ram_console_write with_ecc xor_codec st [1; 2; 3; 4; 5] 5 = Ok st'
    /\ same_except (write_footprint with_ecc st 5)
         (Buffer.data (buf st)) (Buffer.data (buf st'))
    /\ (forall i,
          0 <= i < 8 -> ~ written_range st 5 i ->
          Buffer.data (buf st') !! Z.to_nat i = Buffer.data (buf st) !! Z.to_nat i)
    /\ (ecc with_ecc = None ->
        forall i, 0 <= i -> ~ written_range st 5 i ->
          Buffer.data (buf st') !! Z.to_nat i = Buffer.data (buf st) !! Z.to_nat i)
    /\ (forall e, ecc with_ecc = Some e ->
          (forall k,
             k * ECC_BLOCK_SIZE e < 8 ->
             k = 6 / ECC_BLOCK_SIZE e \/ block_written e st 5 k ->
             parity_fresh xor_codec e 8 (Buffer.data (buf st')) k)
          /\ slot_bytes e 8 (Buffer.data (buf st')) (header_slot e 8)
             = ram_console_encode_rs8 xor_codec e (header_bytes (buf st'))).
Proof.
  apply (write_frame with_ecc xor_codec
           (mk_ram_console (Buffer.mk RAM_CONSOLE_SIG 6 8 (replicate 14 0))
              8 None 0 8 0 0 true) [1; 2; 3; 4; 5]).
  - unfold live_inv, layout_ok, header_ok, ecc_params_ok. simpl.
    repeat split; try (vm_compute; congruence). right. reflexivity.
  - vm_compute. congruence.
Defined.

(** C9, the claim as stated fails with error correction.  On the
    console that [ram_console_init] leaves over a region whose parity
    table holds other bytes than the parity of its data, a write of no
    byte stores to no position of the log area, so that no block holds
    a written position; yet the byte at offset 8 of [data], in the
    parity segment of block 0 and not in that of the header, goes from
    255 to 0: the loop of [ram_console_update] encodes the block that
    [start] lies in before it tests its bound. *)
Lemma empty_write_encodes_block :
  exists st0 st',
    ram_console_init with_ecc xor_codec zeroed_allocator true
      (mk_ram_console (Buffer.mk 0 0 0 (replicate 8 0 ++ replicate 12 255))
         0 None 0 0 0 0 false) 32 None = Ok (0, st0)
    /\ live_inv with_ecc st0
    /\ ram_console_write with_ecc xor_codec st0 [] 0 = Ok st'
    /\ (forall p, ~ written_range st0 0 p)
    /\ (forall k, ~ block_written (mk_ecc 4 2) st0 0 k)
    /\ in_slot (mk_ecc 4 2) (ram_console_buffer_size st0) 0 8
    /\ header_slot (mk_ecc 4 2) (ram_console_buffer_size st0) = 2
    /\ Buffer.data (buf st0) !! Z.to_nat 8 = Some 255
    /\ Buffer.data (buf st') !! Z.to_nat 8 = Some 0.
Proof.
  eexists. eexists. split; [vm_compute; reflexivity|].
  split.
  { unfold live_inv, layout_ok, header_ok, ecc_params_ok. simpl.
    repeat split; try (vm_compute; congruence). left. reflexivity. }
  split; [vm_compute; reflexivity|].
  assert (forall p,
            ~ written_range
                (mk_ram_console
                   (Buffer.mk RAM_CONSOLE_SIG 0 0 (replicate 8 0 ++ replicate 12 255))
                   8 None 0 8 0 0 true) 0 p) as Hnone.
  { intros p. unfold written_range. simpl. lia. }
  split; [exact Hnone|].
  split; [intros k (p & Hp & _); by apply (Hnone p)|].
  repeat split; vm_compute; congruence.
Qed.
(** ** Further properties *)

(** X1 (append and truncate).  On a live console, [ram_console_write]
    returns, and the logical content afterwards is the content before
    with the written bytes appended, cut to its last
    [ram_console_buffer_size] bytes; its length is the new [size]. *)
Theorem write_appends_and_truncates (cfg : config) (rs : rs_codec)
    (st : ram_console) (s : bytes) :
  live_inv cfg st -> len s < 2 ^ 32 ->
  exists st',
    ram_console_write cfg rs st s (len s) = Ok st'
    /\ logical_content st'
       = last_bytes (ram_console_buffer_size st) (logical_content st ++ s)
    /\ len (logical_content st') = Buffer.size (buf st')
    /\ Buffer.size (buf st')
       = Z.min (Buffer.size (buf st) + len s) (ram_console_buffer_size st).
Proof.
  intros Hlive Hs.
  destruct (logical_content_write cfg rs st s Hlive Hs)
    as (st' & Hw & Hlive' & Hbsz & Hsize & Hcont).
  exists st'. split; [done|]. split; [done|]. split; [|done].
  unfold logical_content. apply len_last_bytes.
  rewrite (len_ring cfg st' Hlive'). by apply (header_ok_size cfg).
Qed.

(** The theorem on a store of four bytes that holds [1; 2; 3]: a write
    of [4; 5] pushes out the oldest byte. *)
Lemma write_appends_and_truncates_witness :
  let st := mk_ram_console (Buffer.mk RAM_CONSOLE_SIG 3 3 [1; 2; 3; 0]) 4 None 0 0 0 0 true in
  exists st',
    ram_console_write no_ecc xor_codec st [4; 5] 2 = Ok st'
    /\ logical_content st' = [2; 3; 4; 5]
    /\ len (logical_content st') = Buffer.size (buf st')
    /\ Buffer.size (buf st') = 4.
Proof.
  apply (write_appends_and_truncates no_ecc xor_codec
           (mk_ram_console (Buffer.mk RAM_CONSOLE_SIG 3 3 [1; 2; 3; 0]) 4 None 0 0 0 0 true)
           [4; 5]).
  - unfold live_inv, layout_ok, header_ok, INT_MAX, len. simpl. lia.
  - vm_compute. reflexivity.
Defined.

(** X2 (a session).  When [ram_console_init] completes on a mapped
    region, the capacity is what the reservations leave, and every
    sequence of writes that follows returns; the logical content is
    then the last [capacity] bytes of what was written, all of it as
    long as the total does not exceed the capacity. *)
Theorem init_then_writes (cfg : config) (rs : rs_codec) (alloc : allocator)
    (init_rs_ok : bool) (st : ram_console) (buffer_size : Z)
    (old_buf : option bytes) (ws : list bytes) :
  config_ok cfg -> region_ok st buffer_size -> old_buf_ok old_buf buffer_size ->
  ~ insufficient_capacity cfg buffer_size ->
  ecc cfg = None \/ init_rs_ok = true ->
  Forall (fun s => len s < 2 ^ 32) ws ->
  exists st0 st',
    ram_console_init cfg rs alloc init_rs_ok st buffer_size old_buf = Ok (0, st0)
    /\ ram_console_buffer_size st0 = data_capacity cfg buffer_size
    /\ write_all cfg rs st0 ws = Ok st'
    /\ logical_content st'
       = last_bytes (data_capacity cfg buffer_size) (concat ws)
    /\ Buffer.size (buf st')
       = Z.min (len (concat ws)) (data_capacity cfg buffer_size)
    /\ (len (concat ws) <= data_capacity cfg buffer_size ->
        logical_content st' = concat ws).
Proof.
  intros Hcfg Hreg Hdest Hroom Hrs Hall.
  destruct (ram_console_init_ok cfg rs alloc init_rs_ok st buffer_size old_buf)
    as (st0 & Hinit & Hlive & Hcap & _ & _ & Hsize & _); try done.
  destruct (logical_content_write_all cfg rs st0 ws Hlive Hall)
    as (st' & Hw & _ & _ & Hsize' & Hcont & _).
  rewrite (logical_content_empty cfg st0 Hlive Hsize), app_nil_l, Hcap in Hcont.
  rewrite Hsize, Z.add_0_l, Hcap in Hsize'.
  exists st0, st'. do 5 (split; [done|]).
  intros Hfit. rewrite Hcont. by apply last_bytes_all.
Qed.

(** The theorem on a region of 32 bytes with error correction, which
    leaves a capacity of 8, and two writes of three bytes. *)
Lemma init_then_writes_witness :
  exists st0 st',
    ram_console_init with_ecc xor_codec zeroed_allocator true
      (blank 0 0 0 20) 32 None = Ok (0, st0)
    /\ ram_console_buffer_size st0 = 8
    /\ write_all with_ecc xor_codec st0 [[1; 2; 3]; [4; 5; 6]] = Ok st'
    /\ logical_content st' = [1; 2; 3; 4; 5; 6]
    /\ Buffer.size (buf st') = 6
    /\ (6 <= 8 -> logical_content st' = [1; 2; 3; 4; 5; 6]).
Proof.
  apply (init_then_writes with_ecc xor_codec zeroed_allocator true
           (blank 0 0 0 20) 32 None [[1; 2; 3]; [4; 5; 6]]).
  - unfold config_ok, ecc_params_ok. simpl. repeat split; vm_compute; congruence.
  - unfold region_ok, INT_MAX. repeat split; vm_compute; congruence.
  - exact I.
  - unfold insufficient_capacity. vm_compute. intros [H|H]; discriminate.
  - right. reflexivity.
  - repeat constructor; vm_compute; reflexivity.
Defined.
(** X3 (across a reboot, without error correction).  A region is
    initialised and written to; the machine restarts, which keeps the
    bytes of the region and clears the driver's variables; the region
    is initialised again.  The log this second initialisation recovers
    is the last [capacity] bytes written before the restart, all of
    them when they fit, and [ram_console_old_log_size] is their
    number. *)
Theorem reboot_recovers_written (cfg : config) (rs : rs_codec)
    (alloc : allocator) (init_rs_ok : bool) (st : ram_console)
    (buffer_size : Z) (old_buf : option bytes) (ws : list bytes) :
  ecc cfg = None -> region_ok st buffer_size -> old_buf_ok old_buf buffer_size ->
  sizeof_buffer <= buffer_size ->
  Forall (fun s => len s < 2 ^ 32) ws ->
  (forall n, 0 <= n -> is_Some (kmalloc alloc n)) ->
  exists st0 st1 st2,
    ram_console_init cfg rs alloc init_rs_ok st buffer_size old_buf = Ok (0, st0)
    /\ write_all cfg rs st0 ws = Ok st1
    /\ ram_console_init cfg rs alloc init_rs_ok
         (mk_ram_console (buf st1) 0 None 0 0 0 0 false) buffer_size None
       = Ok (0, st2)
    /\ ram_console_old_log st2
       = Some (last_bytes (buffer_size - sizeof_buffer) (concat ws))
    /\ ram_console_old_log_size st2
       = Z.min (len (concat ws)) (buffer_size - sizeof_buffer).
Proof.
  intros Hecc Hreg Hdest Hbig Hall Halloc.
  assert (config_ok cfg) as Hcfg by (unfold config_ok; by rewrite Hecc).
  assert (~ insufficient_capacity cfg buffer_size) as Hroom.
  { unfold insufficient_capacity. rewrite Hecc. lia. }
  destruct (ram_console_init_ok cfg rs alloc init_rs_ok st buffer_size old_buf)
    as (st0 & Hinit & Hlive & Hcap & Hsig & _ & Hsize & _); try done; [by left|].
  destruct (ram_console_init_frame cfg rs alloc init_rs_ok st buffer_size old_buf)
    as (st0' & Hinit' & [Hlen _] & _); try done.
  rewrite Hinit in Hinit'. injection Hinit' as <-.
  unfold data_capacity in Hcap. rewrite Hecc in Hcap.
  destruct (logical_content_write_all cfg rs st0 ws Hlive Hall)
    as (st1 & Hw & _ & _ & Hsize1 & Hcont & _).
  rewrite (logical_content_empty cfg st0 Hlive Hsize), app_nil_l, Hcap in Hcont.
  rewrite Hsize, Z.add_0_l, Hcap in Hsize1.
  destruct Hreg as (Hbs & Hmap & _).
  destruct (recovery_after_reboot cfg rs alloc init_rs_ok st0 st1 ws buffer_size)
    as (st2 & Hinit2 & Hlog & Hlogsz); try done.
  { lia. }
  { rewrite Hlen. apply Hmap. lia. }
  exists st0, st1, st2. do 3 (split; [done|]).
  by rewrite Hlog, Hlogsz, Hcont, Hsize1.
Qed.

(** The theorem on a region of 16 bytes, four of them data, and the
    writes [1; 2; 3] and [4; 5]. *)
Lemma reboot_recovers_written_witness :
  exists st0 st1 st2,
    ram_console_init no_ecc xor_codec zeroed_allocator true (blank 0 0 0 4) 16 None
    = Ok (0, st0)
    /\ write_all no_ecc xor_codec st0 [[1; 2; 3]; [4; 5]] = Ok st1
    /\ ram_console_init no_ecc xor_codec zeroed_allocator true
         (mk_ram_console (buf st1) 0 None 0 0 0 0 false) 16 None
       = Ok (0, st2)
    /\ ram_console_old_log st2 = Some [2; 3; 4; 5]
    /\ ram_console_old_log_size st2 = 4.
Proof.
  apply (reboot_recovers_written no_ecc xor_codec zeroed_allocator true
           (blank 0 0 0 4) 16 None [[1; 2; 3]; [4; 5]]).
  - reflexivity.
  - unfold region_ok, INT_MAX. repeat split; vm_compute; congruence.
  - exact I.
  - vm_compute. congruence.
  - repeat constructor; vm_compute; reflexivity.
  - intros n Hn. simpl. unfold zeroed. rewrite bool_decide_eq_true_2 by done.
    by eexists.
Defined.

(** X4 (what the initialisation stores to).  Every call of
    [ram_console_init] on a mapped region returns 0 and keeps the
    length of the region; behind the header it changes no byte at or
    above the capacity, so the parity table, the segment of the header
    included, is as it was found; and without error correction it
    changes no byte behind the header at all. *)
Theorem init_keeps_parity_table (cfg : config) (rs : rs_codec)
    (alloc : allocator) (init_rs_ok : bool) (st : ram_console)
    (buffer_size : Z) (old_buf : option bytes) :
  config_ok cfg -> region_ok st buffer_size -> old_buf_ok old_buf buffer_size ->
  exists st',
    ram_console_init cfg rs alloc init_rs_ok st buffer_size old_buf = Ok (0, st')
    /\ len (Buffer.data (buf st')) = len (Buffer.data (buf st))
    /\ (forall i,
          0 <= i -> data_capacity cfg buffer_size <= i ->
          Buffer.data (buf st') !! Z.to_nat i = Buffer.data (buf st) !! Z.to_nat i)
    /\ (forall e k,
          ecc cfg = Some e -> 0 <= data_capacity cfg buffer_size -> 0 <= k ->
          slot_bytes e (data_capacity cfg buffer_size) (Buffer.data (buf st')) k
          = slot_bytes e (data_capacity cfg buffer_size) (Buffer.data (buf st)) k)
    /\ (ecc cfg = None -> Buffer.data (buf st') = Buffer.data (buf st)).
Proof.
  intros Hcfg Hreg Hdest.
  destruct (ram_console_init_frame cfg rs alloc init_rs_ok st buffer_size old_buf)
    as (st' & Hinit & Hsame & Hnone); try done.
  exists st'. split; [done|]. split; [by destruct Hsame|].
  split; [|split; [|done]].
  - intros i Hi Hcap. destruct Hsame as [_ Hsame]. apply Hsame; lia.
  - intros e k Hecc Hcap Hk. unfold slot_bytes.
    unfold config_ok in Hcfg. rewrite Hecc in Hcfg. destruct Hcfg as (HE & _).
    apply (same_except_sub _ _ _ _ _ Hsame); [nia|]. intros i Hi. nia.
Qed.

(** The theorem on a region of 32 bytes with error correction and a
    valid header. *)
Lemma init_keeps_parity_table_witness :
  let st := mk_ram_console
              (Buffer.mk RAM_CONSOLE_SIG 2 5 ([1; 2; 3; 4; 5; 6; 7; 8] ++ replicate 12 9))
              0 None 0 0 0 0 false in
  exists st',
    ram_console_init with_ecc xor_codec zeroed_allocator true st 32 None = Ok (0, st')
    /\ len (Buffer.data (buf st')) = len (Buffer.data (buf st))
    /\ (forall i,
          0 <= i -> data_capacity with_ecc 32 <= i ->
          Buffer.data (buf st') !! Z.to_nat i = Buffer.data (buf st) !! Z.to_nat i)
    /\ (forall e k,
          ecc with_ecc = Some e -> 0 <= data_capacity with_ecc 32 -> 0 <= k ->
          slot_bytes e (data_capacity with_ecc 32) (Buffer.data (buf st')) k
          = slot_bytes e (data_capacity with_ecc 32) (Buffer.data (buf st)) k)
    /\ (ecc with_ecc = None -> Buffer.data (buf st') = Buffer.data (buf st)).
Proof.
  apply (init_keeps_parity_table with_ecc xor_codec zeroed_allocator true
           (mk_ram_console
              (Buffer.mk RAM_CONSOLE_SIG 2 5 ([1; 2; 3; 4; 5; 6; 7; 8] ++ replicate 12 9))
              0 None 0 0 0 0 false) 32 None).
  - unfold config_ok, ecc_params_ok. simpl. repeat split; vm_compute; congruence.
  - unfold region_ok, INT_MAX. repeat split; vm_compute; congruence.
  - exact I.
Defined.
(** X5 (no memory for the old log).  When [kmalloc] fails and no
    destination was handed in, [ram_console_init] recovers nothing,
    whatever the header found: the recovered log and its size are what
    they were, the function still returns 0, resets the header and
    registers the console, so the log of the previous boot is out of
    reach from then on. *)
Theorem allocation_failure_drops_log (cfg : config) (rs : rs_codec)
    (alloc : allocator) (init_rs_ok : bool) (st : ram_console)
    (buffer_size : Z) :
  config_ok cfg -> region_ok st buffer_size ->
  ~ insufficient_capacity cfg buffer_size ->
  ecc cfg = None \/ init_rs_ok = true ->
  (forall n, kmalloc alloc n = None) ->
  exists st',
    ram_console_init cfg rs alloc init_rs_ok st buffer_size None = Ok (0, st')
    /\ ram_console_old_log st' = ram_console_old_log st
    /\ ram_console_old_log_size st' = ram_console_old_log_size st
    /\ Buffer.sig (buf st') = RAM_CONSOLE_SIG
    /\ Buffer.start (buf st') = 0
    /\ Buffer.size (buf st') = 0
    /\ registered st' = true.
Proof.
  intros Hcfg Hreg Hroom Hrs Hfail.
  destruct (ram_console_init_layout_spec cfg rs st buffer_size init_rs_ok Hcfg Hreg)
    as [[[Hins|[Hecc Hno]] _]|(_ & _ & st1 & Hlayout & Hlay1 & Hbsz1 & _ & _
                               & Hstart1 & _ & Hlog1 & Hlogsz1 & _)];
    [done|by destruct Hrs as [?| ->]|].
  destruct (ram_console_init_tail cfg rs alloc init_rs_ok st buffer_size None st1)
    as (st2 & Hsave & _ & _ & _ & Hinit); try done; try lia.
  eexists. split; [exact Hinit|]. simpl.
  split; [|split; [|done]].
  - destruct (old_buffer_valid st1) eqn:Hvalid; [|by subst st2].
    apply old_buffer_valid_true in Hvalid as (_ & Hsz & Hle).
    destruct (ram_console_save_old_spec cfg rs alloc st1 None)
      as (st2' & Hsave' & _ & _ & _ & _ & _ & _ & _ & Hlog); try done; try lia.
    rewrite Hsave in Hsave'. injection Hsave' as <-. cbv zeta in Hlog.
    destruct Hlog as [(_ & _ & -> & _)|(log & Hsome & _)]; [done|].
    destruct (Hsome eq_refl) as [[d Hd] _]. by rewrite Hfail in Hd.
  - destruct (old_buffer_valid st1) eqn:Hvalid; [|by subst st2].
    apply old_buffer_valid_true in Hvalid as (_ & Hsz & Hle).
    destruct (ram_console_save_old_spec cfg rs alloc st1 None)
      as (st2' & Hsave' & _ & _ & _ & _ & _ & _ & _ & Hlog); try done; try lia.
    rewrite Hsave in Hsave'. injection Hsave' as <-. cbv zeta in Hlog.
    destruct Hlog as [(_ & _ & _ & ->)|(log & Hsome & _)]; [done|].
    destruct (Hsome eq_refl) as [[d Hd] _]. by rewrite Hfail in Hd.
Qed.

(** The theorem on a region with a valid header, [start = 2] and
    [size = 3]. *)
Lemma allocation_failure_drops_log_witness :
  let st := mk_ram_console (Buffer.mk RAM_CONSOLE_SIG 2 3 [1; 2; 3; 0]) 0 None 0 0 0 0 false in
  exists st',
    ram_console_init no_ecc xor_codec no_memory true st 16 None = Ok (0, st')
    /\ ram_console_old_log st' = None
    /\ ram_console_old_log_size st' = 0
    /\ Buffer.sig (buf st') = RAM_CONSOLE_SIG
    /\ Buffer.start (buf st') = 0
    /\ Buffer.size (buf st') = 0
    /\ registered st' = true.
Proof.
  apply (allocation_failure_drops_log no_ecc xor_codec no_memory true
           (mk_ram_console (Buffer.mk RAM_CONSOLE_SIG 2 3 [1; 2; 3; 0]) 0 None 0 0 0 0 false)
           16).
  - exact I.
  - unfold region_ok, INT_MAX. repeat split; vm_compute; congruence.
  - unfold insufficient_capacity. vm_compute. intros [H|H]; [discriminate|done].
  - left. reflexivity.
  - reflexivity.
Defined.
(** X6 (across a reboot, with error correction).  With a Reed-Solomon
    library that decodes what it encoded: a region is initialised and
    written to at least once, the machine restarts, and the region is
    initialised again.  The second initialisation finds the header and
    every block with their parity, counts no corrected byte and no bad
    block, and recovers the last [capacity] bytes written before the
    restart, followed by the line for no errors. *)
Theorem reboot_recovers_written_ecc (cfg : config) (rs : rs_codec)
    (alloc : allocator) (e : ecc_params) (st : ram_console) (buffer_size : Z)
    (old_buf : option bytes) (ws : list bytes) :
  ecc cfg = Some e -> ecc_params_ok e -> decodes_clean rs e ->
  region_ok st buffer_size -> old_buf_ok old_buf buffer_size ->
  ~ insufficient_capacity cfg buffer_size ->
  Forall (fun s => len s < 2 ^ 32) ws -> ws <> [] ->
  (forall n, 0 <= n -> is_Some (kmalloc alloc n)) ->
  exists st0 st1 st2,
    ram_console_init cfg rs alloc true st buffer_size old_buf = Ok (0, st0)
    /\ write_all cfg rs st0 ws = Ok st1
    /\ ram_console_init cfg rs alloc true
         (mk_ram_console (buf st1) 0 None 0 0 0 0 false) buffer_size None
       = Ok (0, st2)
    /\ ram_console_old_log st2
       = Some (last_bytes (data_capacity cfg buffer_size) (concat ws)
               ++ ascii_bytes Format.no_errors)
    /\ ram_console_old_log_size st2
       = Z.min (len (concat ws)) (data_capacity cfg buffer_size) + 20
    /\ ram_console_corrected_bytes st2 = 0
    /\ ram_console_bad_blocks st2 = 0.
Proof.
  intros Hecc Hok Hclean Hreg Hdest Hroom Hall Hne Halloc.
  assert (config_ok cfg) as Hcfg by (unfold config_ok; by rewrite Hecc).
  destruct (ram_console_init_ok cfg rs alloc true st buffer_size old_buf)
    as (st0 & Hinit & Hlive & Hcap & Hsig & _ & Hsize & _); try done; [by right|].
  destruct (ram_console_init_frame cfg rs alloc true st buffer_size old_buf)
    as (st0' & Hinit' & [Hlen _] & _); try done.
  rewrite Hinit in Hinit'. injection Hinit' as <-.
  assert (blocks_fresh rs e st0) as Hfresh0.
  { intros k Hk HkB. rewrite Hsize in HkB. destruct Hok as (? & ? & _). nia. }
  destruct (logical_content_write_all cfg rs st0 ws Hlive Hall)
    as (st1 & Hw & Hlive1 & Hbsz1 & Hsize1 & Hcont & Hsig1 & Hlen1).
  rewrite (logical_content_empty cfg st0 Hlive Hsize), app_nil_l, Hcap in Hcont.
  rewrite Hsize, Z.add_0_l, Hcap in Hsize1. rewrite Hcap in Hbsz1.
  destruct (write_all_fresh cfg rs e ws st0 st1 Hecc Hlive Hall Hfresh0 Hw)
    as [Hfresh1 Hhdr1]. specialize (Hhdr1 Hne).
  pose proof (old_window_logical_content cfg st1 Hlive1) as Hwin.
  pose proof (header_ok_size cfg st1 Hlive1) as Hsz1.
  pose proof Hlive1 as [[Hb1 _] [Hst1 Hsz1']].
  set (g := mk_ram_console (buf st1) 0 None 0 0 0 0 false).
  assert (region_ok g buffer_size) as Hreg1.
  { destruct Hreg as (Hbs & Hmap & _).
    unfold region_ok, INT_MAX, RAM_CONSOLE_SIG in *. simpl.
    rewrite Hlen1, Hlen, Hsig1, Hsig. repeat split; try done; lia. }
  destruct (ram_console_init_layout_clean cfg rs e g buffer_size)
    as (g1 & Hlayout & Hbuf1 & Hbszg & Hc1 & Hb1' & Hlay1); try done.
  { unfold header_fresh in Hhdr1. rewrite Hbsz1 in Hhdr1. exact Hhdr1. }
  simpl in Hbuf1.
  assert (old_buffer_valid g1 = true) as Hvalid.
  { unfold old_buffer_valid. rewrite Hbuf1, Hbszg, Hsig1, Hsig.
    rewrite !bool_decide_eq_true_2, !bool_decide_eq_false_2 by lia. done. }
  assert (blocks_fresh rs e g1) as Hfreshg.
  { unfold blocks_fresh. rewrite Hbuf1, Hbszg, <- Hbsz1. exact Hfresh1. }
  destruct (ram_console_save_old_spec cfg rs alloc g1 None)
    as (g2 & Hsave & _ & _ & _ & _ & _ & _ & _ & Hlog);
    try done; try (rewrite Hbuf1; lia); try (rewrite Hbuf1, Hbszg; lia).
  destruct (ram_console_save_old_buf cfg rs alloc g1 None g2 Hsave)
    as (g1' & tr & Hdec & Hbuf2 & _ & Hc2 & Hb2).
  rewrite (save_old_decode_clean cfg rs e g1 Hecc Hclean Hlay1) in Hdec;
    [|rewrite Hbuf1, Hbszg; lia|done].
  injection Hdec as <- <-. simpl in Hbuf2, Hc2, Hb2.
  rewrite Hc1 in Hc2. rewrite Hb1' in Hb2.
  assert (buf g2 = buf st1) as Hbufg2.
  { rewrite Hbuf2, Hbuf1. by destruct (buf st1). }
  cbv zeta in Hlog.
  assert (trailer cfg g2 = ascii_bytes Format.no_errors) as Htr.
  { unfold trailer. rewrite Hecc, Hc2, Hb2. reflexivity. }
  rewrite Htr, Hbuf1, Hbufg2 in Hlog.
  change (len (ascii_bytes Format.no_errors)) with 20 in Hlog.
  destruct Hlog as [(_ & Hnone & _)|(log & Hexact & Hlog & Hlogsz & _ & Htake)].
  { destruct (Halloc (Buffer.size (buf st1) + 20) ltac:(lia)) as [d Hd].
    congruence. }
  destruct (Hexact eq_refl) as [_ Hloglen].
  exists st0, st1. eexists. split; [done|]. split; [done|]. fold g.
  unfold ram_console_init at 1. rewrite Hlayout, bind_Ok, Hvalid, Hsave, bind_Ok.
  split; [done|]. simpl.
  rewrite Hlog, Hlogsz, Hc2, Hb2, Hsize1. split; [|done].
  f_equal. rewrite take_ge in Htake by (unfold len in *; lia).
  by rewrite Htake, Hwin, Hcont.
Qed.

(** The theorem on a region of 32 bytes, which leaves a capacity of 8,
    and the writes [1 .. 6] and [7 .. 10]. *)
Lemma reboot_recovers_written_ecc_witness :
  exists st0 st1 st2,
    ram_console_init with_ecc xor_codec zeroed_allocator true (blank 0 0 0 20) 32 None
    = Ok (0, st0)
    /\ write_all with_ecc xor_codec st0 [[1; 2; 3; 4; 5; 6]; [7; 8; 9; 10]] = Ok st1
    /\ ram_console_init with_ecc xor_codec zeroed_allocator true
         (mk_ram_console (buf st1) 0 None 0 0 0 0 false) 32 None
       = Ok (0, st2)
    /\ ram_console_old_log st2
       = Some ([3; 4; 5; 6; 7; 8; 9; 10] ++ ascii_bytes Format.no_errors)
    /\ ram_console_old_log_size st2 = 8 + 20
    /\ ram_console_corrected_bytes st2 = 0
    /\ ram_console_bad_blocks st2 = 0.
Proof.
  apply (reboot_recovers_written_ecc with_ecc xor_codec zeroed_allocator
           (mk_ecc 4 2) (blank 0 0 0 20) 32 None
           [[1; 2; 3; 4; 5; 6]; [7; 8; 9; 10]]).
  - reflexivity.
  - unfold ecc_params_ok. simpl. repeat split; vm_compute; congruence.
  - intros d. reflexivity.
  - unfold region_ok, INT_MAX. repeat split; vm_compute; congruence.
  - exact I.
  - unfold insufficient_capacity. vm_compute. intros [H|H]; discriminate.
  - repeat constructor; vm_compute; reflexivity.
  - discriminate.
  - intros n Hn. simpl. unfold zeroed. rewrite bool_decide_eq_true_2 by done.
    by eexists.
Defined.
(** X7 (reading the file to its end).  With a recovered log, a reader
    that calls [ram_console_read_old] for at most [length] bytes at a
    time, starting at offset 0 and going on from the offset each call
    leaves, gets the first [ram_console_old_log_size] bytes of the log,
    each once and in order, whatever the chunk length; the calls end
    with one that returns 0, at offset [ram_console_old_log_size]. *)
Theorem read_all_returns_log (cfg : config) (st : ram_console) (log : bytes)
    (length : Z) (fuel : nat) :
  ram_console_old_log st = Some log ->
  0 <= ram_console_old_log_size st <= len log ->
  ram_console_old_log_size st < 2 ^ 32 ->
  0 < length < 2 ^ 31 ->
  ram_console_old_log_size st < Z.of_nat fuel ->
  read_all cfg st true fuel length 0
  = Ok (take (Z.to_nat (ram_console_old_log_size st)) log,
        ram_console_old_log_size st).
Proof.
  intros Hlog Hsz Hsz32 Hlen Hfuel.
  rewrite (read_all_from cfg st log length fuel 0) by (done || lia).
  by rewrite Z.sub_0_r, drop_0.
Qed.

(** The theorem on a log of five bytes read two at a time. *)
Lemma read_all_returns_log_witness :
  let st := mk_ram_console (Buffer.mk RAM_CONSOLE_SIG 0 0 []) 0
              (Some [3; 4; 5; 1; 2]) 5 0 0 0 true in
  read_all no_ecc st true 6 2 0 = Ok ([3; 4; 5; 1; 2], 5).
Proof.
  apply (read_all_returns_log no_ecc
           (mk_ram_console (Buffer.mk RAM_CONSOLE_SIG 0 0 []) 0
              (Some [3; 4; 5; 1; 2]) 5 0 0 0 true) [3; 4; 5; 1; 2] 2 6).
  - reflexivity.
  - split; vm_compute; congruence.
  - vm_compute. reflexivity.
  - split; vm_compute; congruence.
  - vm_compute. reflexivity.
Defined.



(** X9 (the enable switch).  [ram_console_enable_console] sets the
    [CON_ENABLED] bit of the console's flags when its argument is not
    zero and clears it otherwise; every other bit of the flags is as
    before, the result is a [short], and of two calls in a row only
    the second counts. *)
Theorem enable_console_one_bit (CON_ENABLED b flags enabled : Z) :
  0 <= b < 16 -> CON_ENABLED = 2 ^ b ->
  let flags' := ram_console_enable_console CON_ENABLED flags enabled in
  Z.testbit flags' b = bool_decide (enabled <> 0)
  /\ (forall i, 0 <= i < 16 -> i <> b -> Z.testbit flags' i = Z.testbit flags i)
  /\ - 2 ^ 15 <= flags' < 2 ^ 15
  /\ (forall again,
        ram_console_enable_console CON_ENABLED flags' again
        = ram_console_enable_console CON_ENABLED flags again).
Proof.
  intros Hb -> flags'. unfold flags', ram_console_enable_console.
  split; [|split; [|split]].
  - case_bool_decide; rewrite s16_testbit by done.
    + rewrite Z.lor_spec, Z.pow2_bits_true by lia. apply orb_true_r.
    + rewrite Z.land_spec, Z.lnot_spec, Z.pow2_bits_true by lia. apply andb_false_r.
  - intros i Hi Hne. case_bool_decide; rewrite s16_testbit by done.
    + rewrite Z.lor_spec, Z.pow2_bits_false by lia. apply orb_false_r.
    + rewrite Z.land_spec, Z.lnot_spec, Z.pow2_bits_false by lia. apply andb_true_r.
  - case_bool_decide; apply s16_range.
  - intros again.
    destruct (bool_decide (again <> 0)); apply s16_eq; intros i Hi;
      case_bool_decide;
      rewrite ?Z.lor_spec, ?Z.land_spec, ?Z.lnot_spec, s16_testbit by lia;
      rewrite ?Z.lor_spec, ?Z.land_spec, ?Z.lnot_spec by lia;
      destruct (Z.testbit flags i), (Z.testbit (2 ^ b) i); done.
Qed.

(** The theorem on the flags 5 with [CON_ENABLED = 4]: disabling leaves
    1, and enabling that gives 5 again. *)
Lemma enable_console_one_bit_witness :
  ram_console_enable_console 4 5 0 = 1
  /\ ram_console_enable_console 4 1 1 = 5
  /\ Z.testbit (ram_console_enable_console 4 5 0) 2 = false.
Proof.
  split; [reflexivity|]. split; [reflexivity|].
  destruct (enable_console_one_bit 4 2 5 0) as (H & _); [lia|reflexivity|].
  exact H.
Defined.
(** X10 (what recovery corrects).  With error correction,
    [ram_console_save_old] hands every block that begins below [size],
    a partial last block in its actual length, to the decoder together
    with the parity segment of that block, both as found in the region:
    afterwards the block holds what the decoder returned for it, and no
    other byte of the region has changed.  The counters have grown by
    the decoder's results, positive ones as corrected bytes and each
    negative one as a bad block, and the recovered log is the valid
    window of the corrected data followed by the line for these
    counters. *)
Theorem recovery_decodes_blockwise (cfg : config) (rs : rs_codec)
    (alloc : allocator) (e : ecc_params) (st : ram_console)
    (old_buf : option bytes) :
  ecc cfg = Some e -> layout_ok cfg st ->
  0 <= Buffer.start (buf st) <= Buffer.size (buf st) ->
  Buffer.size (buf st) <= ram_console_buffer_size st ->
  match old_buf with
  | Some d => Buffer.size (buf st) + sizeof_strbuf <= len d
  | None => forall n, 0 <= n -> is_Some (kmalloc alloc n)
  end ->
  let bsz := ram_console_buffer_size st in
  let nb := blocks_below e (Buffer.size (buf st)) in
  let found := Buffer.data (buf st) in
  exists st' log,
    ram_console_save_old cfg rs alloc st old_buf = Ok st'
    /\ (forall k, 0 <= k < nb ->
          block_data e bsz (Buffer.data (buf st')) k
          = (decoded_block rs e bsz found k).2)
    /\ same_except (fun i => i < bsz /\ i < nb * ECC_BLOCK_SIZE e)
         found (Buffer.data (buf st'))
    /\ (ram_console_corrected_bytes st', ram_console_bad_blocks st')
       = foldl tally (ram_console_corrected_bytes st, ram_console_bad_blocks st)
           (map (fun k => (decoded_block rs e bsz found k).1) (seqZ 0 nb))
    /\ ram_console_old_log st' = Some log
    /\ take (Z.to_nat (ram_console_old_log_size st')) log
       = old_window (buf st')
         ++ diag_line (ram_console_corrected_bytes st') (ram_console_bad_blocks st').
Proof.
  intros Hecc Hlay Hhdr Hsize Hdest bsz nb found.
  destruct (ram_console_save_old_spec cfg rs alloc st old_buf)
    as (st' & Hsave & _ & _ & _ & _ & _ & _ & _ & Hlog); try done.
  { destruct old_buf; done. }
  destruct (ram_console_save_old_buf cfg rs alloc st old_buf st' Hsave)
    as (st1 & tr & Hdec & Hbuf & _ & Hc & Hb).
  destruct (save_old_decode_spec cfg rs e st Hecc Hlay ltac:(lia))
    as (m' & c' & b' & Hdec' & Hsame & Hblocks & Hcount).
  rewrite Hdec in Hdec'. injection Hdec' as -> ->.
  simpl in Hbuf, Hc, Hb.
  cbv zeta in Hlog. unfold trailer in Hlog. rewrite Hecc in Hlog.
  destruct Hlog as [(-> & Hnone & _)|(log & _ & Hlog & Hlogsz & _ & Htake)].
  { assert (0 <= len (diag_line (ram_console_corrected_bytes st')
                        (ram_console_bad_blocks st'))) by apply len_nonneg.
    destruct (Hdest (Buffer.size (buf st)
                     + len (diag_line (ram_console_corrected_bytes st')
                              (ram_console_bad_blocks st'))) ltac:(lia))
      as [d Hd]. congruence. }
  exists st', log. split; [done|]. rewrite Hbuf, Hc, Hb. simpl.
  split; [done|]. split; [done|]. split; [done|]. split; [done|].
  rewrite Hlogsz, Htake, Hbuf, Hc, Hb. done.
Qed.

(** The theorem on a region of two blocks of four bytes whose first
    byte was damaged, with a decoder that repairs the first two bytes
    of a block from its parity segment. *)
Lemma recovery_decodes_blockwise_witness :
  let st := mk_ram_console
              (Buffer.mk RAM_CONSOLE_SIG 2 5
                 ([99; 2; 3; 4; 5; 6; 7; 8] ++ [1; 2; 5; 6; 0; 0]))
              8 None 0 8 0 0 false in
  exists st' log,
    ram_console_save_old with_ecc copy_codec zeroed_allocator st None = Ok st'
    /\ (forall k, 0 <= k < 2 ->
          block_data (mk_ecc 4 2) 8 (Buffer.data (buf st')) k
          = (decoded_block copy_codec (mk_ecc 4 2) 8 (Buffer.data (buf st)) k).2)
    /\ same_except (fun i => i < 8 /\ i < 2 * 4)
         (Buffer.data (buf st)) (Buffer.data (buf st'))
    /\ (ram_console_corrected_bytes st', ram_console_bad_blocks st')
       = foldl tally (0, 0)
           (map (fun k => (decoded_block copy_codec (mk_ecc 4 2) 8
                             (Buffer.data (buf st)) k).1) (seqZ 0 2))
    /\ ram_console_old_log st' = Some log
    /\ take (Z.to_nat (ram_console_old_log_size st')) log
       = old_window (buf st')
         ++ diag_line (ram_console_corrected_bytes st') (ram_console_bad_blocks st').
Proof.
  apply (recovery_decodes_blockwise with_ecc copy_codec zeroed_allocator (mk_ecc 4 2)
           (mk_ram_console
              (Buffer.mk RAM_CONSOLE_SIG 2 5
                 ([99; 2; 3; 4; 5; 6; 7; 8] ++ [1; 2; 5; 6; 0; 0]))
              8 None 0 8 0 0 false) None).
  - reflexivity.
  - unfold layout_ok, ecc_params_ok. simpl. repeat split; vm_compute; congruence.
  - simpl. lia.
  - simpl. lia.
  - intros n Hn. simpl. unfold zeroed. rewrite bool_decide_eq_true_2 by done.
    by eexists.
Defined.

(** What that recovery yields: the damaged byte is repaired in the
    region and in the log, and the line reports one corrected byte. *)
Example recovery_repairs_block :
  let st := mk_ram_console
              (Buffer.mk RAM_CONSOLE_SIG 2 5
                 ([99; 2; 3; 4; 5; 6; 7; 8] ++ [1; 2; 5; 6; 0; 0]))
              8 None 0 8 0 0 false in
  exists st',
    ram_console_save_old with_ecc copy_codec zeroed_allocator st None = Ok st'
    /\ Buffer.data (buf st') = [1; 2; 3; 4; 5; 6; 7; 8] ++ [1; 2; 5; 6; 0; 0]
    /\ ram_console_corrected_bytes st' = 1
    /\ ram_console_bad_blocks st' = 0
    /\ ram_console_old_log st'
       = Some ([3; 4; 5; 1; 2]
               ++ ascii_bytes (Format.errors (decimal 1) (decimal 0))).
Proof. eexists. split; [vm_compute; reflexivity|]. repeat split. Qed.
(** X11 (module initialisation and the file).  [ram_console_late_init]
    returns what [platform_driver_register] returned: neither a missing
    log nor a failure to create the file makes it fail.  When the
    registration fails, [dummy] is NULL afterwards and no file is
    created.  Otherwise either the file was created and its size set to
    the size of the recovered log, which is still there, or no size was
    set and no log is left; and a log that was freed is no longer
    pointed to. *)
Theorem late_init_file (k : kernel) (p : Param.module_params) (m : module_state)
    (ret : Z) (m' : module_state) :
  calls m = [] ->
  ram_console_late_init k p m = Ok (ret, m') ->
  exists g,
    driver_registered k (globals m) = Ok (ret, g)
    /\ (ret <> 0 ->
        globals m' = g /\ dummy m' = NULL /\ Proc_create_data ∉ calls m')
    /\ (ret = 0 ->
        (ram_console_old_log (globals m') = None
         /\ forall entry n, Proc_set_size entry n ∉ calls m')
        \/ (exists log entry,
              globals m' = g
              /\ ram_console_old_log g = Some log
              /\ proc_created k = Some entry
              /\ Proc_create_data ∈ calls m'
              /\ Proc_set_size entry (ram_console_old_log_size g) ∈ calls m'))
    /\ (forall log,
          Kfree log ∈ calls m' ->
          ram_console_old_log g = Some log
          /\ ram_console_old_log (globals m') = None
          /\ proc_created k = None).
Proof.
  intros Hcalls. unfold ram_console_late_init.
  rewrite (register_dummy_globals k p m).
  assert (forall c, c ∈ calls (ramoops_register_dummy k p m) -> device_call c)
    as Hdev' by (intros c; by apply register_dummy_calls).
  destruct (driver_registered k (globals m)) as [[r g]| |] eqn:Hreg; [|done..].
  rewrite bind_Ok. cbv beta iota.
  set (m1 := ramoops_register_dummy k p m) in *. clearbody m1.
  case_bool_decide as Hret.
  { intros [= <- <-]. exists g. split; [done|]. simpl.
    split; [|split; [done|]].
    - intros _. split; [done|]. split; [done|].
      intros Hin. in_calls Hin. by apply Hdev' in Hin.
    - intros log Hin. in_calls Hin. by apply Hdev' in Hin. }
  assert (r = 0) as -> by lia.
  destruct (ram_console_old_log g) as [log|] eqn:Hlog.
  2: { intros [= <- <-]. exists g. split; [done|]. simpl.
       split; [done|]. split.
       - intros _. left. split; [done|]. intros entry n Hin.
         in_calls Hin. by apply Hdev' in Hin.
       - intros log Hin. in_calls Hin. by apply Hdev' in Hin. }
  destruct (proc_created k) as [entry|] eqn:Hproc.
  - intros [= <- <-]. exists g. split; [done|]. simpl.
    split; [done|]. split.
    + intros _. right. exists log, entry. do 3 (split; [done|]). split.
      * apply elem_of_app. left. apply elem_of_app. right.
        by apply list_elem_of_singleton.
      * apply elem_of_app. right. by apply list_elem_of_singleton.
    + intros log' Hin. in_calls Hin. by apply Hdev' in Hin.
  - intros [= <- <-]. exists g. split; [done|]. simpl.
    split; [done|]. split.
    + intros _. left. split; [done|]. intros entry n Hin.
      in_calls Hin. by apply Hdev' in Hin.
    + intros log' Hin. in_calls Hin; [by apply Hdev' in Hin|].
      injection Hin as ->. done.
Qed.

(** The theorem on a registration that succeeds after a probe
    recovered a log of three bytes, with a file that is created. *)
Lemma late_init_file_witness :
  let g := mk_ram_console (Buffer.mk RAM_CONSOLE_SIG 0 0 []) 0 (Some [1; 2; 3]) 3
             0 0 0 true in
  let k := mk_kernel (fun _ => Object 1) (fun _ => Ok (0, g)) (Some 7) in
  exists m',
    ram_console_late_init k (Param.mk 0 0 0) (mk_module (blank 0 0 0 0) NULL [])
    = Ok (0, m')
    /\ globals m' = g
    /\ Proc_set_size 7 3 ∈ calls m'.
Proof.
  intros g k. eexists. split; [reflexivity|].
  destruct (late_init_file k (Param.mk 0 0 0) (mk_module (blank 0 0 0 0) NULL [])
              0 _ eq_refl eq_refl)
    as (g' & Hreg & _ & Hfile & _).
  injection Hreg as <-.
  destruct (Hfile eq_refl) as [[Hnone _]|(log & entry & Hg & Hlog & Hproc & _ & Hsize)].
  - discriminate Hnone.
  - injection Hproc as <-. split; [exact Hg|exact Hsize].
Defined.

(** X12 (the dummy device).  From a cleared [dummy],
    [ram_console_late_init] never leaves an error pointer in it, and
    neither it nor [ramoops_exit] after it hands one to
    [platform_device_unregister].  A device is registered only when the
    module parameter [mem_size] is not zero, with the three parameters
    as its platform data; when the registration of the driver fails it
    is unregistered before the function returns, and in any case by
    [ramoops_exit], which leaves [dummy] NULL. *)
Theorem dummy_device_lifecycle (k : kernel) (p : Param.module_params)
    (m : module_state) (ret : Z) (m1 : module_state) :
  calls m = [] -> dummy m = NULL ->
  ram_console_late_init k p m = Ok (ret, m1) ->
  let pdata :=
    mk_platform_data (Param.mem_size p) (Param.mem_address p) (Param.mem_type p) in
  let m2 := ramoops_exit m1 in
  IS_ERR (dummy m1) = false
  /\ dummy m2 = NULL
  /\ (forall ptr, Platform_device_unregister ptr ∈ calls m2 -> IS_ERR ptr = false)
  /\ (forall pd, Platform_device_register_data pd ∈ calls m2 ->
        Param.mem_size p <> 0 /\ pd = pdata)
  /\ (forall id,
        Param.mem_size p <> 0 -> device_registered k pdata = Object id ->
        Platform_device_unregister (Object id) ∈ calls m2
        /\ (ret <> 0 ->
            dummy m1 = NULL /\ Platform_device_unregister (Object id) ∈ calls m1)).
Proof.
  intros Hcalls Hdummy Hinit pdata m2.
  destruct (register_dummy_pointer k p m Hcalls Hdummy)
    as (Herr0 & Hunreg0 & _ & Hreg0).
  destruct (late_init_calls k p m ret m1 Hinit) as (rest & Hcalls1 & Hrest).
  set (m0 := ramoops_register_dummy k p m) in *.
  assert (calls m2
          = calls m1 ++ [Platform_driver_unregister;
                         Platform_device_unregister (dummy m1)]) as Hcalls2.
  { unfold m2, ramoops_exit, ramoops_unregister_dummy. simpl.
    by rewrite <- app_assoc. }
  assert (IS_ERR (dummy m1) = false) as Herr1.
  { destruct Hrest as [(_ & _ & ->)|(_ & -> & _)]; done. }
  split; [done|]. split; [done|]. split; [|split].
  - intros ptr Hin. rewrite Hcalls2, Hcalls1 in Hin.
    apply elem_of_app in Hin as [Hin|Hin].
    + apply elem_of_app in Hin as [Hin|Hin]; [by rewrite (Hunreg0 ptr Hin)|].
      apply elem_of_cons in Hin as [Hin|Hin]; [done|].
      destruct Hrest as [(_ & -> & _)|(_ & _ & Hnone)].
      * apply list_elem_of_singleton in Hin. by injection Hin as ->.
      * by destruct (Hnone _ Hin).
    + apply elem_of_cons in Hin as [Hin|Hin]; [done|].
      apply list_elem_of_singleton in Hin. by injection Hin as ->.
  - intros pd Hin. rewrite Hcalls2, Hcalls1 in Hin.
    apply elem_of_app in Hin as [Hin|Hin].
    + apply elem_of_app in Hin as [Hin|Hin]; [by apply Hreg0|].
      apply elem_of_cons in Hin as [Hin|Hin]; [done|].
      destruct Hrest as [(_ & -> & _)|(_ & _ & Hnone)].
      * by apply list_elem_of_singleton in Hin.
      * by destruct (Hnone _ Hin).
    + apply elem_of_cons in Hin as [Hin|Hin]; [done|].
      by apply list_elem_of_singleton in Hin.
  - intros id Hsize Hdev.
    pose proof (register_dummy_keeps k p m id Hsize Hdev) as Hkeep.
    fold m0 in Hkeep. rewrite Hcalls2, Hcalls1.
    destruct Hrest as [(Hret & -> & Hnull)|(-> & Hsame & _)].
    + rewrite Hkeep. split.
      * apply elem_of_app. left. apply elem_of_app. right.
        apply elem_of_cons. right. by apply list_elem_of_singleton.
      * intros _. split; [done|]. apply elem_of_app. right.
        apply elem_of_cons. right. by apply list_elem_of_singleton.
    + split; [|done]. rewrite Hsame, Hkeep.
      apply elem_of_app. right. apply elem_of_cons. right.
      by apply list_elem_of_singleton.
Qed.

(** The theorem on a module with [mem_size] set, a device registration
    that fails, and a driver registration that fails. *)
Lemma dummy_device_lifecycle_witness :
  let k := mk_kernel (fun _ => ERR_PTR (-12)) (fun g => Ok (-16, g)) None in
  exists m1,
    ram_console_late_init k (Param.mk 4096 4096 0) (mk_module (blank 0 0 0 0) NULL [])
    = Ok (-16, m1)
    /\ dummy m1 = NULL
    /\ forall ptr,
         Platform_device_unregister ptr ∈ calls (ramoops_exit m1) ->
         IS_ERR ptr = false.
Proof.
  intros k. eexists. split; [reflexivity|].
  destruct (dummy_device_lifecycle k (Param.mk 4096 4096 0)
              (mk_module (blank 0 0 0 0) NULL []) (-16) _ eq_refl eq_refl eq_refl)
    as (_ & _ & Hptr & _).
  split; [reflexivity|exact Hptr].
Defined.

(** X13 (from the writes of one boot to the file of the next).  Without
    error correction: a region is initialised and written to; after the
    restart, [ram_console_late_init] registers the driver, and the
    kernel probes a device whose memory resource maps to that region.
    Then the function returns 0, the file is created with the size of
    the recovered log, and a reader of the file gets the last
    [capacity] bytes written before the restart, all of them when they
    fit. *)
Theorem last_kmsg_after_restart (cfg : config) (rs : rs_codec)
    (alloc : allocator) (init_rs_ok : bool) (PAGE_SIZE : Z)
    (st st0 st1 : ram_console) (buffer_size : Z) (old_buf : option bytes)
    (ws : list bytes) (k : kernel) (p : Param.module_params) (m : module_state)
    (pd : ram_console_platform_data) (r : resource)
    (ioremap : Z -> Z -> option ram_console_buffer) (region : ram_console_buffer)
    (entry length : Z) (fuel : nat) :
  ecc cfg = None -> region_ok st buffer_size -> old_buf_ok old_buf buffer_size ->
  sizeof_buffer <= buffer_size ->
  Forall (fun s => len s < 2 ^ 32) ws ->
  (forall n, 0 <= n -> is_Some (kmalloc alloc n)) ->
  ram_console_init cfg rs alloc init_rs_ok st buffer_size old_buf = Ok (0, st0) ->
  write_all cfg rs st0 ws = Ok st1 ->
  calls m = [] ->
  globals m = mk_ram_console region 0 None 0 0 0 0 false ->
  mem_size pd <> 0 -> Z.land (res_flags r) IORESOURCE_MEM <> 0 ->
  usize (cfg_abi cfg) (res_end r - res_start r + 1 - PAGE_SIZE * 10) = buffer_size ->
  ioremap (res_start r) buffer_size = Some (buf st1) ->
  (forall g,
     driver_registered k g
     = '(_, g') ← ram_console_driver_probe cfg rs alloc init_rs_ok PAGE_SIZE g
                    false (Some pd) (Some r) None false ioremap;
       Ok (0, g')) ->
  proc_created k = Some entry ->
  0 < length < 2 ^ 31 ->
  buffer_size - sizeof_buffer < Z.of_nat fuel ->
  let recovered := last_bytes (buffer_size - sizeof_buffer) (concat ws) in
  exists m',
    ram_console_late_init k p m = Ok (0, m')
    /\ Proc_set_size entry (len recovered) ∈ calls m'
    /\ read_all cfg (globals m') true fuel length 0 = Ok (recovered, len recovered).
Proof.
  intros Hecc Hreg Hdest Hbig Hall Halloc Hinit0 Hw1 Hcalls Hglobals Hsize Hflags
    Hbs Hmap Hdrv Hproc Hlength Hfuel recovered.
  destruct (init_writes_init cfg rs alloc init_rs_ok st buffer_size old_buf ws st0 st1)
    as (st2 & Hinit2 & Hlog & Hlogsz); try done.
  assert (len recovered = Z.min (len (concat ws)) (buffer_size - sizeof_buffer))
    as Hlen.
  { unfold recovered, last_bytes. pose proof (len_nonneg (concat ws)).
    unfold len in *. rewrite length_drop. lia. }
  rewrite <- Hlen in Hlogsz.
  assert (driver_registered k (globals m) = Ok (0, st2)) as Hreg2.
  { rewrite Hdrv, Hglobals.
    rewrite (probe_returns_init_value cfg rs alloc init_rs_ok PAGE_SIZE _ pd r
               ioremap (buf st1) Hsize Hflags); [|by rewrite Hbs].
    rewrite Hbs. change (set_buf _ (buf st1))
      with (mk_ram_console (buf st1) 0 None 0 0 0 0 false).
    by rewrite Hinit2. }
  unfold ram_console_late_init.
  rewrite register_dummy_globals, Hreg2, bind_Ok. cbv beta iota.
  rewrite bool_decide_eq_false_2 by lia. rewrite Hlog, Hproc.
  eexists. split; [done|]. simpl. split.
  - rewrite Hlogsz. apply elem_of_app. right. by apply list_elem_of_singleton.
  - destruct Hreg as (Hbs' & _). unfold INT_MAX in Hbs'.
    pose proof (len_nonneg recovered) as Hrec0. unfold sizeof_buffer in *.
    rewrite (read_all_from cfg st2 recovered length fuel 0) by (done || lia).
    rewrite Hlogsz, Z.sub_0_r, drop_0. f_equal. f_equal.
    apply take_ge. unfold len. lia.
Qed.

(** The theorem on a region of 16 bytes in a resource of ten pages and
    16 bytes, the writes [1; 2; 3] and [4; 5], and a reader that asks
    for three bytes at a time. *)
Lemma last_kmsg_after_restart_witness :
  let st1 := mk_ram_console (Buffer.mk RAM_CONSOLE_SIG 1 4 [5; 2; 3; 4])
               4 None 0 0 0 0 true in
  let probe g :=
    ram_console_driver_probe no_ecc xor_codec zeroed_allocator true 4096 g false
      (Some (mk_platform_data 40976 4096 0)) (Some (mk_resource 4096 45071 512))
      None false (fun _ _ => Some (buf st1)) in
  let k := mk_kernel (fun _ => Object 1)
             (fun g => '(_, g') ← probe g; Ok (0, g')) (Some 7) in
  exists m',
    ram_console_late_init k (Param.mk 0 0 0) (mk_module (blank 0 0 0 0) NULL [])
    = Ok (0, m')
    /\ Proc_set_size 7 4 ∈ calls m'
    /\ read_all no_ecc (globals m') true 5 3 0 = Ok ([2; 3; 4; 5], 4).
Proof.
  intros st1 probe k.
  apply (last_kmsg_after_restart no_ecc xor_codec zeroed_allocator true 4096
           (blank 0 0 0 4) (mk_ram_console (Buffer.mk RAM_CONSOLE_SIG 0 0 [0; 0; 0; 0])
                              4 None 0 0 0 0 true)
           st1 16 None [[1; 2; 3]; [4; 5]] k (Param.mk 0 0 0)
           (mk_module (blank 0 0 0 0) NULL [])
           (mk_platform_data 40976 4096 0) (mk_resource 4096 45071 512)
           (fun _ _ => Some (buf st1)) (Buffer.mk 0 0 0 []) 7 3 5%nat).
  - reflexivity.
  - unfold region_ok, INT_MAX. repeat split; vm_compute; congruence.
  - exact I.
  - vm_compute. congruence.
  - repeat constructor; vm_compute; reflexivity.
  - intros n Hn. simpl. unfold zeroed. rewrite bool_decide_eq_true_2 by done.
    by eexists.
  - reflexivity.
  - reflexivity.
  - reflexivity.
  - reflexivity.
  - vm_compute. congruence.
  - vm_compute. congruence.
  - reflexivity.
  - reflexivity.
  - intros g. reflexivity.
  - reflexivity.
  - split; vm_compute; congruence.
  - vm_compute. reflexivity.
Defined.

(** X14 (what the probe does not read).  Of the platform data,
    [ram_console_driver_probe] uses only whether [mem_size] is zero:
    the address and the size of the region come from the device's
    memory resource, and neither [mem_address] nor [mem_type], nor the
    [unbuffered] property of a device-tree node, changes what the probe
    does. *)
Theorem probe_ignores_address_and_type (cfg : config) (rs : rs_codec)
    (alloc : allocator) (init_rs_ok : bool) (PAGE_SIZE : Z) (st : ram_console)
    (of_node : bool) (pd pd' : ram_console_platform_data)
    (pdev_resource dt_resource : option resource) (unbuffered unbuffered' : bool)
    (ioremap : Z -> Z -> option ram_console_buffer) :
  (mem_size pd = 0 <-> mem_size pd' = 0) ->
  ram_console_driver_probe cfg rs alloc init_rs_ok PAGE_SIZE st of_node
    (Some pd') pdev_resource dt_resource unbuffered' ioremap
  = ram_console_driver_probe cfg rs alloc init_rs_ok PAGE_SIZE st of_node
      (Some pd) pdev_resource dt_resource unbuffered ioremap
  /\ ram_console_driver_probe cfg rs alloc init_rs_ok PAGE_SIZE st of_node
       None pdev_resource dt_resource unbuffered' ioremap
     = ram_console_driver_probe cfg rs alloc init_rs_ok PAGE_SIZE st of_node
         None pdev_resource dt_resource unbuffered ioremap.
Proof.
  intros Hzero. unfold ram_console_driver_probe. split.
  - cbn [is_Some_bool negb]. rewrite !andb_false_r.
    destruct (decide (mem_size pd = 0)) as [Hz|Hz].
    + rewrite !bool_decide_eq_true_2 by tauto. done.
    + rewrite !bool_decide_eq_false_2 by tauto. done.
  - destruct of_node; simpl; [|done].
    destruct dt_resource as [r|]; [|done]. simpl.
    by destruct unbuffered, unbuffered'.
Qed.

(** The theorem on two platform data that differ in all three fields,
    over a memory resource that cannot be mapped. *)
Lemma probe_ignores_address_and_type_witness :
  ram_console_driver_probe no_ecc xor_codec zeroed_allocator true 4096
    (blank 0 0 0 0) false (Some (mk_platform_data 1 0 1))
    (Some (mk_resource 4096 45071 512)) None true (fun _ _ => None)
  = ram_console_driver_probe no_ecc xor_codec zeroed_allocator true 4096
      (blank 0 0 0 0) false (Some (mk_platform_data 40976 4096 0))
      (Some (mk_resource 4096 45071 512)) None false (fun _ _ => None).
Proof.
  apply (probe_ignores_address_and_type no_ecc xor_codec zeroed_allocator true 4096
           (blank 0 0 0 0) false (mk_platform_data 40976 4096 0)
           (mk_platform_data 1 0 1) (Some (mk_resource 4096 45071 512)) None
           false true (fun _ _ => None)).
  split; intros H; vm_compute in H; discriminate H.
Defined.

(** X15 (a resource shorter than ten pages).  The probe takes ten pages
    off the length of the resource without comparing the two: for a
    memory resource of fewer than ten pages the subtraction wraps, and
    [ioremap], and after it [ram_console_init], are handed a length of
    [2 ^ bits - (10 * PAGE_SIZE - n)] for the [n] bytes of the resource,
    which is no less than [n].  The probe then fails with [-ENOMEM] exactly when [ioremap] refuses
    that length. *)
Theorem probe_short_resource (cfg : config) (rs : rs_codec) (alloc : allocator)
    (init_rs_ok : bool) (PAGE_SIZE : Z) (st : ram_console)
    (pd : ram_console_platform_data) (r : resource)
    (ioremap : Z -> Z -> option ram_console_buffer) :
  mem_size pd <> 0 -> Z.land (res_flags r) IORESOURCE_MEM <> 0 ->
  let n := res_end r - res_start r + 1 in
  let bits := size_t_bits (cfg_abi cfg) in
  0 <= n < PAGE_SIZE * 10 -> PAGE_SIZE * 10 <= 2 ^ bits ->
  let wrapped := 2 ^ bits - (PAGE_SIZE * 10 - n) in
  n <= wrapped < 2 ^ bits
  /\ ram_console_driver_probe cfg rs alloc init_rs_ok PAGE_SIZE st false
       (Some pd) (Some r) None false ioremap
     = match ioremap (res_start r) wrapped with
       | None => Ok (- ENOMEM, st)
       | Some buffer =>
           ram_console_init cfg rs alloc init_rs_ok (set_buf st buffer) wrapped None
       end.
Proof.
  intros Hsize Hflags n bits Hn Hpage wrapped.
  assert (0 < 2 ^ bits) as Hpow by (unfold bits; destruct (cfg_abi cfg); done).
  split; [unfold wrapped; lia|].
  unfold ram_console_driver_probe. simpl.
  rewrite !bool_decide_eq_false_2 by done.
  assert (usize (cfg_abi cfg) (res_end r - res_start r + 1 - PAGE_SIZE * 10) = wrapped)
    as ->; [|done].
  unfold usize, wrap_unsigned. fold bits n.
  replace (n - PAGE_SIZE * 10) with (wrapped + -1 * 2 ^ bits) by (unfold wrapped; lia).
  rewrite Z.mod_add by lia. apply Z.mod_small. unfold wrapped. lia.
Qed.

(** The theorem on a resource of one page of 4096 bytes on a 32-bit
    machine: the probe asks for 4294930432 bytes. *)
Lemma probe_short_resource_witness :
  ram_console_driver_probe no_ecc xor_codec zeroed_allocator true 4096
    (blank 0 0 0 0) false (Some (mk_platform_data 4096 4096 0))
    (Some (mk_resource 4096 8191 512)) None false
    (fun _ size => if bool_decide (size = 4294930432) then None
                   else Some (Buffer.mk 0 0 0 []))
  = Ok (- ENOMEM, blank 0 0 0 0).
Proof.
  destruct (probe_short_resource no_ecc xor_codec zeroed_allocator true 4096
              (blank 0 0 0 0) (mk_platform_data 4096 4096 0)
              (mk_resource 4096 8191 512)
              (fun _ size => if bool_decide (size = 4294930432) then None
                             else Some (Buffer.mk 0 0 0 []))) as [_ H].
  - vm_compute. congruence.
  - vm_compute. congruence.
  - split; vm_compute; congruence.
  - vm_compute. congruence.
  - exact H.
Defined.

(** X16 (the line is whole).  With error correction and counters that
    are [int]s, the line that [ram_console_save_old] formats never
    fills [strbuf]: the recovered log ends with the whole text, a
    newline, the counters in decimal around the words (or the line for
    no errors) and a newline, between 20 and 63 bytes, and
    [ram_console_old_log_size] is [size] plus its length. *)
Theorem recovered_line_is_whole (cfg : config) (rs : rs_codec)
    (alloc : allocator) (e : ecc_params) (st : ram_console)
    (old_buf : option bytes) :
  ecc cfg = Some e -> layout_ok cfg st ->
  0 <= Buffer.start (buf st) <= Buffer.size (buf st) ->
  Buffer.size (buf st) <= ram_console_buffer_size st ->
  - 2 ^ 31 <= ram_console_corrected_bytes st < 2 ^ 31 ->
  - 2 ^ 31 <= ram_console_bad_blocks st < 2 ^ 31 ->
  match old_buf with
  | Some d => Buffer.size (buf st) + sizeof_strbuf <= len d
  | None => forall n, 0 <= n -> is_Some (kmalloc alloc n)
  end ->
  exists st' log,
    ram_console_save_old cfg rs alloc st old_buf = Ok st'
    /\ ram_console_old_log st' = Some log
    /\ let c := ram_console_corrected_bytes st' in
       let b := ram_console_bad_blocks st' in
       let line :=
         if bool_decide (c <> 0 \/ b <> 0)
         then ascii_bytes newline ++ ascii_bytes (decimal c)
              ++ ascii_bytes Words.corrected_bytes ++ ascii_bytes (decimal b)
              ++ ascii_bytes Words.unrecoverable_blocks ++ ascii_bytes newline
         else ascii_bytes newline ++ ascii_bytes Words.no_errors_detected
              ++ ascii_bytes newline in
       ram_console_old_log_size st' = Buffer.size (buf st) + len line
       /\ take (Z.to_nat (ram_console_old_log_size st')) log
          = old_window (buf st') ++ line
       /\ 20 <= len line <= 63
       /\ last_byte line = 10.
Proof.
  intros Hecc Hlay Hhdr Hsize Hc Hb Hdest.
  destruct (ram_console_save_old_spec cfg rs alloc st old_buf)
    as (st' & Hsave & _ & _ & _ & _ & _ & _ & _ & Hlog); try done.
  { destruct old_buf; done. }
  destruct (ram_console_save_old_buf cfg rs alloc st old_buf st' Hsave)
    as (st1 & tr & Hdec & _ & _ & Hc1 & Hb1).
  destruct (save_old_decode_spec cfg rs e st Hecc Hlay ltac:(lia))
    as (m' & c' & b' & Hdec' & _ & _ & Hcount).
  rewrite Hdec in Hdec'. injection Hdec' as -> ->. simpl in Hc1, Hb1.
  destruct (tally_range
              (map (fun k => (decoded_block rs e (ram_console_buffer_size st)
                                (Buffer.data (buf st)) k).1)
                 (seqZ 0 (blocks_below e (Buffer.size (buf st)))))
              (ram_console_corrected_bytes st, ram_console_bad_blocks st) Hc Hb)
    as [Hc' Hb'].
  rewrite <- Hcount in Hc', Hb'. simpl in Hc', Hb'.
  rewrite <- Hc1 in Hc'. rewrite <- Hb1 in Hb'.
  destruct (diag_line_whole _ _ Hc' Hb') as (Hwhole & Hlen & Hlast).
  cbv zeta in Hlog. unfold trailer in Hlog. rewrite Hecc, Hwhole in Hlog.
  destruct Hlog as [(-> & Hnone & _)|(log & _ & Hlog & Hlogsz & _ & Htake)].
  { destruct (Hdest (Buffer.size (buf st)
                     + len (diag_text (ram_console_corrected_bytes st')
                              (ram_console_bad_blocks st'))) ltac:(lia))
      as [d Hd]. congruence. }
  exists st', log. split; [done|]. split; [done|]. cbv zeta.
  rewrite <- diag_text_spec. rewrite Hlogsz. done.
Qed.

(** The theorem on the region of two blocks whose first byte was
    damaged: the line reports one corrected byte. *)
Lemma recovered_line_is_whole_witness :
  let st := mk_ram_console
              (Buffer.mk RAM_CONSOLE_SIG 2 5
                 ([99; 2; 3; 4; 5; 6; 7; 8] ++ [1; 2; 5; 6; 0; 0]))
              8 None 0 8 0 0 false in
  exists st' log,
    ram_console_save_old with_ecc copy_codec zeroed_allocator st None = Ok st'
    /\ ram_console_old_log st' = Some log
    /\ ram_console_corrected_bytes st' = 1
    /\ ram_console_bad_blocks st' = 0
    /\ take (Z.to_nat (ram_console_old_log_size st')) log
       = old_window (buf st')
         ++ ascii_bytes newline ++ ascii_bytes (decimal 1)
         ++ ascii_bytes Words.corrected_bytes ++ ascii_bytes (decimal 0)
         ++ ascii_bytes Words.unrecoverable_blocks ++ ascii_bytes newline.
Proof.
  intros st.
  destruct (recovered_line_is_whole with_ecc copy_codec zeroed_allocator
              (mk_ecc 4 2) st None) as (st' & log & Hsave & Hlog & Hline).
  - reflexivity.
  - unfold layout_ok, ecc_params_ok. simpl. repeat split; vm_compute; congruence.
  - simpl. lia.
  - simpl. lia.
  - simpl. lia.
  - simpl. lia.
  - intros n Hn. simpl. unfold zeroed. rewrite bool_decide_eq_true_2 by done.
    by eexists.
  - exists st', log. split; [exact Hsave|]. split; [exact Hlog|].
    assert (ram_console_corrected_bytes st' = 1 /\ ram_console_bad_blocks st' = 0)
      as [Hc Hb].
    { vm_compute in Hsave. injection Hsave as <-. split; reflexivity. }
    destruct Hline as (_ & Htake & _). rewrite Hc, Hb in Htake.
    split; [exact Hc|]. split; [exact Hb|]. exact Htake.
Defined.

(** X17 (the header is decoded first).  With error correction,
    [ram_console_init] decodes the header against its parity segment
    before it looks at it, and counts the result whatever it is: the
    test for an old log is made on the header words as the decoder
    returned them, also when it reported the header as uncorrectable.
    When the test passes, the counters of the line cover the header and
    then every block below the decoded [size]; when it fails, they
    cover the header alone and nothing is recovered. *)
Theorem init_decodes_header_first (cfg : config) (rs : rs_codec)
    (alloc : allocator) (e : ecc_params) (st : ram_console) (buffer_size : Z) :
  ecc cfg = Some e -> ecc_params_ok e -> region_ok st buffer_size ->
  ~ insufficient_capacity cfg buffer_size ->
  (forall n, 0 <= n -> is_Some (kmalloc alloc n)) ->
  let cap := data_capacity cfg buffer_size in
  let found := Buffer.data (buf st) in
  let decoded :=
    decode_rs8 rs (header_bytes (buf st))
      (slot_bytes e cap found (header_slot e cap)) in
  let header := set_header_bytes (buf st) decoded.2 in
  let valid :=
    Buffer.sig header = RAM_CONSOLE_SIG
    /\ Buffer.size header <= cap
    /\ Buffer.start header <= Buffer.size header in
  exists st',
    ram_console_init cfg rs alloc true st buffer_size None = Ok (0, st')
    /\ (valid ->
        (ram_console_corrected_bytes st', ram_console_bad_blocks st')
        = foldl tally (0, 0)
            (decoded.1
             :: map (fun k => (decoded_block rs e cap found k).1)
                  (seqZ 0 (blocks_below e (Buffer.size header))))
        /\ ram_console_old_log_size st'
           = Buffer.size header
             + len (diag_line (ram_console_corrected_bytes st')
                      (ram_console_bad_blocks st'))
        /\ is_Some (ram_console_old_log st'))
    /\ (~ valid ->
        (ram_console_corrected_bytes st', ram_console_bad_blocks st')
        = tally (0, 0) decoded.1
        /\ ram_console_old_log st' = ram_console_old_log st
        /\ ram_console_old_log_size st' = ram_console_old_log_size st).
Proof.
  intros Hecc Hok Hreg Hroom Halloc cap found decoded header valid.
  destruct (ram_console_init_layout_decoded cfg rs e st buffer_size Hecc Hok Hreg Hroom)
    as (st1 & Hlayout & Hbuf1 & Hbsz1 & Hcount1 & Hlog1 & Hlogsz1 & Hlay1).
  fold cap found decoded header in Hbuf1, Hbsz1, Hcount1.
  assert (0 <= Buffer.start header) as Hstart0.
  { unfold header, set_header_bytes. simpl. apply of_le32_range. }
  unfold ram_console_init. rewrite Hlayout, bind_Ok.
  destruct (old_buffer_valid st1) eqn:Hvalid.
  - apply old_buffer_valid_true in Hvalid as Hv. rewrite Hbuf1, Hbsz1 in Hv.
    destruct Hv as (Hsig & Hsz & Hle).
    destruct (ram_console_save_old_spec cfg rs alloc st1 None)
      as (st2 & Hsave & _ & _ & _ & _ & Hsize2 & _ & _ & Hlog);
      try done; try (rewrite Hbuf1; lia); try (rewrite Hbuf1, Hbsz1; lia).
    destruct (ram_console_save_old_buf cfg rs alloc st1 None st2 Hsave)
      as (st1' & tr & Hdec & _ & _ & Hc2 & Hb2).
    destruct (save_old_decode_spec cfg rs e st1 Hecc Hlay1)
      as (m' & c' & b' & Hdec' & _ & _ & Hcount); [rewrite Hbuf1, Hbsz1; lia|].
    rewrite Hdec in Hdec'. injection Hdec' as -> ->. simpl in Hc2, Hb2.
    rewrite Hsave, bind_Ok. eexists. split; [done|]. simpl.
    split; [|intros Hnot; destruct Hnot; done].
    intros _. split; [by rewrite Hc2, Hb2, Hcount, Hcount1, Hbuf1, Hbsz1|].
    cbv zeta in Hlog. unfold trailer in Hlog. rewrite Hecc, Hbuf1 in Hlog.
    destruct Hlog as [(_ & Hnone & _)|(log & _ & Hlog & Hlogsz & _)].
    { assert (0 <= len (diag_line (ram_console_corrected_bytes st2)
                          (ram_console_bad_blocks st2))) by apply len_nonneg.
      destruct (Halloc (Buffer.size header
                        + len (diag_line (ram_console_corrected_bytes st2)
                                 (ram_console_bad_blocks st2))) ltac:(lia))
        as [d Hd]. congruence. }
    rewrite Hlogsz, Hlog. split; [done|]. by eexists.
  - apply old_buffer_valid_false in Hvalid as Hv. rewrite Hbuf1, Hbsz1 in Hv.
    rewrite bind_Ok. eexists. split; [done|]. simpl. split.
    + intros (Hsig & Hsz & Hle). destruct Hv as [?|[?|?]]; [done|lia|lia].
    + intros _. done.
Qed.

(** The theorem on a region whose signature lost its two low bytes,
    with the decoder that puts the first bytes back from the parity:
    the signature is repaired, the header passes the test, and the
    counters show the two bytes that differed. *)
Lemma init_decodes_header_first_witness :
  let st := mk_ram_console
              (Buffer.mk 0x43470000 2 5
                 ([1; 2; 3; 4; 5; 6; 7; 8] ++ [1; 2; 5; 6; 68; 66] ++ replicate 6 0))
              0 None 0 0 0 0 false in
  exists st',
    ram_console_init with_ecc copy_codec zeroed_allocator true st 32 None
    = Ok (0, st')
    /\ ram_console_corrected_bytes st' = 2
    /\ ram_console_bad_blocks st' = 0
    /\ is_Some (ram_console_old_log st').
Proof.
  intros st.
  destruct (init_decodes_header_first with_ecc copy_codec zeroed_allocator
              (mk_ecc 4 2) st 32) as (st' & Hinit & Hvalid & _).
  - reflexivity.
  - unfold ecc_params_ok. simpl. repeat split; vm_compute; congruence.
  - unfold region_ok, INT_MAX. repeat split; vm_compute; congruence.
  - unfold insufficient_capacity. vm_compute. intros [H|H]; discriminate.
  - intros n Hn. simpl. unfold zeroed. rewrite bool_decide_eq_true_2 by done.
    by eexists.
  - exists st'. split; [exact Hinit|].
    destruct Hvalid as (Hcount & _ & Hlog).
    { repeat split; vm_compute; congruence. }
    vm_compute in Hcount. injection Hcount as Hc Hb.
    split; [exact Hc|]. split; [exact Hb|exact Hlog].
Defined.
